(** * Zodiac Pilot: simulation and batching pipeline

    A shallow embedding of the extension's provider bridge
    (GanacheProvider, GanacheBridgeHost, the Ganache iframe script), of the
    Tenderly fork backend (TenderlyProvider), of the transactions drawer
    (reforkAndRerun, copyTransactionData, formatValue), of submitTransactions
    and of the connection migrations, with the properties the design document
    states about them. *)

From Stdlib Require Import ZArith String Ascii List Lia Bool Permutation.
From Stdlib Require Import HexString DecimalString.
From stdpp Require Import base list strings.
Import ListNotations.
Local Open Scope Z_scope.

Set Warnings "-register-all".

(** ** JavaScript values

    The part of the JavaScript value space the modelled code touches.
    Numbers are the integers (message ids, block numbers, error codes); every
    integer the code computes stays far below 2^53, where a double is exact.
    Objects are ordered property lists, as a structured clone or a JSON
    document delivers them. *)
Module Js.

Inductive value : Type :=
| VUndefined
| VNull
| VBool (b : bool)
| VNum (n : Z)
| VStr (s : string)
| VObj (fields : list (string * value)).

(** ToBoolean *)
Definition truthy (v : value) : bool :=
  match v with
  | VUndefined | VNull => false
  | VBool b => b
  | VNum n => negb (n =? 0)
  | VStr s => negb (String.eqb s "")
  | VObj _ => true
  end.

Fixpoint lookup_field (k : string) (fields : list (string * value)) : value :=
  match fields with
  | [] => VUndefined
  | (k', v) :: rest => if String.eqb k k' then v else lookup_field k rest
  end.

(** [o.k] on a value that is not null or undefined *)
Definition get (o : value) (k : string) : value :=
  match o with
  | VObj fields => lookup_field k fields
  | _ => VUndefined
  end.

Definition nullish (v : value) : bool :=
  match v with
  | VUndefined | VNull => true
  | _ => false
  end.

(** [v === n] for a number [n] *)
Definition strict_eq_num (v : value) (n : Z) : bool :=
  match v with
  | VNum m => m =? n
  | _ => false
  end.

(** [new Error(message)] *)
Definition Error (message : string) : value :=
  VObj [("name", VStr "Error"); ("message", VStr message)].

(** the TypeError of a property read on null or undefined *)
Definition TypeError (message : string) : value :=
  VObj [("name", VStr "TypeError"); ("message", VStr message)].

(** How an awaited operation ends. *)
Inductive outcome : Type :=
| Resolved (v : value)
| Rejected (e : value).

(** The state of a promise. *)
Inductive promise_state : Type :=
| Pending
| Settled (o : outcome).

End Js.
Import Js.

(** ** The message bridge

    [window.postMessage] channels between the extension page and the Ganache
    iframe: GanacheProvider (host page, calls into the iframe),
    Eip1193Provider (iframe, calls back to the host page), GanacheBridgeHost
    (host page, serves the iframe's calls) and the iframe's own request
    listener installed by setupFork. *)
Module Bridge.

(** Identity of a browsing context (a WindowProxy). *)
Definition window_ref := nat.

(** [MessageEvent.source] *)
Inductive message_source : Type :=
| SourceNull
| SourceWindow (w : window_ref)
| SourceMessagePort (port : nat)
| SourceServiceWorker (worker : nat).

Record MessageEvent := {
  data : value;
  source : message_source;
}.

(** A [targetWindow.postMessage(message, '*')] call. *)
Record posted := {
  target : window_ref;
  message : value;
}.

(** The [handleMessage] closure a [request] call registers on its window: it
    captures [currentMessageId] and the [resolve]/[reject] pair of the
    promise the call returned. *)
Record listener := {
  responseTag : string;
  currentMessageId : Z;
  promise : nat;
}.

Definition listener_eqb (a b : listener) : bool :=
  String.eqb (responseTag a) (responseTag b)
  && (currentMessageId a =? currentMessageId b)
  && Nat.eqb (promise a) (promise b).

(** The window a provider lives in: its 'message' listeners in registration
    order, the promises handed out to callers, and the messages posted so
    far. *)
Record Window := {
  listeners : list listener;
  promises : list promise_state;
  outbox : list posted;
}.

Definition emptyWindow : Window :=
  {| listeners := []; promises := []; outbox := [] |}.

(** [resolve]/[reject] of a promise: only a pending promise changes. *)
Definition settle (p : nat) (o : outcome) (ps : list promise_state)
  : list promise_state :=
  match ps !! p with
  | Some Pending => <[p := Settled o]> ps
  | _ => ps
  end.

(** [window.removeEventListener('message', l)] *)
Fixpoint removeEventListener (l : listener) (ls : list listener)
  : list listener :=
  match ls with
  | [] => []
  | l' :: rest =>
      if listener_eqb l l' then rest else l' :: removeEventListener l rest
  end.

(** The provider object: [private messageId = 0], and the window it posts
    its requests to. *)
Record Provider := {
  messageId : Z;
  peer : window_ref;
}.

Definition newProvider (peerWindow : window_ref) : Provider :=
  {| messageId := 0; peer := peerWindow |}.

(** The two tags of one direction of the bridge. *)
Record tags := {
  requestTag : string;
  responseTagOf : string;
}.

(** GanacheProvider talks to the iframe. *)
Definition ganacheTags : tags :=
  {| requestTag := "zodiacPilotGanacheRequest";
     responseTagOf := "zodiacPilotGanacheResponse" |}.

(** Eip1193Provider, inside the iframe, talks to the host page. *)
Definition eip1193Tags : tags :=
  {| requestTag := "zodiacPilotRequestFromGanache";
     responseTagOf := "zodiacPilotResponseToGanache" |}.

Definition requestEnvelope (t : tags) (request : value) (id : Z) : value :=
  VObj [(requestTag t, VBool true); ("request", request); ("messageId", VNum id)].

(** [request(request)]: take the current message id, bump the counter, and
    in the promise executor post the envelope and register the listener.
    Returns the index of the new promise. *)
Definition request (t : tags) (request : value) (st : Provider * Window)
  : nat * (Provider * Window) :=
  let '(this, w) := st in
  let currentMessageId := messageId this in
  let this' := {| messageId := messageId this + 1; peer := peer this |} in
  let p := length (promises w) in
  let handleMessage :=
    {| responseTag := responseTagOf t;
       currentMessageId := currentMessageId;
       promise := p |} in
  (p, (this',
       {| listeners := listeners w ++ [handleMessage];
          promises := promises w ++ [Pending];
          outbox := outbox w ++
            [{| target := peer this;
                message := requestEnvelope t request currentMessageId |}] |})).

(** [GanacheProvider.request], on the host page. *)
Definition GanacheProvider_request (r : value) (st : Provider * Window)
  : nat * (Provider * Window) :=
  request ganacheTags r st.

(** [Eip1193Provider.request], inside the iframe: it posts to [window.top],
    and without one the executor throws, which rejects the promise before
    anything is posted or registered. *)
Definition Eip1193Provider_request (top : option window_ref) (r : value)
    (st : Provider * Window) : nat * (Provider * Window) :=
  let '(this, w) := st in
  match top with
  | Some parent =>
      request eip1193Tags r ({| messageId := messageId this; peer := parent |}, w)
  | None =>
      (length (promises w),
       ({| messageId := messageId this + 1; peer := peer this |},
        {| listeners := listeners w;
           promises := promises w ++
             [Settled (Rejected (Error "Must run inside iframe"))];
           outbox := outbox w |}))
  end.

(** Does the envelope carry the listener's tag and message id? *)
Definition matches (l : listener) (ev : MessageEvent) : bool :=
  truthy (get (data ev) (responseTag l))
  && strict_eq_num (get (data ev) "messageId") (currentMessageId l).

(** What a matching envelope settles the promise with. *)
Definition settlement (ev : MessageEvent) : outcome :=
  if truthy (get (data ev) "error")
  then Rejected (get (data ev) "error")
  else Resolved (get (data ev) "response").

(** The body of [handleMessage]. Destructuring [ev.data] throws when it is
    null or undefined; the exception leaves the window as it is. *)
Definition handleMessage (l : listener) (ev : MessageEvent) (w : Window)
  : Window :=
  if nullish (data ev) then w
  else if matches l ev then
    {| listeners := removeEventListener l (listeners w);
       promises := settle (promise l) (settlement ev) (promises w);
       outbox := outbox w |}
  else w.

Definition registered (l : listener) (w : Window) : bool :=
  existsb (listener_eqb l) (listeners w).

(** Dispatch of one 'message' event: the listeners registered when the
    dispatch starts run in registration order, one that has been removed in
    the meantime is skipped. *)
Definition dispatch_step (ev : MessageEvent) (w : Window) (l : listener)
  : Window :=
  if registered l w then handleMessage l ev w else w.

Definition dispatch (ev : MessageEvent) (w : Window) : Window :=
  fold_left (dispatch_step ev) (listeners w) w.

Definition dispatch_all (evs : list MessageEvent) (w : Window) : Window :=
  fold_left (fun w ev => dispatch ev w) evs w.

(** N calls of [request], one after the other, without waiting for any
    response. *)
Fixpoint request_all (t : tags) (requests : list value)
    (st : Provider * Window) : list nat * (Provider * Window) :=
  match requests with
  | [] => ([], st)
  | r :: rest =>
      let '(p, st') := request t r st in
      let '(ps, st'') := request_all t rest st' in
      (p :: ps, st'')
  end.

(** *** Vocabulary for the statements about request and response *)

(** The listener of the request number [i] of a fresh provider. *)
Definition requestListener (t : tags) (i : nat) : listener :=
  {| responseTag := responseTagOf t;
     currentMessageId := Z.of_nat i;
     promise := i |}.

Definition promiseOf (o : option outcome) : promise_state :=
  match o with
  | Some o => Settled o
  | None => Pending
  end.

Definition unsettled (f : nat -> option outcome) (i : nat) : bool :=
  match f i with
  | Some _ => false
  | None => true
  end.

(** The window of a fresh provider after [N] requests, [f] telling what
    each request has been settled with so far: the listeners of the
    unsettled requests are registered, in order, and promise [i] is the one
    of request [i]. *)
Definition issued (t : tags) (N : nat) (f : nat -> option outcome)
    (w : Window) : Prop :=
  listeners w = map (requestListener t) (List.filter (unsettled f) (seq 0 N)) /\
  length (promises w) = N /\
  forall i, (i < N)%nat -> promises w !! i = Some (promiseOf (f i)).

(** The effect of one event on what the requests have been settled with. *)
Definition deliver_to (t : tags) (ev : MessageEvent)
    (f : nat -> option outcome) : nat -> option outcome :=
  fun i =>
    match f i with
    | Some o => Some o
    | None =>
        if matches (requestListener t i) ev then Some (settlement ev) else None
    end.

Definition history (t : tags) (evs : list MessageEvent)
    (f : nat -> option outcome) : nat -> option outcome :=
  fold_left (fun f ev => deliver_to t ev f) evs f.

(** *** GanacheBridgeHost (host page) *)

(** [private source: WindowProxy | undefined] *)
Record GanacheBridgeHost := {
  hostSource : option window_ref;
}.

Definition newGanacheBridgeHost : GanacheBridgeHost :=
  {| hostSource := None |}.

(** What a call of the host does besides changing its own fields. *)
Inductive host_effect : Type :=
| EmitReady
| ProviderRequest (request : value) (messageId : value).

(** A synchronous call either returns or throws. *)
Inductive completion (A : Type) : Type :=
| Return (a : A)
| Throw (e : value).
Arguments Return {A} a.
Arguments Throw {A} e.

Definition initBridge (this : GanacheBridgeHost) (event : MessageEvent)
  : completion (GanacheBridgeHost * list host_effect) :=
  match source event with
  | SourceNull => Throw (Error "Unable to get message source")
  | SourceMessagePort _ | SourceServiceWorker _ =>
      Throw (Error "Expected message to originate from window")
  | SourceWindow w => Return ({| hostSource := Some w |}, [EmitReady])
  end.

(** [event.source !== this.source]: [this.source] is undefined or a window,
    [event.source] is null, a window, a port or a worker. *)
Definition source_differs (event : MessageEvent) (this : GanacheBridgeHost)
  : bool :=
  match source event, hostSource this with
  | SourceWindow w, Some w' => negb (Nat.eqb w w')
  | _, _ => true
  end.

Definition assertConsistentSource (this : GanacheBridgeHost)
    (event : MessageEvent) : completion unit :=
  if source_differs event this
  then Throw (Error "unexpected message source")
  else Return tt.

(** [handleRequest] up to its await: the call of the target provider. The
    function is async, so its guard rejects the promise nobody holds rather
    than throwing into [handleMessage]. *)
Definition handleRequest (this : GanacheBridgeHost) (request messageId : value)
  : list host_effect :=
  match hostSource this with
  | None => []
  | Some _ => [ProviderRequest request messageId]
  end.

Definition responseEnvelope (messageId response error : value) : value :=
  VObj [("zodiacPilotResponseToGanache", VBool true);
        ("messageId", messageId);
        ("response", response);
        ("error", error)].

(** [handleRequest] after its await: the response goes to [this.source]. *)
Definition handleRequest_resume (this : GanacheBridgeHost) (messageId : value)
    (o : outcome) : list posted :=
  match hostSource this with
  | None => []
  | Some w =>
      let '(response, error) :=
        match o with
        | Resolved v => (v, VUndefined)
        | Rejected e => (VUndefined, e)
        end in
      [{| target := w; message := responseEnvelope messageId response error |}]
  end.

Definition hostHandleMessage (this : GanacheBridgeHost) (ev : MessageEvent)
  : completion (GanacheBridgeHost * list host_effect) :=
  if nullish (data ev)
  then Throw (TypeError "Cannot destructure property of ev.data")
  else if truthy (get (data ev) "zodiacPilotGanacheInit")
  then initBridge this ev
  else if truthy (get (data ev) "zodiacPilotRequestFromGanache")
  then
    match assertConsistentSource this ev with
    | Throw e => Throw e
    | Return _ =>
        Return (this, handleRequest this (get (data ev) "request")
                        (get (data ev) "messageId"))
    end
  else Return (this, []).

(** *** The iframe's request listener (setupFork) *)

(** The listener up to its await: the request it hands to the embedded
    simulator together with the message id it will answer with, [None] when
    the envelope is not a request. [top] is [window.top]. *)
Definition setupFork_listener (top : option window_ref) (ev : MessageEvent)
  : completion (option (value * value)) :=
  if nullish (data ev)
  then Throw (TypeError "Cannot destructure property of ev.data")
  else if truthy (get (data ev) "zodiacPilotGanacheRequest")
  then
    match top with
    | None => Throw (Error "Must run inside iframe")
    | Some _ => Return (Some (get (data ev) "request", get (data ev) "messageId"))
    end
  else Return None.

Definition ganacheResponseEnvelope (messageId response : value) : value :=
  VObj [("zodiacPilotGanacheResponse", VBool true);
        ("messageId", messageId);
        ("response", response)].

(** The listener after [await provider.request(request)]: a rejection leaves
    the async listener through the await, nothing is posted. *)
Definition setupFork_listener_resume (top : window_ref) (messageId : value)
    (o : outcome) : list posted :=
  match o with
  | Resolved response =>
      [{| target := top; message := ganacheResponseEnvelope messageId response |}]
  | Rejected _ => []
  end.

(** The iframe serving the 'message' events [evs], the embedded simulator
    answering a request [r] with [ganache r]: what the iframe posts. *)
Definition iframe_serve (ganache : value -> outcome) (top : window_ref)
    (evs : list MessageEvent) : list posted :=
  flat_map
    (fun ev =>
       match setupFork_listener (Some top) ev with
       | Return (Some (request, messageId)) =>
           setupFork_listener_resume top messageId (ganache request)
       | _ => []
       end)
    evs.

(** The 'message' event a posted message arrives as. *)
Definition deliver (from : window_ref) (m : posted) : MessageEvent :=
  {| data := message m; source := SourceWindow from |}.

(** A response envelope for message id 0 that a third window posts. *)
Definition spoofedResponse : MessageEvent :=
  {| data := VObj [("zodiacPilotGanacheResponse", VBool true);
                   ("messageId", VNum 0);
                   ("response", VStr "0xspoofed")];
     source := SourceWindow 2%nat |}.


(** *** The handshake and the host's listener *)

Definition initEnvelope : value :=
  VObj [("zodiacPilotGanacheInit", VBool true)].

(** [new Eip1193Provider()], inside the iframe: the provider and what its
    constructor posts. *)
Definition newEip1193Provider (top : option window_ref)
  : completion (Provider * list posted) :=
  match top with
  | None => Throw (Error "Must run inside iframe")
  | Some parent =>
      Return (newProvider parent,
              [{| target := parent; message := initEnvelope |}])
  end.

(** [setupFork]: the provider handed to the simulator as its fork provider,
    and what has been posted when it returns; the 'message' listener it
    registers is [setupFork_listener]. *)
Definition setupFork (top : option window_ref)
  : completion (Provider * list posted) :=
  match newEip1193Provider top with
  | Throw e => Throw e
  | Return (provider, posts) =>
      match top with
      | None => Throw (Error "Must run inside iframe")
      | Some parent =>
          Return (provider,
                  posts ++ [{| target := parent; message := initEnvelope |}])
      end
  end.

(** The listener [handle] that ProvideGanache registers on the host page's
    window, called for one 'message' event: an exception of handleMessage
    leaves the host as it is. The effects are collected. *)
Definition handle (st : GanacheBridgeHost * list host_effect)
    (ev : MessageEvent) : GanacheBridgeHost * list host_effect :=
  match hostHandleMessage (fst st) ev with
  | Return (this, effects) => (this, snd st ++ effects)
  | Throw _ => st
  end.

Definition handle_all (evs : list MessageEvent) (this : GanacheBridgeHost)
  : GanacheBridgeHost * list host_effect :=
  fold_left handle evs (this, []).

(** What the host posts for the effects of one call of handleMessage, the
    wallet's provider answering a request [r] with [wallet r]. *)
Definition respond (wallet : value -> outcome) (this : GanacheBridgeHost)
    (effects : list host_effect) : list posted :=
  flat_map
    (fun effect =>
       match effect with
       | EmitReady => []
       | ProviderRequest request messageId =>
           handleRequest_resume this messageId (wallet request)
       end)
    effects.

(** The host page serving the 'message' events [evs], the provider
    answering each request before the next event arrives: the host
    afterwards and what it has posted. *)
Definition host_serve (wallet : value -> outcome) (evs : list MessageEvent)
    (this : GanacheBridgeHost) : GanacheBridgeHost * list posted :=
  fold_left
    (fun st ev =>
       match hostHandleMessage (fst st) ev with
       | Return (this', effects) =>
           (this', snd st ++ respond wallet this' effects)
       | Throw _ => st
       end)
    evs (this, []).

(** Does the envelope carry the handshake tag? *)
Definition shakes_hands (ev : MessageEvent) : bool :=
  negb (nullish (data ev)) && truthy (get (data ev) "zodiacPilotGanacheInit").

Definition handshake_from_window (ev : MessageEvent) : bool :=
  shakes_hands ev &&
  match source ev with
  | SourceWindow _ => true
  | _ => false
  end.

(** What the requester makes of the wallet's answer. *)
Definition forwarded (o : outcome) : outcome :=
  match o with
  | Resolved v => Resolved v
  | Rejected e => if truthy e then Rejected e else Resolved VUndefined
  end.

Definition answerEnvelope (messageId : value) (o : outcome) : value :=
  match o with
  | Resolved v => responseEnvelope messageId v VUndefined
  | Rejected e => responseEnvelope messageId VUndefined e
  end.

End Bridge.

(** ** Async functions on an event loop

    An async method is a tree of its steps; the loop keeps the object's
    fields, the promises of the calls in flight, the functions suspended at
    an await, the queue of continuations ready to run, the operations asked
    of the environment and the timers set. The environment moves the loop by
    invoking a method, answering an operation or firing a timer; each such
    job runs until the queue is empty. *)
Module Async.

Definition promise_ref := nat.

Section Loop.
(** [Fields]: the fields of the object the async methods belong to;
    [E]: the asynchronous operations of its environment (network calls,
    calls of other providers), each answered by the environment later. *)
Context {Fields E : Type}.

(** The body of an async function. *)
Inductive async : Type :=
| Ret (v : value)
| Throw (e : value)
| Get (k : Fields -> async)
| Modify (f : Fields -> Fields) (k : async)
| AwaitExt (op : E) (k : outcome -> async)
| Start (body : async) (k : promise_ref -> async)
| AwaitPromise (p : option promise_ref) (k : outcome -> async)
| SetTimeout (callback : async) (k : async).

(** [await x]: the value of a fulfilled promise, the exception of a
    rejected one. *)
Definition unwrap (k : value -> async) (o : outcome) : async :=
  match o with
  | Resolved v => k v
  | Rejected e => Throw e
  end.

Inductive wait : Type :=
| OnExt (call : nat)
| OnPromise (p : promise_ref).

(** A suspended async function: what it awaits, how it goes on, and the
    promise its caller holds. *)
Record task := {
  awaiting : wait;
  cont : outcome -> async;
  own : promise_ref;
}.

Record loop := {
  this : Fields;
  promises : list promise_state;
  blocked : list task;
  microtasks : list (async * promise_ref);
  calls : list E;
  timers : list (option async);
}.

Definition set_this (s : Fields) (l : loop) : loop :=
  {| this := s; promises := promises l; blocked := blocked l;
     microtasks := microtasks l; calls := calls l; timers := timers l |}.

Definition waits_on (p : promise_ref) (t : task) : bool :=
  match awaiting t with
  | OnPromise q => Nat.eqb p q
  | OnExt _ => false
  end.

Definition waits_on_call (c : nat) (t : task) : bool :=
  match awaiting t with
  | OnExt d => Nat.eqb c d
  | OnPromise _ => false
  end.

(** Settling promise [p]: every function awaiting it is queued. *)
Definition settle (p : promise_ref) (o : outcome) (l : loop) : loop :=
  {| this := this l;
     promises := <[p := Settled o]> (promises l);
     blocked := List.filter (fun t => negb (waits_on p t)) (blocked l);
     microtasks := microtasks l ++
       map (fun t => (cont t o, own t))
           (List.filter (waits_on p) (blocked l));
     calls := calls l;
     timers := timers l |}.

(** Run a function body up to its next await. *)
Fixpoint exec (a : async) (self : promise_ref) (l : loop) : loop :=
  match a with
  | Ret v => settle self (Resolved v) l
  | Throw e => settle self (Rejected e) l
  | Get k => exec (k (this l)) self l
  | Modify f k => exec k self (set_this (f (this l)) l)
  | AwaitExt op k =>
      {| this := this l; promises := promises l;
         blocked := blocked l ++
           [{| awaiting := OnExt (length (calls l)); cont := k; own := self |}];
         microtasks := microtasks l;
         calls := calls l ++ [op];
         timers := timers l |}
  | Start body k =>
      let p := length (promises l) in
      let l1 :=
        {| this := this l; promises := promises l ++ [Pending];
           blocked := blocked l; microtasks := microtasks l;
           calls := calls l; timers := timers l |} in
      exec (k p) self (exec body p l1)
  | AwaitPromise None k =>
      {| this := this l; promises := promises l; blocked := blocked l;
         microtasks := microtasks l ++ [(k (Resolved VUndefined), self)];
         calls := calls l; timers := timers l |}
  | AwaitPromise (Some p) k =>
      match promises l !! p with
      | Some (Settled o) =>
          {| this := this l; promises := promises l; blocked := blocked l;
             microtasks := microtasks l ++ [(k o, self)];
             calls := calls l; timers := timers l |}
      | _ =>
          {| this := this l; promises := promises l;
             blocked := blocked l ++
               [{| awaiting := OnPromise p; cont := k; own := self |}];
             microtasks := microtasks l;
             calls := calls l; timers := timers l |}
      end
  | SetTimeout callback k =>
      exec k self
        {| this := this l; promises := promises l; blocked := blocked l;
           microtasks := microtasks l; calls := calls l;
           timers := timers l ++ [Some callback] |}
  end.

(** Run the queued continuations until none is left. *)
Fixpoint drain (fuel : nat) (l : loop) : option loop :=
  match microtasks l with
  | [] => Some l
  | (a, self) :: rest =>
      match fuel with
      | O => None
      | S fuel' =>
          drain fuel'
            (exec a self
               {| this := this l; promises := promises l;
                  blocked := blocked l; microtasks := rest;
                  calls := calls l; timers := timers l |})
      end
  end.

(** A caller outside invokes an async method: a job of its own. *)
Definition invoke (fuel : nat) (body : async) (l : loop)
  : option (promise_ref * loop) :=
  let p := length (promises l) in
  match drain fuel
          (exec body p
             {| this := this l; promises := promises l ++ [Pending];
                blocked := blocked l; microtasks := microtasks l;
                calls := calls l; timers := timers l |}) with
  | Some l' => Some (p, l')
  | None => None
  end.

(** The environment answers the external call number [c]. *)
Definition reply (fuel : nat) (c : nat) (o : outcome) (l : loop)
  : option loop :=
  drain fuel
    {| this := this l; promises := promises l;
       blocked := List.filter (fun t => negb (waits_on_call c t)) (blocked l);
       microtasks := microtasks l ++
         map (fun t => (cont t o, own t))
             (List.filter (waits_on_call c) (blocked l));
       calls := calls l; timers := timers l |}.

(** The timer number [i] fires. *)
Definition fire (fuel : nat) (i : nat) (l : loop) : option loop :=
  match timers l !! i with
  | Some (Some callback) =>
      match invoke fuel callback
              {| this := this l; promises := promises l;
                 blocked := blocked l; microtasks := microtasks l;
                 calls := calls l; timers := <[i := None]> (timers l) |} with
      | Some (_, l') => Some l'
      | None => None
      end
  | _ => Some l
  end.

(** Several invocations, one job after the other. *)
Fixpoint invoke_each (fuel : nat) (bodies : list async) (l : loop)
  : option (list promise_ref * loop) :=
  match bodies with
  | [] => Some ([], l)
  | body :: rest =>
      match invoke fuel body l with
      | None => None
      | Some (p, l') =>
          match invoke_each fuel rest l' with
          | None => None
          | Some (ps, l'') => Some (p :: ps, l'')
          end
      end
  end.

(** The environment answers the calls [first], [first + 1], ... one
    after the other. *)
Fixpoint answer_in_order (fuel : nat) (first : nat) (answers : list outcome)
    (l : loop) : option loop :=
  match answers with
  | [] => Some l
  | o :: rest =>
      match reply fuel first o l with
      | None => None
      | Some l' => answer_in_order fuel (S first) rest l'
      end
  end.

(** Between two jobs: no continuation is queued, and the suspended
    functions wait for operations that have been asked and for promises
    that have been made. *)
Definition quiescent (l : loop) : Prop :=
  microtasks l = [] /\
  Forall (fun t =>
            match awaiting t with
            | OnExt c => (c < length (calls l))%nat
            | OnPromise p => (p < length (promises l))%nat
            end)
         (blocked l).

End Loop.
Arguments async : clear implicits.
Arguments task : clear implicits.
Arguments loop : clear implicits.

End Async.

(** ** Shared types *)
Module Types.

(** [JsonRpcRequest] *)
Record JsonRpcRequest := {
  method : string;
  params : option (list value);
}.

End Types.

(** ** The Tenderly fork backend (TenderlyProvider) *)
Module Tenderly.
Import Async Types.

(** The asynchronous operations TenderlyProvider awaits: the live chain
    provider it wraps, the JsonRpcProvider of a fork, and the fork control
    API at [tenderlyForkApi] (each fetch taken together with reading its
    JSON body). *)
Inductive ext : Type :=
| ProviderRequest (request : JsonRpcRequest)
| ForkSend (provider : value) (method : string) (params : list value)
| PostFork (network_id : string) (block_number : value)
| GetFork (forkId : value)
| DeleteFork (forkId : value).

(** The fields of a TenderlyProvider. *)
Record TenderlyProvider := {
  chainId : Z;
  forkProviderPromise : option promise_ref;
  forkId : value;
  transactionIds : list (value * value);
  blockNumber : value;
}.

Definition newTenderlyProvider (chainId : Z) : TenderlyProvider :=
  {| chainId := chainId; forkProviderPromise := None; forkId := VUndefined;
     transactionIds := []; blockNumber := VUndefined |}.

Definition set_forkProviderPromise (p : option promise_ref)
    (this : TenderlyProvider) : TenderlyProvider :=
  {| chainId := chainId this; forkProviderPromise := p; forkId := forkId this;
     transactionIds := transactionIds this; blockNumber := blockNumber this |}.

Definition set_forkId (v : value) (this : TenderlyProvider) : TenderlyProvider :=
  {| chainId := chainId this; forkProviderPromise := forkProviderPromise this;
     forkId := v; transactionIds := transactionIds this;
     blockNumber := blockNumber this |}.

Definition set_blockNumber (v : value) (this : TenderlyProvider)
  : TenderlyProvider :=
  {| chainId := chainId this; forkProviderPromise := forkProviderPromise this;
     forkId := forkId this; transactionIds := transactionIds this;
     blockNumber := v |}.

Definition set_transactionIds (m : list (value * value))
    (this : TenderlyProvider) : TenderlyProvider :=
  {| chainId := chainId this; forkProviderPromise := forkProviderPromise this;
     forkId := forkId this; transactionIds := m;
     blockNumber := blockNumber this |}.

(** [n.toString(16)] of an integer Number *)
Definition toString16 (n : Z) : string :=
  match n with
  | Z0 => "0"
  | Zpos p => HexString.Raw.of_pos p ""
  | Zneg p => String "-" (HexString.Raw.of_pos p "")
  end.

(** The decimal digits of an integer. *)
Definition digits10 (n : Z) : string :=
  DecimalString.NilZero.string_of_int (Z.to_int n).

(** The Number nearest to a positive integer: 53 significant bits, a tie
    going to the even significand. An integer below 2^53 is a Number. *)
Definition nearestNumber (x : Z) : Z :=
  let excess := Z.log2 x - 52 in
  if excess <=? 0 then x
  else
    let q := Z.shiftr x excess in
    let r := x - Z.shiftl q excess in
    let half := Z.shiftl 1 (excess - 1) in
    let q' := if (half <? r) || ((r =? half) && Z.odd q) then q + 1 else q in
    Z.shiftl q' excess.

(** Number::toString picks the decimal with the fewest significant digits
    whose Number is [x], and of several the one closest to [x], the even
    one on a tie. Here the weight 10^e of the last significant digit goes
    down from [e], and [lo] and [hi] are the multiples of it around [x]. *)
Fixpoint shortest (x : Z) (e : nat) : Z :=
  match e with
  | O => x
  | S e' =>
      let p := 10 ^ Z.of_nat e in
      let lo := x / p * p in
      let hi := lo + p in
      match nearestNumber lo =? x, nearestNumber hi =? x with
      | true, true =>
          if x - lo <? hi - x then lo
          else if hi - x <? x - lo then hi
          else if Z.even (lo / p) then lo else hi
      | true, false => lo
      | false, true => hi
      | false, false => shortest x e'
      end
  end.

Fixpoint strip_trailing_zeros (digits : string) : string :=
  match digits with
  | EmptyString => EmptyString
  | String c rest =>
      match strip_trailing_zeros rest with
      | EmptyString => if Ascii.eqb c "0" then EmptyString else String c EmptyString
      | significant => String c significant
      end
  end.

(** Number::toString(x), radix 10, of a positive integer: its digits when
    there are at most 21 of them, which are those of [shortest]; beyond
    that the significant digits, a point after the first when there are
    more, and the exponent. *)
Definition numberToString (x : Z) : string :=
  let x := nearestNumber x in
  let digits := digits10 (shortest x (String.length (digits10 x) - 1)) in
  let n := String.length digits in
  if (n <=? 21)%nat then digits
  else
    let exponent := "e+" +:+ digits10 (Z.of_nat n - 1) in
    match strip_trailing_zeros digits with
    | String d EmptyString => String d exponent
    | String d more => String d ("." +:+ more +:+ exponent)
    | EmptyString => exponent
    end.

(** [n.toString()] of an integer Number *)
Definition toString10 (n : Z) : string :=
  match n with
  | Z0 => "0"
  | Zpos _ => numberToString n
  | Zneg p => "-" +:+ numberToString (Zpos p)
  end.

(** [new JsonRpcProvider(`https://rpc.tenderly.co/fork/${forkId}`)] *)
Definition JsonRpcProvider (forkId : value) : value :=
  VObj [("fork", forkId)].

(** [v += 2], for the truthy values it is applied to (a number in every
    run where the control API sends one). *)
Definition plus2 (v : value) : value :=
  match v with
  | VNum n => VNum (n + 2)
  | VBool b => VNum ((if b then 1 else 0) + 2)
  | VNull => VNum 2
  | VUndefined => VUndefined
  | VStr s => VStr (s +:+ "2")
  | VObj _ => VStr "[object Object]2"
  end.

Abbreviation TenderlyAsync := (async TenderlyProvider ext).

(** [createFork] after the POST to the fork API. *)
Definition afterPostFork : outcome -> TenderlyAsync :=
  unwrap (fun json =>
    if nullish json || nullish (get json "simulation_fork")
    then Throw (TypeError "Cannot read properties of undefined")
    else
      Modify (set_forkId (get (get json "simulation_fork") "id")) (
      Modify (set_blockNumber (get (get json "simulation_fork") "block_number")) (
      Modify (set_transactionIds []) (
      Get (fun this => Ret (JsonRpcProvider (forkId this))))))).

Definition createFork (networkId : Z) (blockNumber : value) : TenderlyAsync :=
  AwaitExt (PostFork (toString10 networkId) blockNumber) afterPostFork.

(** [fetchForkInfo] after the GET of the fork. *)
Definition afterGetFork : outcome -> TenderlyAsync :=
  unwrap (fun json =>
    if nullish json
    then Throw (TypeError "Cannot read properties of undefined")
    else Ret (get json "simulation_fork")).

(** [fetchForkInfo] after [await this.forkProviderPromise]. *)
Definition fetchForkInfo_resume : outcome -> TenderlyAsync :=
  unwrap (fun _ =>
    Get (fun this =>
    if negb (truthy (forkId this))
    then Throw (Error "No Tenderly fork available")
    else AwaitExt (GetFork (forkId this)) afterGetFork)).

Definition fetchForkInfo : TenderlyAsync :=
  Get (fun this => AwaitPromise (forkProviderPromise this) fetchForkInfo_resume).

(** [deleteFork] after [await this.forkProviderPromise]. *)
Definition deleteFork_resume : outcome -> TenderlyAsync :=
  unwrap (fun _ =>
    Get (fun this =>
    if negb (truthy (forkId this))
    then Ret VUndefined
    else
      let forkId := forkId this in
      Modify (set_forkId VUndefined) (
      Modify (set_forkProviderPromise None) (
      Modify (set_blockNumber VUndefined) (
      AwaitExt (DeleteFork forkId) (unwrap (fun _ => Ret VUndefined))))))).

Definition deleteFork : TenderlyAsync :=
  Get (fun this => AwaitPromise (forkProviderPromise this) deleteFork_resume).

Definition refork : TenderlyAsync :=
  Start deleteFork (fun _ =>
  Get (fun this =>
  Start (createFork (chainId this) VUndefined) (fun p =>
  Modify (set_forkProviderPromise (Some p)) (
  Get (fun this =>
  AwaitPromise (forkProviderPromise this) (unwrap Ret)))))).

(** Key equality of a Map, for the primitive keys that occur. *)
Definition same_key (a b : value) : bool :=
  match a, b with
  | VUndefined, VUndefined | VNull, VNull => true
  | VBool x, VBool y => Bool.eqb x y
  | VNum x, VNum y => x =? y
  | VStr x, VStr y => String.eqb x y
  | _, _ => false
  end.

(** [transactionIds.set(key, v)] *)
Fixpoint map_set (key v : value) (m : list (value * value))
  : list (value * value) :=
  match m with
  | [] => [(key, v)]
  | (k, old) :: rest =>
      if same_key key k then (k, v) :: rest else (k, old) :: map_set key v rest
  end.

Definition spawns_fork (method : string) : bool :=
  String.eqb method "eth_sendTransaction"
  || String.eqb method "evm_snapshot"
  || String.eqb method "evm_revert".

(** [(e as any).error?.code === -32603] *)
Definition is_rate_limit_error (e : value) : bool :=
  if nullish (get e "error") then false
  else strict_eq_num (get (get e "error") "code") (-32603).

(** The timer callback after [await provider.send('evm_increaseBlocks',
    ['0x2'])]. *)
Definition afterIncreaseBlocks : outcome -> TenderlyAsync :=
  unwrap (fun _ =>
    Get (fun this =>
    if truthy (blockNumber this)
    then Modify (set_blockNumber (plus2 (blockNumber this))) (Ret VUndefined)
    else Ret VUndefined)).

(** The callback handed to [window.setTimeout(..., 1)]. *)
Definition advanceBlocks (provider : value) : TenderlyAsync :=
  AwaitExt (ForkSend provider "evm_increaseBlocks" [VStr "0x2"])
    afterIncreaseBlocks.

(** [request] after [await this.fetchForkInfo()]. *)
Definition afterForkInfo (provider result : value) : outcome -> TenderlyAsync :=
  unwrap (fun simulation_fork =>
    if nullish simulation_fork
    then Throw (TypeError "Cannot destructure property")
    else
      Modify (set_blockNumber (get simulation_fork "block_number")) (
      Get (fun this =>
      Modify (set_transactionIds
                (map_set result (get simulation_fork "global_head")
                   (transactionIds this))) (
      SetTimeout (advanceBlocks provider) (
      Ret result))))).

(** What the catch block around [provider.send] throws for the caught [e]. *)
Definition rethrown (e : value) : value :=
  if nullish e
  then TypeError "Cannot read properties of undefined"
  else if is_rate_limit_error e
  then Error "Error sending request to Tenderly"
  else e.

(** [request] after [await provider.send(...)]: the catch block, or what
    follows the try. *)
Definition afterSend (request : JsonRpcRequest) (provider : value)
  : outcome -> TenderlyAsync :=
  fun o =>
    match o with
    | Rejected e => Throw (rethrown e)
    | Resolved result =>
        if String.eqb (method request) "eth_sendTransaction"
        then
          Start fetchForkInfo (fun info =>
          AwaitPromise (Some info) (afterForkInfo provider result))
        else Ret result
    end.

(** [request.params || []] *)
Definition params_or_empty (request : JsonRpcRequest) : list value :=
  match params request with
  | Some ps => ps
  | None => []
  end.

(** [request] after [const provider = await this.forkProviderPromise]. *)
Definition withForkProvider (request : JsonRpcRequest)
  : outcome -> TenderlyAsync :=
  unwrap (fun provider =>
    if nullish provider
    then Throw (TypeError "Cannot read properties of undefined")
    else
      AwaitExt (ForkSend provider (method request) (params_or_empty request))
        (afterSend request provider)).

(** [request] from [await this.forkProviderPromise] on. *)
Definition sendToFork (request : JsonRpcRequest) : TenderlyAsync :=
  Get (fun this =>
  AwaitPromise (forkProviderPromise this) (withForkProvider request)).

Definition request (request : JsonRpcRequest) : TenderlyAsync :=
  Get (fun this =>
  if String.eqb (method request) "eth_chainId"
  then Ret (VStr ("0x" +:+ toString16 (chainId this)))
  else if String.eqb (method request) "eth_blockNumber"
          && truthy (blockNumber this)
  then Ret (blockNumber this)
  else
    match forkProviderPromise this with
    | None =>
        if spawns_fork (method request)
        then
          Start (createFork (chainId this) VUndefined) (fun p =>
          Modify (set_forkProviderPromise (Some p)) (
          sendToFork request))
        else
          AwaitExt (ProviderRequest request) (unwrap Ret)
    | Some _ => sendToFork request
    end).

Definition newLoop (chainId : Z) : loop TenderlyProvider ext :=
  {| this := newTenderlyProvider chainId; promises := []; blocked := [];
     microtasks := []; calls := []; timers := [] |}.

(** *** A provider after its first transaction

    The provider of chain 1 after one eth_sendTransaction: the control API
    created the fork "F1" at block 100, the fork returned the hash, and the
    fork's head was read at block 101; the timer of the advance is set. *)
Definition forkJson (id : string) (block_number : Z) : value :=
  VObj [("simulation_fork",
         VObj [("id", VStr id); ("block_number", VNum block_number);
               ("global_head", VStr "tx1")])].

Definition sendTransaction : JsonRpcRequest :=
  {| method := "eth_sendTransaction"; params := None |}.

Definition ethCall : JsonRpcRequest :=
  {| method := "eth_call"; params := None |}.

Definition ethBlockNumber : JsonRpcRequest :=
  {| method := "eth_blockNumber"; params := None |}.

Definition sentOne : loop TenderlyProvider ext :=
  {| this := {| chainId := 1;
                forkProviderPromise := Some 1%nat;
                forkId := VStr "F1";
                transactionIds := [(VStr "0xhash", VStr "tx1")];
                blockNumber := VNum 101 |};
     promises := [Settled (Resolved (VStr "0xhash"));
                  Settled (Resolved (JsonRpcProvider (VStr "F1")));
                  Settled (Resolved (get (forkJson "F1" 101) "simulation_fork"))];
     blocked := [];
     microtasks := [];
     calls := [PostFork "1" VUndefined;
               ForkSend (JsonRpcProvider (VStr "F1")) "eth_sendTransaction" [];
               GetFork (VStr "F1")];
     timers := [Some (advanceBlocks (JsonRpcProvider (VStr "F1")))] |}.

(** The upstream error of a rate-limited fork RPC. *)
Definition rateLimited : value :=
  VObj [("name", VStr "Error"); ("message", VStr "processing response error");
        ("error", VObj [("code", VNum (-32603))])].

(** [a] then [b] on the loop. *)
Definition andThen {A B : Type} (a : option A) (b : A -> option B) : option B :=
  match a with
  | Some x => b x
  | None => None
  end.


(** What deleteFork leaves of the fields. *)
Definition forgotten (this : TenderlyProvider) : TenderlyProvider :=
  {| chainId := chainId this; forkProviderPromise := None; forkId := VUndefined;
     transactionIds := transactionIds this; blockNumber := VUndefined |}.

(** [transactionIds.get(key)] *)
Fixpoint map_get (key : value) (m : list (value * value)) : value :=
  match m with
  | [] => VUndefined
  | (k, v) :: rest => if same_key key k then v else map_get key rest
  end.

(** *** getTransactionInfo

    The provider's [transactionInfo] map, from a transaction hash to the
    promise of its info, is read and written by getTransactionInfo only; the
    record below adds it to the fields above. *)
Record TenderlyProviderInfo := {
  fields : TenderlyProvider;
  transactionInfo : list (value * promise_ref);
}.

Definition set_transactionInfo (m : list (value * promise_ref))
    (this : TenderlyProviderInfo) : TenderlyProviderInfo :=
  {| fields := fields this; transactionInfo := m |}.

Definition set_fields (s : TenderlyProvider) (this : TenderlyProviderInfo)
  : TenderlyProviderInfo :=
  {| fields := s; transactionInfo := transactionInfo this |}.

(** [transactionInfo.get(key)], [None] for undefined *)
Fixpoint info_get (key : value) (m : list (value * promise_ref))
  : option promise_ref :=
  match m with
  | [] => None
  | (k, p) :: rest => if same_key key k then Some p else info_get key rest
  end.

(** [transactionInfo.has(key)] *)
Definition info_has (key : value) (m : list (value * promise_ref)) : bool :=
  match info_get key m with
  | Some _ => true
  | None => false
  end.

(** [transactionInfo.set(key, p)] *)
Fixpoint info_set (key : value) (p : promise_ref)
    (m : list (value * promise_ref)) : list (value * promise_ref) :=
  match m with
  | [] => [(key, p)]
  | (k, old) :: rest =>
      if same_key key k then (k, p) :: rest else (k, old) :: info_set key p rest
  end.

(** The fetch of fetchTransactionInfo, taken together with reading its JSON
    body: GET [`${tenderlyForkApi}/${forkId}/transaction/${transactionId}`]. *)
Inductive info_ext : Type :=
| GetTransaction (forkId transactionId : value).

(** A value inside a template literal *)
Definition toStringJs (v : value) : string :=
  match v with
  | VUndefined => "undefined"
  | VNull => "null"
  | VBool true => "true"
  | VBool false => "false"
  | VNum n => toString10 n
  | VStr s => s
  | VObj _ => "[object Object]"
  end.

Definition dashboardLink (forkId transactionId : value) : string :=
  "https://dashboard.tenderly.co/gnosisguild/zodiac-pilot/fork/"
  +:+ toStringJs forkId +:+ "/simulation/" +:+ toStringJs transactionId.

(** The own enumerable properties [{...v}] copies: those of an object, the
    characters of a string under their indices, none for the other
    values. *)
Definition spread (v : value) : list (string * value) :=
  match v with
  | VObj props => props
  | VStr s =>
      imap (fun i c => (toString10 (Z.of_nat i), VStr (String c EmptyString)))
           (list_ascii_of_string s)
  | _ => []
  end.

(** A property in an object literal after a spread: it replaces the
    property of that name, or comes last. *)
Fixpoint set_field (k : string) (v : value) (props : list (string * value))
  : list (string * value) :=
  match props with
  | [] => [(k, v)]
  | (k', old) :: rest =>
      if String.eqb k k' then (k', v) :: rest else (k', old) :: set_field k v rest
  end.

Abbreviation InfoAsync := (async TenderlyProviderInfo info_ext).

(** fetchTransactionInfo after its fetch. *)
Definition afterGetTransaction (transactionId : value) : outcome -> InfoAsync :=
  unwrap (fun json =>
    if nullish json
    then Throw (TypeError "Cannot read properties of undefined")
    else
      Get (fun this =>
      Ret (VObj (set_field "dashboardLink"
                   (VStr (dashboardLink (forkId (fields this)) transactionId))
                   (spread (get json "fork_transaction")))))).

Definition fetchTransactionInfo (transactionHash : value) : InfoAsync :=
  Get (fun this =>
  if negb (truthy (forkId (fields this)))
  then Throw (Error "No Tenderly fork available")
  else
    let transactionId := map_get transactionHash (transactionIds (fields this)) in
    if negb (truthy transactionId)
    then Throw (Error "Transaction not found")
    else
      AwaitExt (GetTransaction (forkId (fields this)) transactionId)
        (afterGetTransaction transactionId)).

(** getTransactionInfo from [transactionInfo.get] on. *)
Definition awaitTransactionInfo (transactionHash : value) : InfoAsync :=
  Get (fun this =>
  match info_get transactionHash (transactionInfo this) with
  | None => Throw (Error "invariant violation")
  | Some transactionInfoPromise =>
      AwaitPromise (Some transactionInfoPromise) (unwrap Ret)
  end).

Definition getTransactionInfo (transactionHash : value) : InfoAsync :=
  Get (fun this =>
  if negb (info_has transactionHash (transactionInfo this))
  then
    Start (fetchTransactionInfo transactionHash) (fun p =>
    Get (fun this =>
    Modify (set_transactionInfo
              (info_set transactionHash p (transactionInfo this))) (
    awaitTransactionInfo transactionHash)))
  else awaitTransactionInfo transactionHash).

(** What fetchTransactionInfo returns. *)
Definition transactionInfoOf (forkId transactionId json : value) : value :=
  VObj (set_field "dashboardLink" (VStr (dashboardLink forkId transactionId))
          (spread (get json "fork_transaction"))).

(** [sentOne] with the map of transaction infos, still empty. *)
Definition sentOneInfo : loop TenderlyProviderInfo info_ext :=
  {| this := {| fields := this sentOne; transactionInfo := [] |};
     promises := promises sentOne;
     blocked := []; microtasks := []; calls := []; timers := [] |}.

Definition ethChainId : JsonRpcRequest :=
  {| method := "eth_chainId"; params := None |}.

(** What the control API answers for the transaction "tx1". *)
Definition transactionJson : value :=
  VObj [("fork_transaction",
         VObj [("hash", VStr "0xhash"); ("dashboardLink", VStr "stale")])].

End Tenderly.

(** ** ethers' BigNumber (version 5, over bn.js 5), as far as formatValue
    uses it *)
Module BigNumber.

Definition is_hex_digit (c : ascii) : bool :=
  match HexString.ascii_to_digit c with
  | Some _ => true
  | None => false
  end.

Definition is_dec_digit (c : ascii) : bool :=
  match HexString.ascii_to_digit c with
  | Some d => (d <? 10)%N
  | None => false
  end.

Fixpoint all_chars (p : ascii -> bool) (s : string) : bool :=
  match s with
  | EmptyString => true
  | String c rest => p c && all_chars p rest
  end.

(** [value.substring(n)] *)
Fixpoint substring_from (n : nat) (value : string) : string :=
  match n, value with
  | S n', String _ rest => substring_from n' rest
  | _, _ => value
  end.

(** [toHex]'s loop: drop leading "00" pairs while more than one pair is
    left. *)
Fixpoint trim00 (digits : string) : string :=
  match digits with
  | String c1 (String c2 (String _ _ as rest)) =>
      if Ascii.eqb c1 "0" && Ascii.eqb c2 "0" then trim00 rest else digits
  | _ => digits
  end.

(** [toHex] makes the number of digits even:
    [if (value.length % 2) { value = "0x0" + value.substring(2) }]. *)
Definition padEven (digits : string) : string :=
  if Nat.odd (String.length digits) then String "0" digits else digits.

(** [toHex] of a string without a sign, from what follows "0x" on: "0x"
    alone is zero, an odd number of digits gets a leading zero, then
    [trim00]. *)
Definition toHexDigits (digits : string) : string :=
  match digits with
  | EmptyString => "0x00"
  | _ => "0x" +:+ trim00 (padEven digits)
  end.

(** What follows the prefix "0x", which [toHex] puts before a string that
    does not start with it: [if (value.substring(0, 2) !== "0x") { value =
    "0x" + value }]. *)
Definition digitsOf (value : string) : string :=
  match value with
  | String c0 (String c1 digits) =>
      if Ascii.eqb c0 "0" && Ascii.eqb c1 "x" then digits else value
  | _ => value
  end.

(** [value[0] === c] *)
Definition head_is (c : ascii) (value : string) : bool :=
  match value with
  | String c' _ => Ascii.eqb c' c
  | EmptyString => false
  end.

(** [toHex(value)] of a string: a minus sign is taken off and put back
    before the result, except before "0x00". [None]: "invalid hex" for a
    second minus sign. *)
Definition toHex (value : string) : option string :=
  if head_is "-" value
  then
    let value := substring_from 1 value in
    if head_is "-" value then None
    else
      let value := toHexDigits (digitsOf value) in
      if String.eqb value "0x00" then Some value else Some ("-" +:+ value)
  else Some (toHexDigits (digitsOf value)).

(** The number of a string of decimal digits. *)
Definition dec_value (s : string) : N :=
  fold_left
    (fun acc c =>
       match HexString.ascii_to_digit c with
       | Some d => (10 * acc + d)%N
       | None => acc
       end)
    (list_ascii_of_string s) 0%N.

(** [value] without its minus sign, if it has one. *)
Definition unsigned (value : string) : string :=
  if head_is "-" value then substring_from 1 value else value.

(** [new BN(value)] of a decimal numeral with or without a minus sign. *)
Definition BN_decimal (value : string) : Z :=
  if head_is "-" value then - Z.of_N (dec_value (substring_from 1 value))
  else Z.of_N (dec_value value).

(** [bn.toString(16)] *)
Definition BN_toString16 (n : Z) : string :=
  match n with
  | Z0 => "0"
  | Zpos p => HexString.Raw.of_pos p ""
  | Zneg p => String "-" (HexString.Raw.of_pos p "")
  end.

(** [value.match(/^-?0x[0-9a-f]+$/i)] *)
Definition is_hex_numeral (value : string) : bool :=
  match unsigned value with
  | String c0 (String c1 (String _ _ as digits)) =>
      Ascii.eqb c0 "0" && (Ascii.eqb c1 "x" || Ascii.eqb c1 "X")
      && all_chars is_hex_digit digits
  | _ => false
  end.

(** [value.match(/^-?[0-9]+$/)] *)
Definition is_dec_numeral (value : string) : bool :=
  match unsigned value with
  | EmptyString => false
  | String _ _ as digits => all_chars is_dec_digit digits
  end.

(** A BigNumber is its [_hex] field. *)
Definition BigNumber := string.

(** [BigNumber.from(value)] for a string: a hexadecimal numeral or a
    decimal numeral, with or without a minus sign. [None] when the library
    throws "invalid BigNumber string". *)
Definition from (value : string) : option BigNumber :=
  if is_hex_numeral value then toHex value
  else if is_dec_numeral value then toHex (BN_toString16 (BN_decimal value))
  else None.

(** [new BN(digits, 16)]; [None] when bn.js stops at a character that is
    no hexadecimal digit ("Invalid character"), as the X left in the
    [_hex] of a numeral spelt with the prefix "0X" is. *)
Definition BN_hex (digits : string) : option N :=
  if all_chars is_hex_digit digits
  then Some (HexString.Raw.to_N digits 0)
  else None.

(** [toBN(bn)]: [new BN("-" + hex.substring(3), 16)] for a [_hex] with a
    minus sign, [new BN(hex.substring(2), 16)] for the others. *)
Definition toBN (bn : BigNumber) : option Z :=
  if head_is "-" bn
  then option_map (fun n => - Z.of_N n) (BN_hex (substring_from 3 bn))
  else option_map Z.of_N (BN_hex (substring_from 2 bn)).

(** [bn.isZero()], which is [toBN(bn).isZero()] *)
Definition isZero (bn : BigNumber) : option bool :=
  option_map (Z.eqb 0) (toBN bn).

Definition toHexString (bn : BigNumber) : string := bn.

End BigNumber.

(** ** The transactions drawer and submitTransactions *)
Module Drawer.
Import Async Types.

(** [MetaTransaction] of the multisend library *)
Record MetaTransaction := {
  to : string;
  value : string;
  data : string;
  operation : option Z;
}.

(** The longest suffix that does not start with the digit 0. *)
Fixpoint strip_zeros (s : string) : string :=
  match s with
  | String c rest => if Ascii.eqb c "0" then strip_zeros rest else s
  | EmptyString => s
  end.

(** [s.replace(/^0x(0+)/, '0x')] *)
Definition replace_0x_zeros (s : string) : string :=
  match s with
  | String c0 (String c1 (String c2 rest)) =>
      if Ascii.eqb c0 "0" && Ascii.eqb c1 "x" && Ascii.eqb c2 "0"
      then "0x" +:+ strip_zeros rest
      else s
  | _ => s
  end.

(** [formatValue]: Tenderly wants no leading zeros in [value]. [None] when
    [BigNumber.from] or [isZero] throws. *)
Definition formatValue (value : string) : option string :=
  match BigNumber.from value with
  | None => None
  | Some valueBN =>
      match BigNumber.isZero valueBN with
      | None => None
      | Some true => Some "0x0"
      | Some false => Some (replace_0x_zeros (BigNumber.toHexString valueBN))
      end
  end.

(** The canonical digits of a hexadecimal numeral, as the design document
    words it: the digits without leading zeros, a single 0 for zero. *)
Definition canonical (digits : string) : string :=
  match strip_zeros digits with
  | EmptyString => "0"
  | s => s
  end.

(** The address of the MultiSend contract both call sites pass to
    [encodeMulti]. *)
Definition MULTI_SEND_ADDRESS : string :=
  "0xA238CBeb142c10Ef7Ad8442C6D1f9E89e07e7761".

(** The actions the drawer and ProvideProvider dispatch to the transactions
    store. *)
Inductive Action (TransactionInput : Type) : Type :=
| APPEND_RAW_TRANSACTION (input : TransactionInput)
| DECODE_TRANSACTION (input : TransactionInput)
| CONFIRM_TRANSACTION (id : string) (transactionHash : Js.value)
| SUBMIT_TRANSACTIONS (batchTransactionHash : Js.value)
| REMOVE_TRANSACTION (id : string).
Arguments APPEND_RAW_TRANSACTION {TransactionInput} input.
Arguments DECODE_TRANSACTION {TransactionInput} input.
Arguments CONFIRM_TRANSACTION {TransactionInput} id transactionHash.
Arguments SUBMIT_TRANSACTIONS {TransactionInput} batchTransactionHash.
Arguments REMOVE_TRANSACTION {TransactionInput} id.

(** What the drawer awaits of [provider]. *)
Inductive provider_call : Type :=
| Refork
| Request (request : JsonRpcRequest).

Section WithMultisend.
(** The multisend library's transaction inputs with their encoders, and
    the transactions store of [../state] with its reducer: none of them is
    part of the sources at hand. *)
Variable TransactionInput : Type.
Variable input_id : TransactionInput -> string.
Variable encodeSingle : TransactionInput -> MetaTransaction.
Variable encodeMulti : list MetaTransaction -> string -> MetaTransaction.
Variable TransactionState : Type.
Variable input : TransactionState -> TransactionInput.
Variable reducer :
  list TransactionState -> Action TransactionInput -> list TransactionState.

(** The batch of submitTransactions and of copyTransactionData:
    [metaTransactions.length === 1 ? metaTransactions[0]
     : encodeMulti(metaTransactions, '0xA238...')] *)
Definition batchTransaction (transactions : list TransactionState)
  : MetaTransaction :=
  let metaTransactions := map (fun tx => encodeSingle (input tx)) transactions in
  match metaTransactions with
  | [single] => single
  | _ => encodeMulti metaTransactions MULTI_SEND_ADDRESS
  end.

(** The request of one replayed transaction, [None] when [formatValue]
    throws. *)
Definition rerunRequest (avatarAddress : string) (encoded : MetaTransaction)
  : option JsonRpcRequest :=
  match formatValue (value encoded) with
  | None => None
  | Some v =>
      Some {| method := "eth_sendTransaction";
              params := Some [VObj [("to", VStr (to encoded));
                                    ("data", VStr (data encoded));
                                    ("value", VStr v);
                                    ("from", VStr avatarAddress)]] |}
  end.

Abbreviation DrawerAsync := (async (list TransactionState) provider_call).

(** The for loop of reforkAndRerun from index [i] on; [transactions] is
    what is left of [newTransactions]. *)
Fixpoint rerun (avatarAddress : string) (transactions : list TransactionState)
  : DrawerAsync :=
  match transactions with
  | [] => Ret VUndefined
  | transaction :: rest =>
      match rerunRequest avatarAddress (encodeSingle (input transaction)) with
      | None => Throw (Error "invalid BigNumber string")
      | Some request =>
          AwaitExt (Request request) (unwrap (fun _ => rerun avatarAddress rest))
      end
  end.

(** [reforkAndRerun], closed over the [allTransactions] and
    [newTransactions] of the render it was created in; the store is the
    state the dispatch acts on. *)
Definition reforkAndRerun (allTransactions newTransactions : list TransactionState)
    (providerIsForkProvider : bool) (avatarAddress : string) : DrawerAsync :=
  match allTransactions with
  | [] => Throw (TypeError "Cannot read properties of undefined (reading 'input')")
  | first :: _ =>
      Modify (fun store => reducer store (REMOVE_TRANSACTION (input_id (input first)))) (
      if negb providerIsForkProvider
      then Throw (Error "This is only supported when using ForkProvider")
      else
        AwaitExt Refork (unwrap (fun _ =>
        rerun avatarAddress newTransactions)))
  end.

(** The replay suspended at the await of its call number [n], with
    [remaining] still to be sent. *)
Definition waiting (avatarAddress : string) (store : list TransactionState)
    (n : nat) (issued : list provider_call)
    (remaining : list TransactionState)
  : loop (list TransactionState) provider_call :=
  {| this := store; promises := [Pending];
     blocked := [{| awaiting := OnExt n;
                    cont := unwrap (fun _ => rerun avatarAddress remaining);
                    own := 0%nat |}];
     microtasks := []; calls := issued; timers := [] |}.

(** reforkAndRerun has returned. *)
Definition finished (store : list TransactionState)
    (issued : list provider_call)
  : loop (list TransactionState) provider_call :=
  {| this := store; promises := [Settled (Resolved VUndefined)];
     blocked := []; microtasks := []; calls := issued; timers := [] |}.

(** [sends] are the requests of [transactions], one each, in order. *)
Definition sends_of (avatarAddress : string)
    (transactions : list TransactionState) (sends : list JsonRpcRequest)
  : Prop :=
  Forall2 (fun tx r =>
             rerunRequest avatarAddress (encodeSingle (input tx)) = Some r)
          transactions sends.

(** The page before the button is pressed: the store holds [store],
    nothing is in flight. *)
Definition idle (store : list TransactionState)
  : loop (list TransactionState) provider_call :=
  {| this := store; promises := []; blocked := []; microtasks := [];
     calls := []; timers := [] |}.

End WithMultisend.

(** A small instance of what the section leaves open, to run the drawer on:
    an input is its id, a transaction carries its input and the hash of the
    batch it was submitted in, and the store's REMOVE_TRANSACTION cuts the
    list off at the entry with that id. *)
Module Example.

Record TransactionState := {
  input : string;
  batchTransactionHash : option string;
}.

Definition encodeSingle (input : string) : MetaTransaction :=
  {| to := "0x00000000000000000000000000000000000000aa";
     value := "0x00";
     data := input;
     operation := None |}.

Definition encodeMulti (metaTransactions : list MetaTransaction)
    (multiSendContractAddress : string) : MetaTransaction :=
  {| to := multiSendContractAddress;
     value := "0x00";
     data := String.concat "" (map data metaTransactions);
     operation := Some 1 |}.

Fixpoint upTo (id : string) (state : list TransactionState)
  : list TransactionState :=
  match state with
  | [] => []
  | item :: rest =>
      if String.eqb (input item) id then [] else item :: upTo id rest
  end.

Definition reducer (state : list TransactionState) (action : Action string)
  : list TransactionState :=
  match action with
  | REMOVE_TRANSACTION id => upTo id state
  | _ => state
  end.

Definition submitted : TransactionState :=
  {| input := "0xa1"; batchTransactionHash := Some "0xbatch" |}.

Definition recorded : TransactionState :=
  {| input := "0xb2"; batchTransactionHash := None |}.

Definition reforkAndRerun (allTransactions newTransactions : list TransactionState)
  : async (list TransactionState) provider_call :=
  Drawer.reforkAndRerun string (fun i => i) encodeSingle TransactionState input
    reducer allTransactions newTransactions true
    "0x00000000000000000000000000000000000000bb".

End Example.


(** reforkAndRerun has thrown [e]. *)
Definition failed_with {TransactionState : Type} (e : Js.value)
    (store : list TransactionState) (issued : list provider_call)
  : loop (list TransactionState) provider_call :=
  {| this := store; promises := [Settled (Rejected e)];
     blocked := []; microtasks := []; calls := issued; timers := [] |}.

(** What submitTransactions awaits: [wrappingProvider.request]. *)
Inductive submit_call : Type :=
| WrappingProviderRequest (method : string) (params : list MetaTransaction).

Section Submit.
Variable TransactionInput : Type.
Variable encodeSingle : TransactionInput -> MetaTransaction.
Variable encodeMulti : list MetaTransaction -> string -> MetaTransaction.
Variable TransactionState : Type.
Variable input : TransactionState -> TransactionInput.
Variable reducer :
  list TransactionState -> Action TransactionInput -> list TransactionState.

(** [submitTransactions] of ProvideProvider, closed over the
    [transactions] of the render it was created in. *)
Definition submitTransactions (transactions : list TransactionState)
  : async (list TransactionState) submit_call :=
  AwaitExt
    (WrappingProviderRequest "eth_sendTransaction"
       [batchTransaction TransactionInput encodeSingle encodeMulti
          TransactionState input transactions])
    (unwrap (fun batchTransactionHash =>
       Modify (fun store => reducer store (SUBMIT_TRANSACTIONS batchTransactionHash)) (
       Ret batchTransactionHash))).

End Submit.

(** An encoder that takes the value of the call from the input, to replay
    a transaction whose value is no numeral. *)
Definition encodeValue (input : string) : MetaTransaction :=
  {| to := "0x00000000000000000000000000000000000000aa";
     value := input;
     data := "0x";
     operation := None |}.

(** *** The hook ProvideProvider hands to its ForkProvider *)

Definition ZERO_ADDRESS : string :=
  "0x0000000000000000000000000000000000000000".

(** [a || b] *)
Definition or_else (a b : Js.value) : Js.value :=
  if truthy a then a else b.

(** The transaction onBeforeTransactionSend hands to decodeSingle:
    [{ to: txData.to || ZERO_ADDRESS, value: `${txData.value || 0}`,
       data: txData.data || '' }] *)
Definition transactionOf (txData : Js.value) : Js.value :=
  VObj [("to", or_else (get txData "to") (VStr ZERO_ADDRESS));
        ("value",
         VStr (Tenderly.toStringJs (or_else (get txData "value") (VNum 0))));
        ("data", or_else (get txData "data") (VStr ""))].

(** What the hook awaits: decodeSingle of the multisend library, without
    or with a fetchAbi callback. *)
Inductive hook_call : Type :=
| DecodeSingle (transaction : Js.value) (fetchesAbi : bool) (id : Js.value).

Section Hooks.
Variable TransactionState : Type.
Variable reducer :
  list TransactionState -> Action Js.value -> list TransactionState.

(** [onBeforeTransactionSend(txId, txData)], closed over the [chainId] of
    the render it was created in. *)
Definition onBeforeTransactionSend (chainId : Js.value) (txId txData : Js.value)
  : async (list TransactionState) hook_call :=
  if nullish txData
  then Throw (TypeError "Cannot read properties of undefined (reading 'to')")
  else
    AwaitExt (DecodeSingle (transactionOf txData) false txId)
      (unwrap (fun inputRaw =>
         Modify (fun store => reducer store (APPEND_RAW_TRANSACTION inputRaw)) (
         if negb (truthy chainId)
         then Throw (Error "chainId is undefined")
         else
           AwaitExt (DecodeSingle (transactionOf txData) true txId)
             (unwrap (fun input =>
                Modify (fun store => reducer store (DECODE_TRANSACTION input)) (
                Ret VUndefined)))))).

End Hooks.

(** A store that keeps the inputs it is handed, to run the hook on. *)
Definition keepInputs (store : list Js.value) (action : Action Js.value)
  : list Js.value :=
  match action with
  | APPEND_RAW_TRANSACTION input => store ++ [input]
  | DECODE_TRANSACTION input => store ++ [input]
  | _ => store
  end.

End Drawer.

(** ** Connections and their migrations *)
Module Connections.

Inductive ProviderType : Type :=
| WalletConnect
| MetaMask.

(** A stored connection; [moduleType] is missing (undefined) in the states
    stored before the field existed. *)
Record Connection := {
  id : string;
  label : string;
  chainId : Z;
  moduleAddress : string;
  avatarAddress : string;
  pilotAddress : string;
  providerType : ProviderType;
  moduleType : value;
  roleId : string;
}.

Section Migrations.
(** [KnownContracts.ROLES] of the zodiac library *)
Variable KnownContracts_ROLES : value.

Definition addModuleType (connection : Connection) : Connection :=
  {| id := id connection;
     label := label connection;
     chainId := chainId connection;
     moduleAddress := moduleAddress connection;
     avatarAddress := avatarAddress connection;
     pilotAddress := pilotAddress connection;
     providerType := providerType connection;
     moduleType := if truthy (moduleType connection)
                   then moduleType connection
                   else KnownContracts_ROLES;
     roleId := roleId connection |}.

Definition CONNECTION_STATE_MIGRATIONS : list (Connection -> Connection) :=
  [addModuleType].

(** The forEach loop of migrateConnections over a list of migrations. *)
Definition applyMigrations (migrations : list (Connection -> Connection))
    (connections : list Connection) : list Connection :=
  fold_left (fun migratedConnections migration =>
               map migration migratedConnections)
            migrations connections.

Definition migrateConnections (connections : list Connection)
  : list Connection :=
  applyMigrations CONNECTION_STATE_MIGRATIONS connections.

End Migrations.


(** *** useConnection and the routes of the app *)

(** The providers a connection can end up with. *)
Inductive Eip1193Provider : Type :=
| MetaMaskProvider
| WalletConnectProvider (connectionId : string)
| DummyProvider.

(** What useMetaMask() returns, as far as useConnection reads it. *)
Record MetaMaskHook := {
  metamaskProvider : option Eip1193Provider;
  accounts : list string;
  metamaskChainId : value;
}.

(** What useWalletConnect(connectionId) returns. *)
Record WalletConnectHook := {
  walletConnectProvider : Eip1193Provider;
  walletConnectConnected : bool;
  walletConnectChainId : value;
}.

(** What useConnection returns, and whether its effect calls
    [metamask.connect()]. *)
Record ConnectionHook := {
  connection : Connection;
  provider : Eip1193Provider;
  connected : bool;
  hookChainId : value;
  connectsMetaMask : bool;
}.

(** [(connectionId && connections.find((c) => c.id === connectionId)) ||
    connections[0]], with [connectionId = id || selectedConnectionId];
    [None] for undefined. *)
Definition selectConnection (connections : list Connection)
    (selectedConnectionId : string) (id : option string) : option Connection :=
  let connectionId :=
    match id with
    | Some i => if String.eqb i "" then selectedConnectionId else i
    | None => selectedConnectionId
    end in
  let found :=
    if String.eqb connectionId "" then None
    else List.find (fun c => String.eqb (Connections.id c) connectionId) connections in
  match found with
  | Some c => Some c
  | None => head connections
  end.

Definition isMetaMask (t : ProviderType) : bool :=
  match t with
  | MetaMask => true
  | WalletConnect => false
  end.

Definition useConnection (connections : list Connection)
    (selectedConnectionId : string) (id : option string)
    (metamask : MetaMaskHook) (useWalletConnect : string -> WalletConnectHook)
  : Bridge.completion ConnectionHook :=
  match selectConnection connections selectedConnectionId id with
  | None => Bridge.Throw (Error "connections is empty, which must never happen")
  | Some connection =>
      let walletConnect := useWalletConnect (Connections.id connection) in
      Bridge.Return
        {| connection := connection;
           provider :=
             if isMetaMask (providerType connection)
             then match metamaskProvider metamask with
                  | Some p => p
                  | None => DummyProvider
                  end
             else walletConnectProvider walletConnect;
           connected :=
             if isMetaMask (providerType connection)
             then existsb (String.eqb (pilotAddress connection)) (accounts metamask)
                  && truthy (metamaskChainId metamask)
                  && strict_eq_num (metamaskChainId metamask) (chainId connection)
             else walletConnectConnected walletConnect;
           hookChainId :=
             if isMetaMask (providerType connection)
             then metamaskChainId metamask
             else walletConnectChainId walletConnect;
           connectsMetaMask :=
             isMetaMask (providerType connection)
             && negb (truthy (metamaskChainId metamask))
             && negb (String.eqb (pilotAddress connection) "") |}
  end.

(** What Routes renders. *)
Inductive view : Type :=
| RenderNothing
| RenderSettings (url : string) (editConnectionId : string)
| RenderBrowser.

(** [Routes]: what it renders, and whether its effect calls
    [pushSettingsRoute()]. *)
Definition Routes (settingsRouteMatch : option (string * string))
    (hook : ConnectionHook) : view * bool :=
  let settingsRequired :=
    String.eqb (avatarAddress (connection hook)) ""
    || String.eqb (moduleAddress (connection hook)) ""
    || negb (connected hook) in
  match settingsRouteMatch with
  | None =>
      if settingsRequired then (RenderNothing, true) else (RenderBrowser, false)
  | Some (url, editConnectionId) =>
      (RenderSettings url editConnectionId, false)
  end.

(** A connection stored before moduleType existed, and MetaMask holding its
    pilot account on its chain. *)
Definition storedConnection : Connection :=
  {| id := "c1"; label := "dao"; chainId := 1;
     moduleAddress := "0x01"; avatarAddress := "0x02"; pilotAddress := "0x03";
     providerType := MetaMask; moduleType := VUndefined; roleId := "" |}.

Definition otherConnection : Connection :=
  {| id := "c2"; label := ""; chainId := 5;
     moduleAddress := ""; avatarAddress := ""; pilotAddress := "";
     providerType := WalletConnect; moduleType := VStr "delay"; roleId := "" |}.

Definition metamaskOnChain1 : MetaMaskHook :=
  {| metamaskProvider := Some MetaMaskProvider;
     accounts := ["0x03"%string];
     metamaskChainId := VNum 1 |}.

Definition walletConnectOf (connectionId : string) : WalletConnectHook :=
  {| walletConnectProvider := WalletConnectProvider connectionId;
     walletConnectConnected := false;
     walletConnectChainId := VNull |}.

End Connections.

(** * Properties *)

(** ** The message bridge *)
Module BridgeFacts.
Import Bridge.

Lemma listener_eqb_eq a b : listener_eqb a b = true <-> a = b.
Proof.
  unfold listener_eqb. destruct a as [ta ca pa], b as [tb cb pb]; simpl.
  rewrite !andb_true_iff, String.eqb_eq, Z.eqb_eq, Nat.eqb_eq.
  split; [intros [[-> ->] ->]; reflexivity | intros [= -> -> ->]; auto].
Qed.

Lemma listener_eqb_refl a : listener_eqb a a = true.
Proof. apply listener_eqb_eq; reflexivity. Qed.

(** Two listeners that accept the same envelope captured the same id. *)
Lemma matches_same_id l l' ev :
  matches l ev = true -> matches l' ev = true ->
  currentMessageId l = currentMessageId l'.
Proof.
  unfold matches, strict_eq_num. intros [_ H]%andb_true_iff [_ H']%andb_true_iff.
  destruct (get (data ev) "messageId"); try discriminate.
  apply Z.eqb_eq in H, H'. congruence.
Qed.

Lemma handleMessage_no_match l ev w :
  matches l ev = false -> handleMessage l ev w = w.
Proof. unfold handleMessage. intros ->. destruct (nullish _); reflexivity. Qed.

Lemma matches_not_nullish l ev : matches l ev = true -> nullish (data ev) = false.
Proof.
  unfold matches. destruct (data ev); simpl; try discriminate; reflexivity.
Qed.

Lemma fold_no_match ev ls w :
  Forall (fun l => matches l ev = false) ls ->
  fold_left (dispatch_step ev) ls w = w.
Proof.
  induction 1 as [|l ls Hl _ IH] in w |- *; simpl; [reflexivity|].
  unfold dispatch_step at 2. rewrite handleMessage_no_match by assumption.
  destruct (registered l w); apply IH.
Qed.

Section Correlation.
Variable t : tags.

Lemma request_all_spec (requests : list value) (this : Provider) (w : Window) :
  request_all t requests (this, w) =
  (seq (length (promises w)) (length requests),
   ({| messageId := messageId this + Z.of_nat (length requests);
       peer := peer this |},
    {| listeners := listeners w ++
         imap (fun j _ => {| responseTag := responseTagOf t;
                            currentMessageId := messageId this + Z.of_nat j;
                            promise := (length (promises w) + j)%nat |}) requests;
       promises := promises w ++ replicate (length requests) Pending;
       outbox := outbox w ++
         imap (fun j r => {| target := peer this;
                             message := requestEnvelope t r
                                          (messageId this + Z.of_nat j) |})
              requests |})).
Proof.
  revert this w. induction requests as [|r rest IH]; intros this w.
  - simpl. rewrite !app_nil_r, Z.add_0_r. destruct this, w; reflexivity.
  - cbn [request_all]. unfold request at 1. cbv zeta.
    rewrite IH. cbn [messageId peer listeners promises outbox length imap].
    rewrite length_app. cbn [length].
    rewrite <- !app_assoc. cbn [app seq replicate].
    rewrite Z.add_0_r, Nat.add_0_r, Nat.add_1_r.
    replace (messageId this + 1 + Z.of_nat (length rest))
      with (messageId this + Z.of_nat (S (length rest))) by lia.
    do 5 f_equal.
    + apply imap_ext. intros j x _. cbn. f_equal; lia.
    + apply imap_ext. intros j x _. cbn. do 2 f_equal. lia.
Qed.

Lemma fold_find ev ls w :
  List.NoDup (map currentMessageId ls) ->
  (forall l, In l ls -> registered l w = true) ->
  fold_left (dispatch_step ev) ls w =
  match List.find (fun l => matches l ev) ls with
  | Some l => handleMessage l ev w
  | None => w
  end.
Proof.
  revert w. induction ls as [|l ls IH]; intros w Hnd Hreg; [reflexivity|].
  cbn [map] in Hnd. apply List.NoDup_cons_iff in Hnd as [Hnotin Hnd].
  cbn [fold_left List.find]. unfold dispatch_step at 2.
  rewrite (Hreg l) by (left; reflexivity).
  destruct (matches l ev) eqn:Hm.
  - apply fold_no_match. apply List.Forall_forall. intros l' Hin.
    destruct (matches l' ev) eqn:Hm'; [|reflexivity].
    exfalso. apply Hnotin. rewrite (matches_same_id _ _ _ Hm Hm').
    apply in_map, Hin.
  - rewrite handleMessage_no_match by assumption.
    apply IH; [assumption|]. intros l' Hin. apply Hreg. right; assumption.
Qed.

Lemma dispatch_find ev w :
  List.NoDup (map currentMessageId (listeners w)) ->
  dispatch ev w =
  match List.find (fun l => matches l ev) (listeners w) with
  | Some l => handleMessage l ev w
  | None => w
  end.
Proof.
  intros Hnd. apply fold_find; [assumption|].
  intros l Hin. unfold registered. apply existsb_exists.
  exists l. split; [assumption | apply listener_eqb_refl].
Qed.

Local Abbreviation L := (requestListener t).

Lemma L_inj i j : L i = L j -> i = j.
Proof. intros [= _ H]. assumption. Qed.

Lemma removeEventListener_map a xs :
  List.NoDup xs ->
  removeEventListener (L a) (map L xs) =
  map L (List.filter (fun i => negb (Nat.eqb i a)) xs).
Proof.
  induction xs as [|x xs IH]; intros Hnd; [reflexivity|].
  apply List.NoDup_cons_iff in Hnd as [Hnotin Hnd].
  cbn [map removeEventListener List.filter].
  destruct (listener_eqb (L a) (L x)) eqn:He.
  - apply listener_eqb_eq, L_inj in He. subst x.
    rewrite Nat.eqb_refl. cbn [negb].
    clear IH. induction xs as [|y ys IH]; [reflexivity|].
    cbn [List.filter map].
    destruct (Nat.eqb y a) eqn:Hy.
    + apply Nat.eqb_eq in Hy. subst y. exfalso. apply Hnotin. left. reflexivity.
    + cbn [negb map]. f_equal. apply IH.
      * intros Hin. apply Hnotin. right. assumption.
      * apply List.NoDup_cons_iff in Hnd as [_ Hnd]. assumption.
  - destruct (Nat.eqb x a) eqn:Hx.
    + apply Nat.eqb_eq in Hx. subst x. rewrite listener_eqb_refl in He. discriminate.
    + cbn [negb map]. f_equal. apply IH, Hnd.
Qed.

Lemma issued_ext N f g w :
  (forall i, (i < N)%nat -> f i = g i) -> issued t N f w -> issued t N g w.
Proof.
  intros Hfg (Hl & Hlen & Hp). split; [|split]; [|assumption|].
  - rewrite Hl. f_equal. apply List.filter_ext_in. intros i Hi.
    apply in_seq in Hi. unfold unsettled. rewrite Hfg by lia. reflexivity.
  - intros i Hi. rewrite <- Hfg by assumption. apply Hp, Hi.
Qed.

Lemma issued_NoDup N f w :
  issued t N f w -> List.NoDup (map currentMessageId (listeners w)).
Proof.
  intros (Hl & _). rewrite Hl, List.map_map. cbn [requestListener currentMessageId].
  apply Finite.Injective_map_NoDup.
  - intros i j H. lia.
  - apply List.NoDup_filter, List.seq_NoDup.
Qed.

Lemma filter_filter {A} (p q : A -> bool) (l : list A) :
  List.filter p (List.filter q l) = List.filter (fun x => q x && p x) l.
Proof.
  induction l as [|x l IH]; [reflexivity|]. cbn [List.filter].
  destruct (q x); cbn [List.filter andb]; [destruct (p x)|]; rewrite IH; reflexivity.
Qed.

Lemma settle_length p o ps : length (settle p o ps) = length ps.
Proof.
  unfold settle. destruct (ps !! p) as [[|]|]; try reflexivity.
  apply length_insert.
Qed.

Lemma issued_dispatch N f w ev :
  issued t N f w -> issued t N (deliver_to t ev f) (dispatch ev w).
Proof.
  intros Hinv. rewrite dispatch_find by (eapply issued_NoDup; eassumption).
  destruct Hinv as (Hl & Hlen & Hp).
  destruct (List.find _ (listeners w)) as [l|] eqn:Hfind.
  - apply List.find_some in Hfind as [Hin Hm].
    rewrite Hl in Hin. apply in_map_iff in Hin as (i0 & <- & Hin).
    apply List.filter_In in Hin as [Hseq Hpend]. apply in_seq in Hseq.
    assert (Hf0 : f i0 = None) by (unfold unsettled in Hpend; destruct (f i0); [discriminate|reflexivity]).
    assert (Hother : forall i, i <> i0 -> matches (L i) ev = false).
    { intros i Hne. destruct (matches (L i) ev) eqn:Hmi; [|reflexivity].
      pose proof (matches_same_id _ _ _ Hm Hmi) as Hid. cbn in Hid. lia. }
    unfold handleMessage. rewrite (matches_not_nullish _ _ Hm), Hm.
    split; [|split]; cbn [listeners promises].
    + rewrite Hl, removeEventListener_map
        by apply List.NoDup_filter, List.seq_NoDup.
      f_equal. rewrite filter_filter. apply List.filter_ext_in. intros i _.
      unfold unsettled, deliver_to. destruct (f i) eqn:Hfi; [reflexivity|].
      destruct (Nat.eqb i i0) eqn:Hi.
      * apply Nat.eqb_eq in Hi. subst i. rewrite Hm. reflexivity.
      * apply Nat.eqb_neq in Hi. rewrite Hother by assumption. reflexivity.
    + rewrite settle_length. assumption.
    + intros i Hi. unfold settle. cbn [requestListener promise].
      rewrite (Hp i0) by lia. rewrite Hf0. cbn [promiseOf].
      unfold deliver_to. destruct (Nat.eq_dec i i0) as [->|Hne].
      * rewrite list_lookup_insert_eq by lia. rewrite Hf0, Hm. reflexivity.
      * rewrite list_lookup_insert_ne by congruence. rewrite Hp by assumption.
        destruct (f i); [reflexivity|]. rewrite Hother by assumption. reflexivity.
  - apply issued_ext with (f := f); [|split; [|split]; assumption].
    intros i Hi. unfold deliver_to. destruct (f i) eqn:Hfi; [reflexivity|].
    rewrite (List.find_none _ _ Hfind); [reflexivity|].
    rewrite Hl. apply in_map. apply List.filter_In. split.
    + apply in_seq. lia.
    + unfold unsettled. rewrite Hfi. reflexivity.
Qed.

Lemma issued_dispatch_all N evs f w :
  issued t N f w -> issued t N (history t evs f) (dispatch_all evs w).
Proof.
  revert f w. induction evs as [|ev evs IH]; intros f w Hinv; [assumption|].
  cbn [dispatch_all history fold_left]. apply IH, issued_dispatch, Hinv.
Qed.

Lemma history_find evs f i :
  history t evs f i =
  match f i with
  | Some o => Some o
  | None => option_map settlement (List.find (matches (L i)) evs)
  end.
Proof.
  revert f. induction evs as [|ev evs IH]; intros f.
  - cbn. destruct (f i); reflexivity.
  - cbn [history fold_left List.find]. fold (history t evs (deliver_to t ev f)).
    rewrite IH. unfold deliver_to at 1. destruct (f i); [reflexivity|].
    destruct (matches (L i) ev); reflexivity.
Qed.

Lemma imap_seq_map {A B} (g : nat -> B) (l : list A) k :
  imap (fun j _ => g (k + j)%nat) l = map g (seq k (length l)).
Proof.
  revert k. induction l as [|x l IH]; intros k; [reflexivity|].
  cbn [imap length seq map]. rewrite Nat.add_0_r. f_equal.
  rewrite <- IH. apply imap_ext. intros j y _. cbn. f_equal. lia.
Qed.

Lemma issued_request_all requests peerWindow :
  issued t (length requests) (fun _ => None)
    (snd (snd (request_all t requests (newProvider peerWindow, emptyWindow)))).
Proof.
  rewrite request_all_spec. cbn [snd listeners promises emptyWindow newProvider messageId length app].
  split; [|split].
  - rewrite (List.filter_ext (unsettled (fun _ => None)) (fun _ => true)) by reflexivity.
    assert (Hall : forall l : list nat, List.filter (fun _ => true) l = l).
    { induction l as [|x l IH]; [reflexivity|]. cbn. rewrite IH. reflexivity. }
    rewrite Hall. rewrite <- (imap_seq_map L requests 0). apply imap_ext.
    intros j x _. reflexivity.
  - apply length_replicate.
  - intros i Hi. cbn [promiseOf]. apply lookup_replicate_2. assumption.
Qed.

End Correlation.

(** Inside the iframe, Eip1193Provider.request is [request] with the tags
    of that direction and [window.top] as the window posted to. *)
Lemma Eip1193Provider_request_top parent r this w :
  peer this = parent ->
  Eip1193Provider_request (Some parent) r (this, w) =
  request eip1193Tags r (this, w).
Proof. intros <-. destruct this; reflexivity. Qed.

(** A fresh provider issues [requests], then the events [evs] arrive. *)
Lemma requests_then_events :
  forall (t : tags) (peerWindow : window_ref) (requests : list value)
         (evs : list MessageEvent),
    let '(ps, (this, w)) :=
      request_all t requests (newProvider peerWindow, emptyWindow) in
    ps = seq 0 (length requests) /\
    messageId this = Z.of_nat (length requests) /\
    outbox w = imap (fun i r => {| target := peerWindow;
                                   message := requestEnvelope t r (Z.of_nat i) |})
                    requests /\
    issued t (length requests) (history t evs (fun _ => None))
      (dispatch_all evs w).
Proof.
  intros t peerWindow requests evs.
  pose proof (issued_request_all t requests peerWindow) as Hinv.
  destruct (request_all t requests (newProvider peerWindow, emptyWindow))
    as [ps [this w]] eqn:Hreq.
  cbn [snd] in Hinv.
  rewrite request_all_spec in Hreq. injection Hreq as Hps Hthis Hw.
  apply (issued_dispatch_all t _ evs) in Hinv.
  split; [symmetry; exact Hps|].
  split; [subst this; cbn; lia|].
  split; [subst w; cbn [outbox emptyWindow app newProvider peer messageId];
          apply imap_ext; intros j x _; cbn; do 2 f_equal; lia|].
  exact Hinv.
Qed.

(** The promise of request [i] after the events [evs]. *)
Lemma issued_promise t N evs w i :
  issued t N (history t evs (fun _ => None)) w ->
  (i < N)%nat ->
  promises w !! i =
  Some (match List.find (matches (requestListener t i)) evs with
        | Some ev => Settled (settlement ev)
        | None => Pending
        end).
Proof.
  intros (_ & _ & Hp) Hi. rewrite (Hp i Hi), (history_find t).
  destruct (List.find _ evs); reflexivity.
Qed.

(** C1: requests issued through one provider take the message ids 0, 1,
    2, ... from the provider's counter, and whatever 'message' events arrive
    afterwards, in whatever order, the promise of request [i] is settled by
    the first event that carries the response tag and message id [i], with
    that event's payload, and stays pending when there is none; the listener
    of request [i] is registered exactly as long as no such event has
    arrived. *)
Theorem C1_message_id_correlation :
  forall (t : tags) (peerWindow : window_ref) (requests : list value)
         (evs : list MessageEvent),
    let '(ps, (this, w)) :=
      request_all t requests (newProvider peerWindow, emptyWindow) in
    let w' := dispatch_all evs w in
    ps = seq 0 (length requests) /\
    messageId this = Z.of_nat (length requests) /\
    outbox w = imap (fun i r => {| target := peerWindow;
                                   message := requestEnvelope t r (Z.of_nat i) |})
                    requests /\
    forall i, (i < length requests)%nat ->
      let l := requestListener t i in
      promises w' !! i =
        Some (match List.find (matches l) evs with
              | Some ev => Settled (settlement ev)
              | None => Pending
              end) /\
      (In l (listeners w') <-> List.find (matches l) evs = None).
Proof.
  intros t peerWindow requests evs.
  pose proof (requests_then_events t peerWindow requests evs) as H.
  destruct (request_all t requests (newProvider peerWindow, emptyWindow))
    as [ps [this w]].
  destruct H as (Hps & Hid & Hout & Hissued).
  split; [exact Hps|]. split; [exact Hid|]. split; [exact Hout|].
  intros i Hi. cbv zeta. split.
  - apply (issued_promise t _ _ _ _ Hissued Hi).
  - destruct Hissued as (Hl & _ & _). rewrite Hl, in_map_iff. split.
    + intros (j & Hj & Hin). apply (L_inj t) in Hj. subst j.
      apply List.filter_In in Hin as [_ Hpend]. unfold unsettled in Hpend.
      rewrite (history_find t) in Hpend.
      destruct (List.find _ evs); [discriminate|reflexivity].
    + intros Hnone. exists i. split; [reflexivity|]. apply List.filter_In. split.
      * apply in_seq. lia.
      * unfold unsettled. rewrite (history_find t), Hnone. reflexivity.
Qed.

Lemma truthy_get_not_nullish d k : truthy (get d k) = true -> nullish d = false.
Proof. destruct d; simpl; try discriminate; reflexivity. Qed.

(** C2, as amended: a request envelope that reaches the host bridge from a
    context other than the one recorded at the handshake makes handleMessage
    throw "unexpected message source", and nothing is asked of the target
    provider; from the recorded context the request is handed to the
    provider. The listeners that settle the callers' promises never look at
    the sender: an event's source does not change what a dispatch does; nor
    does it change what the iframe's request listener does. *)
Theorem C2_sender_identity :
  (forall (this : GanacheBridgeHost) (ev : MessageEvent),
      truthy (get (data ev) "zodiacPilotGanacheInit") = false ->
      truthy (get (data ev) "zodiacPilotRequestFromGanache") = true ->
      (forall w, hostSource this = Some w -> source ev <> SourceWindow w) ->
      hostHandleMessage this ev = Throw (Error "unexpected message source")) /\
  (forall (this : GanacheBridgeHost) (ev : MessageEvent) (w : window_ref),
      truthy (get (data ev) "zodiacPilotGanacheInit") = false ->
      truthy (get (data ev) "zodiacPilotRequestFromGanache") = true ->
      hostSource this = Some w -> source ev = SourceWindow w ->
      hostHandleMessage this ev =
      Return (this, [ProviderRequest (get (data ev) "request")
                       (get (data ev) "messageId")])) /\
  (forall (d : value) (s s' : message_source) (w : Window),
      dispatch {| data := d; source := s |} w =
      dispatch {| data := d; source := s' |} w) /\
  (forall (d : value) (s s' : message_source) (top : option window_ref),
      setupFork_listener top {| data := d; source := s |} =
      setupFork_listener top {| data := d; source := s' |}).
Proof.
  split; [|split; [|split]].
  - intros this ev Hinit Hreq Hsrc. unfold hostHandleMessage.
    rewrite (truthy_get_not_nullish _ _ Hreq), Hinit, Hreq.
    unfold assertConsistentSource, source_differs.
    destruct (source ev) as [|w| |] eqn:Hs; try reflexivity.
    destruct (hostSource this) as [w'|] eqn:Hh; [|reflexivity].
    destruct (Nat.eqb w w') eqn:Hw; [|reflexivity].
    apply Nat.eqb_eq in Hw. subst w'. exfalso. exact (Hsrc w eq_refl eq_refl).
  - intros this ev w Hinit Hreq Hh Hs. unfold hostHandleMessage.
    rewrite (truthy_get_not_nullish _ _ Hreq), Hinit, Hreq.
    unfold assertConsistentSource, source_differs, handleRequest.
    rewrite Hs, Hh, Nat.eqb_refl. reflexivity.
  - intros d s s' w. reflexivity.
  - intros d s s' top. reflexivity.
Qed.

(** C2 fails for responses: a response envelope posted by a third window
    settles the pending promise of GanacheProvider. *)
Lemma C2_counterexample :
  let '(p, (this, w)) :=
    request ganacheTags (VObj [("method", VStr "eth_call")])
      (newProvider 1%nat, emptyWindow) in
  source spoofedResponse <> SourceWindow (peer this) /\
  promises w !! p = Some Pending /\
  promises (dispatch spoofedResponse w) !! p =
    Some (Settled (Resolved (VStr "0xspoofed"))).
Proof. cbn. split; [discriminate|]. split; reflexivity. Qed.

Lemma iframe_serve_posts ganache top evs m :
  In m (iframe_serve ganache top evs) ->
  exists ev request messageId response,
    In ev evs /\
    setupFork_listener (Some top) ev = Return (Some (request, messageId)) /\
    ganache request = Resolved response /\
    m = {| target := top; message := ganacheResponseEnvelope messageId response |}.
Proof.
  unfold iframe_serve. rewrite in_flat_map. intros (ev & Hin & Hm).
  destruct (setupFork_listener (Some top) ev) as [[[request messageId]|]|] eqn:Hl;
    try contradiction.
  unfold setupFork_listener_resume in Hm.
  destruct (ganache request) as [response|] eqn:Hg; [|contradiction].
  destruct Hm as [<-|[]]. exists ev, request, messageId, response. auto.
Qed.

Lemma setupFork_listener_envelope top from tgt r j :
  setupFork_listener (Some top)
    (deliver from {| target := tgt; message := requestEnvelope ganacheTags r j |}) =
  Return (Some (r, VNum j)).
Proof. reflexivity. Qed.

Lemma find_ext_none {A} (p : A -> bool) (l : list A) :
  (forall x, In x l -> p x = false) -> List.find p l = None.
Proof.
  intros H. destruct (List.find p l) as [x|] eqn:Hf; [|reflexivity].
  apply List.find_some in Hf as [Hin Hp]. rewrite (H x Hin) in Hp. discriminate.
Qed.

(** C10: whatever the iframe's listener posts is a response envelope with a
    result and no error field, addressed to the host page; and when the host
    page's GanacheProvider has issued its requests and the iframe has served
    them in any order, the promise of a request whose handling by the
    simulator resolved is fulfilled with that result, while the promise of a
    request whose handling rejected is still pending: no envelope was sent
    for it. *)
Theorem C10_round_trip :
  forall (ganache : value -> outcome) (host iframe : window_ref)
         (requests : list value) (served : list MessageEvent),
    let '(ps, (this, w)) :=
      request_all ganacheTags requests (newProvider iframe, emptyWindow) in
    Permutation served (map (deliver host) (outbox w)) ->
    let responses := iframe_serve ganache host served in
    (forall m, In m responses ->
       target m = host /\ get (message m) "error" = VUndefined /\
       exists messageId request response,
         ganache request = Resolved response /\
         message m = ganacheResponseEnvelope messageId response) /\
    let w' := dispatch_all (map (deliver iframe) responses) w in
    forall i r, requests !! i = Some r ->
      promises w' !! i =
        Some (match ganache r with
              | Resolved v => Settled (Resolved v)
              | Rejected _ => Pending
              end).
Proof.
  intros ganache host iframe requests served.
  pose proof (requests_then_events ganacheTags iframe requests
                (map (deliver iframe) (iframe_serve ganache host served))) as Hspec.
  destruct (request_all ganacheTags requests (newProvider iframe, emptyWindow))
    as [ps [this w]].
  destruct Hspec as (_ & _ & Hout & Hissued).
  intros Hperm responses. split.
  - intros m Hm.
    apply iframe_serve_posts in Hm as (ev & rq & mid & v & _ & _ & Hg & ->).
    split; [reflexivity|]. split; [reflexivity|]. exists mid, rq, v. auto.
  - intros w' i r Hi.
    assert (Hlt : (i < length requests)%nat) by (eapply lookup_lt_Some; eassumption).
    unfold w', responses. rewrite (issued_promise _ _ _ _ _ Hissued Hlt).
    clear Hissued. f_equal.
    (* the responses that carry message id [i] *)
    assert (Hresp : forall x,
      In x (map (deliver iframe) (iframe_serve ganache host served)) ->
      exists j rj v, requests !! j = Some rj /\ ganache rj = Resolved v /\
        x = deliver iframe {| target := host;
              message := ganacheResponseEnvelope (VNum (Z.of_nat j)) v |}).
    { intros x Hx. apply in_map_iff in Hx as (m & <- & Hm).
      apply iframe_serve_posts in Hm as (ev & rq & mid & v & Hin & Hl & Hg & ->).
      apply (Permutation_in _ Hperm) in Hin. rewrite Hout in Hin.
      apply in_map_iff in Hin as (pm & <- & Hpm).
      apply list_elem_of_In, elem_of_lookup_imap in Hpm as (j & rj & -> & Hj).
      rewrite setupFork_listener_envelope in Hl. injection Hl as <- <-.
      exists j, rj, v. auto. }
    assert (Hmatch : forall j v,
      matches (requestListener ganacheTags i)
        (deliver iframe {| target := host;
           message := ganacheResponseEnvelope (VNum (Z.of_nat j)) v |}) =
      (Z.of_nat j =? Z.of_nat i)).
    { intros j v. reflexivity. }
    destruct (ganache r) as [v|e] eqn:Hg.
    + destruct (List.find _ _) as [x|] eqn:Hf.
      * apply List.find_some in Hf as [Hin Hm].
        apply Hresp in Hin as (j & rj & vj & Hj & Hgj & ->).
        rewrite Hmatch in Hm. apply Z.eqb_eq in Hm.
        assert (j = i) by lia. subst j. rewrite Hi in Hj. injection Hj as <-.
        rewrite Hg in Hgj. injection Hgj as <-. reflexivity.
      * exfalso.
        pose proof (List.find_none _ _ Hf
          (deliver iframe {| target := host;
             message := ganacheResponseEnvelope (VNum (Z.of_nat i)) v |})) as Hnone.
        rewrite Hmatch, Z.eqb_refl in Hnone.
        assert (Hin : In (deliver iframe
                  {| target := host;
                     message := ganacheResponseEnvelope (VNum (Z.of_nat i)) v |})
                (map (deliver iframe) (iframe_serve ganache host served))).
        { apply in_map. unfold iframe_serve. apply in_flat_map.
          exists (deliver host {| target := iframe;
                    message := requestEnvelope ganacheTags r (Z.of_nat i) |}).
          split.
          - apply (Permutation_in _ (Permutation_sym Hperm)). rewrite Hout.
            apply in_map. apply list_elem_of_In, elem_of_lookup_imap.
            exists i, r. auto.
          - rewrite setupFork_listener_envelope, Hg. left. reflexivity. }
        specialize (Hnone Hin). discriminate.
    + rewrite find_ext_none; [reflexivity|].
      intros x Hin. apply Hresp in Hin as (j & rj & vj & Hj & Hgj & ->).
      rewrite Hmatch. apply Z.eqb_neq. intros Heq.
      assert (j = i) by lia. subst j. rewrite Hi in Hj. injection Hj as <-.
      rewrite Hg in Hgj. discriminate.
Qed.

(** Three requests, the responses to the third and the first arrive, in that
    order. *)
Lemma C1_witness :
  let requests := [VStr "a"; VStr "b"; VStr "c"] in
  let evs :=
    [deliver 1%nat {| target := 0%nat;
                  message := ganacheResponseEnvelope (VNum 2) (VStr "C") |};
     deliver 1%nat {| target := 0%nat;
                  message := ganacheResponseEnvelope (VNum 0) (VStr "A") |}] in
  let '(ps, (this, w)) :=
    request_all ganacheTags requests (newProvider 1%nat, emptyWindow) in
  ps = [0; 1; 2]%nat /\
  promises (dispatch_all evs w) !! 0%nat = Some (Settled (Resolved (VStr "A"))) /\
  promises (dispatch_all evs w) !! 1%nat = Some Pending /\
  promises (dispatch_all evs w) !! 2%nat = Some (Settled (Resolved (VStr "C"))).
Proof.
  intros requests evs.
  pose proof (C1_message_id_correlation ganacheTags 1%nat requests evs) as H.
  destruct (request_all ganacheTags requests (newProvider 1%nat, emptyWindow))
    as [ps [this w]].
  destruct H as (Hps & _ & _ & H).
  split; [exact Hps|]. split; [|split].
  - destruct (H 0%nat ltac:(cbn; lia)) as [Hp _]. exact Hp.
  - destruct (H 1%nat ltac:(cbn; lia)) as [Hp _]. exact Hp.
  - destruct (H 2%nat ltac:(cbn; lia)) as [Hp _]. exact Hp.
Defined.

Lemma C2_witness :
  let request :=
    requestEnvelope eip1193Tags (VObj [("method", VStr "eth_getBalance")]) 0 in
  hostHandleMessage {| hostSource := Some 1%nat |}
    {| data := request; source := SourceWindow 2%nat |} =
  Throw (Error "unexpected message source") /\
  hostHandleMessage {| hostSource := Some 1%nat |}
    {| data := request; source := SourceWindow 1%nat |} =
  Return ({| hostSource := Some 1%nat |},
          [ProviderRequest (VObj [("method", VStr "eth_getBalance")]) (VNum 0)]).
Proof.
  intros request. destruct C2_sender_identity as (Hother & Hsame & _). split.
  - apply Hother; [reflexivity | reflexivity |].
    intros w Hw. injection Hw as <-. discriminate.
  - exact (Hsame {| hostSource := Some 1%nat |}
             {| data := request; source := SourceWindow 1%nat |} 1%nat
             eq_refl eq_refl eq_refl eq_refl).
Defined.

(** The simulator answers "ok" and rejects everything else; the iframe
    serves the second request first. *)
Lemma C10_witness :
  let ganache := fun r => match r with
                          | VStr "ok" => Resolved (VStr "done")
                          | _ => Rejected (Error "VM Exception")
                          end in
  let requests := [VStr "ok"; VStr "bad"] in
  let '(ps, (this, w)) :=
    request_all ganacheTags requests (newProvider 1%nat, emptyWindow) in
  let served := rev (map (deliver 0%nat) (outbox w)) in
  let responses := iframe_serve ganache 0%nat served in
  let w' := dispatch_all (map (deliver 1%nat) responses) w in
  promises w' !! 0%nat = Some (Settled (Resolved (VStr "done"))) /\
  promises w' !! 1%nat = Some Pending.
Proof.
  intros ganache requests.
  pose proof (C10_round_trip ganache 0%nat 1%nat requests) as H.
  destruct (request_all ganacheTags requests (newProvider 1%nat, emptyWindow))
    as [ps [this w]].
  intros served responses w'.
  destruct (H served (Permutation_sym (Permutation_rev _))) as [_ Hp].
  split.
  - exact (Hp 0%nat (VStr "ok") eq_refl).
  - exact (Hp 1%nat (VStr "bad") eq_refl).
Defined.


Lemma handle_no_handshake this effs ev :
  shakes_hands ev = false ->
  fst (handle (this, effs) ev) = this.
Proof.
  unfold shakes_hands, handle, hostHandleMessage. cbn [fst snd].
  destruct (nullish (data ev)); [reflexivity|]. cbn [negb andb]. intros ->.
  destruct (truthy (get (data ev) "zodiacPilotRequestFromGanache")); [|reflexivity].
  destruct (assertConsistentSource this ev); reflexivity.
Qed.

Lemma handle_all_no_handshake evs :
  forall st, Forall (fun ev => shakes_hands ev = false) evs ->
  fst (fold_left handle evs st) = fst st.
Proof.
  induction evs as [|ev evs IH]; intros [this effs] Hall; [reflexivity|].
  apply List.Forall_cons_iff in Hall as [Hev Hall].
  cbn [fold_left]. rewrite IH by assumption.
  apply handle_no_handshake, Hev.
Qed.

Lemma handle_handshake st d w :
  truthy (get d "zodiacPilotGanacheInit") = true ->
  handle st {| data := d; source := SourceWindow w |} =
  ({| hostSource := Some w |}, snd st ++ [EmitReady]).
Proof.
  intros Hinit. unfold handle, hostHandleMessage. cbn [data source].
  rewrite (truthy_get_not_nullish _ _ Hinit), Hinit. reflexivity.
Qed.

(** X1: a handshake replaces the window the host has recorded. Whatever
    the host page has handled before, once a handshake envelope has arrived
    from the window [w], and no handshake envelope after it, the recorded
    source is [w]: a request envelope is handed to the wallet's provider
    exactly when it comes from [w], and makes handleMessage throw "unexpected
    message source" when it comes from anywhere else, the window of an
    earlier handshake included. *)
Theorem X1_last_handshake_wins :
  forall (this : GanacheBridgeHost) (before after : list MessageEvent)
         (d : value) (w : window_ref) (request : MessageEvent),
    truthy (get d "zodiacPilotGanacheInit") = true ->
    Forall (fun ev => shakes_hands ev = false) after ->
    shakes_hands request = false ->
    truthy (get (data request) "zodiacPilotRequestFromGanache") = true ->
    let this' :=
      fst (handle_all (before ++ {| data := d; source := SourceWindow w |} :: after)
             this) in
    hostSource this' = Some w /\
    hostHandleMessage this' request =
      if match source request with
         | SourceWindow w' => Nat.eqb w' w
         | _ => false
         end
      then Return (this', [ProviderRequest (get (data request) "request")
                             (get (data request) "messageId")])
      else Throw (Error "unexpected message source").
Proof.
  intros this before after d w request Hinit Hafter Hno Hreq this'.
  assert (Hthis : this' = {| hostSource := Some w |}).
  { unfold this', handle_all. rewrite fold_left_app. cbn [fold_left].
    rewrite handle_all_no_handshake by assumption.
    rewrite handle_handshake by assumption. reflexivity. }
  rewrite Hthis. split; [reflexivity|].
  unfold hostHandleMessage.
  rewrite (truthy_get_not_nullish _ _ Hreq), Hreq.
  unfold shakes_hands in Hno.
  rewrite (truthy_get_not_nullish _ _ Hreq) in Hno. cbn [negb andb] in Hno.
  rewrite Hno. unfold assertConsistentSource, source_differs, handleRequest.
  cbn [hostSource]. destruct (source request) as [|w'| |]; try reflexivity.
  destruct (Nat.eqb w' w); reflexivity.
Qed.

Lemma handle_before_handshake effs ev :
  handshake_from_window ev = false ->
  handle (newGanacheBridgeHost, effs) ev = (newGanacheBridgeHost, effs).
Proof.
  unfold handshake_from_window, shakes_hands, handle, hostHandleMessage.
  cbn [fst snd]. destruct (nullish (data ev)); [reflexivity|]. cbn [negb andb].
  destruct (truthy (get (data ev) "zodiacPilotGanacheInit")).
  - cbn [andb]. unfold initBridge. destruct (source ev); try discriminate; reflexivity.
  - intros _.
    destruct (truthy (get (data ev) "zodiacPilotRequestFromGanache")).
    + unfold assertConsistentSource, source_differs. cbn [hostSource newGanacheBridgeHost].
      destruct (source ev); reflexivity.
    + rewrite app_nil_r. reflexivity.
Qed.

(** X2: before the first handshake from a window the host does nothing.
    As long as no envelope with the handshake tag has arrived from a window,
    every message is ignored or makes handleMessage throw: no 'ready' is
    emitted, nothing is asked of the wallet's provider, and no source is
    recorded; so handleRequest is never entered with the source unset. *)
Theorem X2_nothing_before_handshake :
  forall (evs : list MessageEvent),
    Forall (fun ev => handshake_from_window ev = false) evs ->
    handle_all evs newGanacheBridgeHost = (newGanacheBridgeHost, []).
Proof.
  intros evs. unfold handle_all. generalize (@nil host_effect) as effs.
  induction evs as [|ev evs IH]; intros effs Hall; [reflexivity|].
  apply List.Forall_cons_iff in Hall as [Hev Hall].
  cbn [fold_left]. rewrite handle_before_handshake by assumption.
  apply IH, Hall.
Qed.

Lemma handle_request_envelopes (iframe : window_ref) (tgt : window_ref) :
  forall (requests : list value) (k : nat) (effs : list host_effect),
  fold_left handle
    (map (deliver iframe)
       (imap (fun i r => {| target := tgt;
                            message := requestEnvelope eip1193Tags r
                                         (Z.of_nat (k + i)) |})
             requests))
    ({| hostSource := Some iframe |}, effs) =
  ({| hostSource := Some iframe |},
   effs ++ imap (fun i r => ProviderRequest r (VNum (Z.of_nat (k + i)))) requests).
Proof.
  induction requests as [|r rest IH]; intros k effs.
  - cbn. rewrite app_nil_r. reflexivity.
  - cbn [imap map fold_left].
    replace (handle ({| hostSource := Some iframe |}, effs) _)
      with ({| hostSource := Some iframe |},
            effs ++ [ProviderRequest r (VNum (Z.of_nat (k + 0)))]).
    2:{ unfold handle, hostHandleMessage, assertConsistentSource, source_differs,
          handleRequest. cbn. rewrite Nat.eqb_refl. reflexivity. }
    rewrite (imap_ext _ (fun i r => {| target := tgt;
               message := requestEnvelope eip1193Tags r (Z.of_nat (S k + i)) |}))
      by (intros i x _; cbn; do 3 f_equal; lia).
    rewrite IH, <- app_assoc. cbn [app]. do 3 f_equal.
    apply imap_ext. intros i x _. cbn. do 3 f_equal. lia.
Qed.

(** X3: outside an iframe setupFork throws before it posts anything.
    Inside one it posts the handshake envelope twice, from the provider's
    constructor and at its end, both times to the top window; a host that
    handles the two records the iframe's window and emits 'ready' twice; and
    every request the iframe's provider posts afterwards passes the host's
    sender check and is handed to the wallet's provider, in the order posted,
    with the message ids 0, 1, 2, ... *)
Theorem X3_iframe_handshake :
  setupFork None = Throw (Error "Must run inside iframe") /\
  forall (host iframe : window_ref) (this : GanacheBridgeHost)
         (requests : list value),
    let handshake := {| target := host; message := initEnvelope |} in
    setupFork (Some host) = Return (newProvider host, [handshake; handshake]) /\
    let '(this', effects) :=
      handle_all (map (deliver iframe) [handshake; handshake]) this in
    hostSource this' = Some iframe /\
    effects = [EmitReady; EmitReady] /\
    let '(_, (_, w)) :=
      request_all eip1193Tags requests (newProvider host, emptyWindow) in
    handle_all (map (deliver iframe) (outbox w)) this' =
    (this', imap (fun i r => ProviderRequest r (VNum (Z.of_nat i))) requests).
Proof.
  split; [reflexivity|]. intros host iframe this requests handshake.
  split; [reflexivity|].
  change (handle_all _ this)
    with ({| hostSource := Some iframe |}, [EmitReady; EmitReady]).
  split; [reflexivity|]. split; [reflexivity|].
  rewrite request_all_spec. cbn [outbox emptyWindow app newProvider messageId peer].
  unfold handle_all.
  pose proof (handle_request_envelopes iframe host requests 0 []) as H.
  cbn [app] in H.
  erewrite imap_ext; [rewrite H; reflexivity|].
  intros i x _. cbn. reflexivity.
Qed.

Lemma host_serve_requests wallet iframe evs :
  (forall ev, In ev evs ->
     exists tgt r j,
       ev = deliver iframe {| target := tgt;
                              message := requestEnvelope eip1193Tags r j |}) ->
  forall out,
  fold_left
    (fun st ev =>
       match hostHandleMessage (fst st) ev with
       | Return (this', effects) =>
           (this', snd st ++ respond wallet this' effects)
       | Throw _ => st
       end)
    evs ({| hostSource := Some iframe |}, out) =
  ({| hostSource := Some iframe |},
   out ++ map (fun ev =>
                 {| target := iframe;
                    message := answerEnvelope (get (data ev) "messageId")
                                 (wallet (get (data ev) "request")) |})
              evs).
Proof.
  induction evs as [|ev evs IH]; intros Hall out.
  - cbn. rewrite app_nil_r. reflexivity.
  - destruct (Hall ev (or_introl eq_refl)) as (tgt & r & j & ->).
    cbn [fold_left map]. 
    replace (hostHandleMessage _ _)
      with (Return ({| hostSource := Some iframe |}, [ProviderRequest r (VNum j)])).
    2:{ unfold hostHandleMessage, assertConsistentSource, source_differs, handleRequest.
        cbn. rewrite Nat.eqb_refl. reflexivity. }
    cbn [fst snd respond flat_map handleRequest_resume hostSource].
    rewrite IH by (intros ev' Hin; apply Hall; right; exact Hin).
    rewrite <- app_assoc. f_equal. f_equal. cbn [app]. f_equal.
    unfold answerEnvelope. cbn [deliver data message requestEnvelope get lookup_field
      eip1193Tags requestTag].
    cbn. destruct (wallet r); reflexivity.
Qed.

Lemma matches_answer i host tgt j o :
  matches (requestListener eip1193Tags i)
    (deliver host {| target := tgt; message := answerEnvelope (VNum j) o |}) =
  (j =? Z.of_nat i).
Proof. destruct o; reflexivity. Qed.

Lemma settlement_answer host tgt mid o :
  settlement (deliver host {| target := tgt; message := answerEnvelope mid o |}) =
  forwarded o.
Proof.
  destruct o as [v|e]; [reflexivity|]. unfold settlement. cbn.
  destruct (truthy e); reflexivity.
Qed.

(** X4: the way back from the host page reports errors, unlike the one
    from the iframe (C10). When the iframe's provider has issued its
    requests and the host bridge has served them, in any order, every
    request has got one response envelope, addressed to the iframe; the
    promise of a request the wallet's provider resolved is fulfilled with the
    result, the promise of one it rejected with a truthy error is rejected
    with that error, and the promise of one it rejected with a falsy reason
    is fulfilled with undefined, the requester testing [if (error)]. *)
Theorem X4_host_round_trip :
  forall (wallet : value -> outcome) (host iframe : window_ref)
         (requests : list value) (served : list MessageEvent),
    let '(ps, (this, w)) :=
      request_all eip1193Tags requests (newProvider host, emptyWindow) in
    Permutation served (map (deliver iframe) (outbox w)) ->
    let '(bridge, responses) :=
      host_serve wallet served {| hostSource := Some iframe |} in
    length responses = length requests /\
    Forall (fun m => target m = iframe) responses /\
    let w' := dispatch_all (map (deliver host) responses) w in
    forall i r, requests !! i = Some r ->
      promises w' !! i =
        Some (Settled (match wallet r with
                       | Resolved v => Resolved v
                       | Rejected e =>
                           if truthy e then Rejected e else Resolved VUndefined
                       end)).
Proof.
  intros wallet host iframe requests served.
  pose proof (fun evs => requests_then_events eip1193Tags host requests evs) as Hspec.
  destruct (request_all eip1193Tags requests (newProvider host, emptyWindow))
    as [ps [this w]].
  intros Hperm.
  assert (Hout : outbox w =
            imap (fun i r => {| target := host;
                    message := requestEnvelope eip1193Tags r (Z.of_nat i) |})
                 requests).
  { destruct (Hspec []) as (_ & _ & Hout & _). exact Hout. }
  assert (Hserved : forall ev, In ev served ->
            exists j rj, requests !! j = Some rj /\
              ev = deliver iframe {| target := host;
                     message := requestEnvelope eip1193Tags rj (Z.of_nat j) |}).
  { intros ev Hin. apply (Permutation_in _ Hperm) in Hin. rewrite Hout in Hin.
    apply in_map_iff in Hin as (pm & <- & Hpm).
    apply list_elem_of_In, elem_of_lookup_imap in Hpm as (j & rj & -> & Hj).
    exists j, rj. auto. }
  unfold host_serve. rewrite (host_serve_requests wallet iframe served).
  2:{ intros ev Hin. destruct (Hserved ev Hin) as (j & rj & _ & ->). eauto. }
  cbn [app]. split; [|split].
  - rewrite length_map, (Permutation_length Hperm), length_map, Hout, length_imap.
    reflexivity.
  - apply List.Forall_forall. intros m Hin. apply in_map_iff in Hin as (ev & <- & _).
    reflexivity.
  - cbv zeta. intros i r Hi.
    assert (Hlt : (i < length requests)%nat) by (eapply lookup_lt_Some; eassumption).
    destruct (Hspec (map (deliver host)
               (map (fun ev => {| target := iframe;
                       message := answerEnvelope (get (data ev) "messageId")
                                    (wallet (get (data ev) "request")) |}) served)))
      as (_ & _ & _ & Hissued).
    rewrite (issued_promise _ _ _ _ _ Hissued Hlt). f_equal.
    set (answer := fun ev : MessageEvent =>
           deliver host {| target := iframe;
             message := answerEnvelope (get (data ev) "messageId")
                          (wallet (get (data ev) "request")) |}).
    rewrite List.map_map. fold answer.
    set (mine := deliver iframe {| target := host;
                   message := requestEnvelope eip1193Tags r (Z.of_nat i) |}).
    assert (Hmine : In (answer mine) (map answer served)).
    { apply in_map. apply (Permutation_in _ (Permutation_sym Hperm)).
      rewrite Hout. apply in_map. apply list_elem_of_In, elem_of_lookup_imap.
      exists i, r. auto. }
    destruct (List.find _ _) as [x|] eqn:Hf.
    + apply List.find_some in Hf as [Hin Hm].
      apply in_map_iff in Hin as (ev & <- & Hin).
      destruct (Hserved ev Hin) as (j & rj & Hj & ->).
      unfold answer in Hm |- *. cbn [deliver data message] in Hm |- *.
      change (get (requestEnvelope eip1193Tags rj (Z.of_nat j)) "messageId")
        with (VNum (Z.of_nat j)) in Hm |- *.
      change (get (requestEnvelope eip1193Tags rj (Z.of_nat j)) "request")
        with rj in Hm |- *.
      rewrite (matches_answer i host iframe) in Hm. apply Z.eqb_eq in Hm.
      assert (j = i) by lia. subst j. rewrite Hi in Hj. injection Hj as <-.
      f_equal. apply (settlement_answer host iframe).
    + exfalso. pose proof (List.find_none _ _ Hf _ Hmine) as Hnone.
      unfold answer, mine in Hnone. cbn [deliver data message] in Hnone.
      change (get (requestEnvelope eip1193Tags r (Z.of_nat i)) "messageId")
        with (VNum (Z.of_nat i)) in Hnone.
      rewrite (matches_answer i host iframe) in Hnone.
      rewrite Z.eqb_refl in Hnone. discriminate.
Qed.

(** Window 1 shakes hands, then window 2; a request of window 1 arrives
    and throws; the next request is served for window 2 only. *)
Lemma X1_witness :
  let request :=
    requestEnvelope eip1193Tags (VObj [("method", VStr "eth_call")]) 0 in
  let handled :=
    [{| data := initEnvelope; source := SourceWindow 1%nat |};
     {| data := initEnvelope; source := SourceWindow 2%nat |};
     {| data := request; source := SourceWindow 1%nat |}] in
  let this := fst (handle_all handled newGanacheBridgeHost) in
  hostSource this = Some 2%nat /\
  hostHandleMessage this {| data := request; source := SourceWindow 1%nat |} =
    Throw (Error "unexpected message source") /\
  hostHandleMessage this {| data := request; source := SourceWindow 2%nat |} =
    Return (this, [ProviderRequest (VObj [("method", VStr "eth_call")]) (VNum 0)]).
Proof.
  intros request handled this.
  assert (Hafter : Forall (fun ev => shakes_hands ev = false)
                     [{| data := request; source := SourceWindow 1%nat |}])
    by (repeat constructor).
  destruct (X1_last_handshake_wins newGanacheBridgeHost
              [{| data := initEnvelope; source := SourceWindow 1%nat |}]
              [{| data := request; source := SourceWindow 1%nat |}]
              initEnvelope 2%nat
              {| data := request; source := SourceWindow 1%nat |}
              eq_refl Hafter eq_refl eq_refl) as [Hs H1].
  destruct (X1_last_handshake_wins newGanacheBridgeHost
              [{| data := initEnvelope; source := SourceWindow 1%nat |}]
              [{| data := request; source := SourceWindow 1%nat |}]
              initEnvelope 2%nat
              {| data := request; source := SourceWindow 2%nat |}
              eq_refl Hafter eq_refl eq_refl) as [_ H2].
  split; [exact Hs|]. split; [exact H1|exact H2].
Defined.

(** A request, a response and a handshake that comes from a message port. *)
Lemma X2_witness :
  handle_all
    [{| data := requestEnvelope eip1193Tags (VStr "r") 0;
        source := SourceWindow 1%nat |};
     {| data := ganacheResponseEnvelope (VNum 0) (VStr "x");
        source := SourceWindow 1%nat |};
     {| data := initEnvelope; source := SourceMessagePort 7%nat |}]
    newGanacheBridgeHost =
  (newGanacheBridgeHost, []).
Proof. apply X2_nothing_before_handshake. repeat constructor. Defined.

(** The wallet answers "ok", rejects "bad" with an error and "odd" with
    [undefined]; the host serves the requests last to first. *)
Lemma X4_witness :
  let wallet := fun r => match r with
                         | VStr "ok" => Resolved (VStr "done")
                         | VStr "bad" => Rejected (Error "User rejected")
                         | _ => Rejected VUndefined
                         end in
  let requests := [VStr "ok"; VStr "bad"; VStr "odd"] in
  let '(ps, (this, w)) :=
    request_all eip1193Tags requests (newProvider 0%nat, emptyWindow) in
  let served := rev (map (deliver 1%nat) (outbox w)) in
  let '(bridge, responses) :=
    host_serve wallet served {| hostSource := Some 1%nat |} in
  let w' := dispatch_all (map (deliver 0%nat) responses) w in
  promises w' !! 0%nat = Some (Settled (Resolved (VStr "done"))) /\
  promises w' !! 1%nat = Some (Settled (Rejected (Error "User rejected"))) /\
  promises w' !! 2%nat = Some (Settled (Resolved VUndefined)).
Proof.
  intros wallet requests.
  pose proof (X4_host_round_trip wallet 0%nat 1%nat requests) as H.
  destruct (request_all eip1193Tags requests (newProvider 0%nat, emptyWindow))
    as [ps [this w]].
  intros served. specialize (H served (Permutation_sym (Permutation_rev _))).
  set (hs := host_serve _ _ _) in *. clearbody hs.
  destruct hs as [bridge responses]. destruct H as (_ & _ & Hp).
  intros w'. split; [|split].
  - exact (Hp 0%nat (VStr "ok") eq_refl).
  - exact (Hp 1%nat (VStr "bad") eq_refl).
  - exact (Hp 2%nat (VStr "odd") eq_refl).
Defined.

End BridgeFacts.

(** ** The event loop and the Tenderly provider *)
Module TenderlyFacts.
Import Async Types Tenderly.

Section LoopFacts.
Context {Fields E : Type}.
Implicit Types l : loop Fields E.

Lemma drain_done fuel l : microtasks l = [] -> drain fuel l = Some l.
Proof. intros H. destruct fuel; simpl; rewrite H; reflexivity. Qed.

Lemma drain_mono fuel fuel' l l' :
  drain fuel l = Some l' -> (fuel <= fuel')%nat -> drain fuel' l = Some l'.
Proof.
  revert fuel' l. induction fuel as [|fuel IH]; intros fuel' l Hd Hle.
  - simpl in Hd. destruct (microtasks l) as [|[a self] rest] eqn:Hm; [|discriminate].
    injection Hd as <-. apply drain_done, Hm.
  - destruct fuel' as [|fuel']; [lia|]. simpl in Hd |- *.
    destruct (microtasks l) as [|[a self] rest]; [assumption|].
    apply IH; [assumption | lia].
Qed.

Lemma no_waiters_promise (p : promise_ref) (ts : list (task Fields E)) (n : nat) :
  Forall (fun t => match awaiting t with
                   | OnExt c => True
                   | OnPromise q => (q < n)%nat
                   end) ts ->
  (n <= p)%nat ->
  List.filter (waits_on p) ts = [] /\
  List.filter (fun t => negb (waits_on p t)) ts = ts.
Proof.
  intros Hall Hp. induction Hall as [|t ts Ht _ [IH1 IH2]]; [split; reflexivity|].
  assert (Hw : waits_on p t = false).
  { unfold waits_on. destruct (awaiting t) as [c|q]; [reflexivity|].
    apply Nat.eqb_neq. lia. }
  cbn [List.filter]. rewrite Hw. cbn [negb]. rewrite IH1, IH2.
  split; reflexivity.
Qed.

Lemma no_waiters_call (c : nat) (ts : list (task Fields E)) (n : nat) :
  Forall (fun t => match awaiting t with
                   | OnExt d => (d < n)%nat
                   | OnPromise q => True
                   end) ts ->
  (n <= c)%nat ->
  List.filter (waits_on_call c) ts = [] /\
  List.filter (fun t => negb (waits_on_call c t)) ts = ts.
Proof.
  intros Hall Hp. induction Hall as [|t ts Ht _ [IH1 IH2]]; [split; reflexivity|].
  assert (Hw : waits_on_call c t = false).
  { unfold waits_on_call. destruct (awaiting t) as [d|q]; [|reflexivity].
    apply Nat.eqb_neq. lia. }
  cbn [List.filter]. rewrite Hw. cbn [negb]. rewrite IH1, IH2.
  split; reflexivity.
Qed.

Lemma quiescent_promises l p :
  quiescent l -> (length (promises l) <= p)%nat ->
  List.filter (waits_on p) (blocked l) = [] /\
  List.filter (fun t => negb (waits_on p t)) (blocked l) = blocked l.
Proof.
  intros [_ Hall] Hp. apply (no_waiters_promise p _ (length (promises l))); [|exact Hp].
  revert Hall. apply List.Forall_impl. intros t. destruct (awaiting t); auto.
Qed.

Lemma quiescent_calls l c :
  quiescent l -> (length (calls l) <= c)%nat ->
  List.filter (waits_on_call c) (blocked l) = [] /\
  List.filter (fun t => negb (waits_on_call c t)) (blocked l) = blocked l.
Proof.
  intros [_ Hall] Hp. apply (no_waiters_call c _ (length (calls l))); [|exact Hp].
  revert Hall. apply List.Forall_impl. intros t. destruct (awaiting t); auto.
Qed.

Lemma insert_last {A} (xs : list A) (x y : A) :
  <[length xs := y]> (xs ++ [x]) = xs ++ [y].
Proof.
  rewrite insert_app_r_alt by lia. rewrite Nat.sub_diag. reflexivity.
Qed.

End LoopFacts.


Lemma request_cached_blockNumber (l : loop TenderlyProvider ext) req fuel :
  quiescent l ->
  method req = "eth_blockNumber"%string ->
  truthy (blockNumber (this l)) = true ->
  invoke fuel (request req) l =
  Some (length (promises l),
        {| this := this l;
           promises := promises l ++ [Settled (Resolved (blockNumber (this l)))];
           blocked := blocked l;
           microtasks := [];
           calls := calls l;
           timers := timers l |}).
Proof.
  intros Hq Hm Hb. unfold invoke, request. cbn [exec this].
  rewrite Hm. cbn [String.eqb Ascii.eqb Bool.eqb andb]. rewrite Hb.
  cbn [exec]. unfold settle. cbn [this promises blocked microtasks calls timers].
  destruct (quiescent_promises l (length (promises l)) Hq (le_n _)) as [-> ->].
  rewrite insert_last. destruct Hq as [-> _]. cbn [app map].
  rewrite drain_done by reflexivity. reflexivity.
Qed.

Section LoopFacts2.
Context {Fields E : Type}.
Implicit Types l : loop Fields E.

Lemma invoke_mono fuel fuel' (a : async Fields E) l r :
  invoke fuel a l = Some r -> (fuel <= fuel')%nat -> invoke fuel' a l = Some r.
Proof.
  unfold invoke. intros H Hle.
  destruct (drain fuel _) as [l'|] eqn:Hd; [|discriminate].
  rewrite (drain_mono _ _ _ _ Hd Hle). assumption.
Qed.

Lemma reply_mono fuel fuel' c o l l' :
  reply fuel c o l = Some l' -> (fuel <= fuel')%nat -> reply fuel' c o l = Some l'.
Proof. unfold reply. apply drain_mono. Qed.

Lemma fire_mono fuel fuel' i l l' :
  fire fuel i l = Some l' -> (fuel <= fuel')%nat -> fire fuel' i l = Some l'.
Proof.
  unfold fire. intros H Hle. destruct (timers l !! i) as [[cb|]|]; try assumption.
  destruct (invoke fuel cb _) as [[p l'']|] eqn:Hi; [|discriminate].
  rewrite (invoke_mono _ _ _ _ _ Hi Hle). assumption.
Qed.

(** Answering the call the last suspended function waits for. *)
Lemma reply_newest fuel l0 bs k self o :
  quiescent l0 ->
  blocked l0 = bs ->
  forall ps ms cs ts (s : Fields),
  reply fuel (length (calls l0)) o
    {| this := s; promises := ps;
       blocked := bs ++ [{| awaiting := OnExt (length (calls l0));
                            cont := k; own := self |}];
       microtasks := ms; calls := cs; timers := ts |} =
  drain fuel
    {| this := s; promises := ps; blocked := bs;
       microtasks := ms ++ [(k o, self)]; calls := cs; timers := ts |}.
Proof.
  intros Hq <- ps ms cs ts s. unfold reply.
  cbn [this promises blocked microtasks calls timers].
  rewrite !List.filter_app.
  destruct (quiescent_calls l0 (length (calls l0)) Hq (le_n _)) as [-> ->].
  cbn [List.filter waits_on_call awaiting]. rewrite Nat.eqb_refl.
  cbn [negb app map cont own]. rewrite app_nil_r. reflexivity.
Qed.
End LoopFacts2.

Ltac loop_simpl :=
  repeat (progress (cbn [exec this promises blocked microtasks calls timers
                         awaiting cont own unwrap]; unfold set_this)).

Ltac tenderly_simpl :=
  cbn [set_forkId set_blockNumber set_transactionIds set_forkProviderPromise
       chainId forkProviderPromise forkId transactionIds blockNumber].

Lemma lookup_snoc_old {A} (xs : list A) (x y : A) (i : nat) :
  xs !! i = Some y -> (xs ++ [x]) !! i = Some y.
Proof. intros H. apply lookup_app_l_Some, H. Qed.

Lemma request_routed_to_fork (l : loop TenderlyProvider ext) req q provider :
  quiescent l ->
  String.eqb (method req) "eth_chainId" = false ->
  String.eqb (method req) "eth_blockNumber" && truthy (blockNumber (this l)) = false ->
  forkProviderPromise (this l) = Some q ->
  promises l !! q = Some (Settled (Resolved provider)) ->
  nullish provider = false ->
  invoke 1 (request req) l =
  Some (length (promises l),
        {| this := this l;
           promises := promises l ++ [Pending];
           blocked := blocked l ++
             [{| awaiting := OnExt (length (calls l));
                 cont := afterSend req provider;
                 own := length (promises l) |}];
           microtasks := [];
           calls := calls l ++ [ForkSend provider (method req) (params_or_empty req)];
           timers := timers l |}).
Proof.
  intros Hq Hc Hb Hf Hp Hn. unfold invoke, request. loop_simpl.
  rewrite Hc, Hb, Hf. unfold sendToFork. loop_simpl. rewrite Hf. loop_simpl.
  rewrite (lookup_snoc_old _ _ _ _ Hp). destruct Hq as [Hm _]. rewrite Hm.
  cbn [app drain microtasks]. unfold withForkProvider. loop_simpl. rewrite Hn.
  loop_simpl. reflexivity.
Qed.

Section LoopFacts3.
Context {Fields E : Type}.
Implicit Types l : loop Fields E.

(** The function invoked last returns or throws: nobody waits for its
    promise yet. *)
Lemma settle_own l o (s : Fields) ms cs ts :
  quiescent l ->
  settle (length (promises l)) o
    {| this := s; promises := promises l ++ [Pending]; blocked := blocked l;
       microtasks := ms; calls := cs; timers := ts |} =
  {| this := s; promises := promises l ++ [Settled o]; blocked := blocked l;
     microtasks := ms; calls := cs; timers := ts |}.
Proof.
  intros Hq. unfold settle. cbn [this promises blocked microtasks calls timers].
  destruct (quiescent_promises l (length (promises l)) Hq (le_n _)) as [-> ->].
  rewrite insert_last. cbn [map]. rewrite app_nil_r. reflexivity.
Qed.
End LoopFacts3.

Lemma fork_send_rejected (l : loop TenderlyProvider ext) req provider e :
  quiescent l ->
  reply 1 (length (calls l)) (Rejected e)
    {| this := this l;
       promises := promises l ++ [Pending];
       blocked := blocked l ++
         [{| awaiting := OnExt (length (calls l));
             cont := afterSend req provider;
             own := length (promises l) |}];
       microtasks := [];
       calls := calls l ++ [ForkSend provider (method req) (params_or_empty req)];
       timers := timers l |} =
  Some {| this := this l;
          promises := promises l ++ [Settled (Rejected (rethrown e))];
          blocked := blocked l;
          microtasks := [];
          calls := calls l ++ [ForkSend provider (method req) (params_or_empty req)];
          timers := timers l |}.
Proof.
  intros Hq. rewrite (reply_newest 1 l (blocked l)) by (assumption || reflexivity).
  cbn [app drain microtasks]. unfold afterSend.
  loop_simpl. rewrite settle_own by assumption. reflexivity.
Qed.

Lemma fork_send_resolved_plain (l : loop TenderlyProvider ext) req provider result :
  quiescent l ->
  String.eqb (method req) "eth_sendTransaction" = false ->
  reply 1 (length (calls l)) (Resolved result)
    {| this := this l;
       promises := promises l ++ [Pending];
       blocked := blocked l ++
         [{| awaiting := OnExt (length (calls l));
             cont := afterSend req provider;
             own := length (promises l) |}];
       microtasks := [];
       calls := calls l ++ [ForkSend provider (method req) (params_or_empty req)];
       timers := timers l |} =
  Some {| this := this l;
          promises := promises l ++ [Settled (Resolved result)];
          blocked := blocked l;
          microtasks := [];
          calls := calls l ++ [ForkSend provider (method req) (params_or_empty req)];
          timers := timers l |}.
Proof.
  intros Hq Hm. rewrite (reply_newest 1 l (blocked l)) by (assumption || reflexivity).
  cbn [app drain microtasks]. unfold afterSend. rewrite Hm.
  loop_simpl. rewrite settle_own by assumption. reflexivity.
Qed.

(** Pass-through to the live chain *)
Lemma request_passed_through (l : loop TenderlyProvider ext) req :
  quiescent l ->
  String.eqb (method req) "eth_chainId" = false ->
  String.eqb (method req) "eth_blockNumber" && truthy (blockNumber (this l)) = false ->
  forkProviderPromise (this l) = None ->
  spawns_fork (method req) = false ->
  invoke 0 (request req) l =
  Some (length (promises l),
        {| this := this l;
           promises := promises l ++ [Pending];
           blocked := blocked l ++
             [{| awaiting := OnExt (length (calls l));
                 cont := unwrap Ret;
                 own := length (promises l) |}];
           microtasks := [];
           calls := calls l ++ [ProviderRequest req];
           timers := timers l |}).
Proof.
  intros Hq Hc Hb Hf Hs. unfold invoke, request. loop_simpl.
  rewrite Hc, Hb, Hf, Hs. loop_simpl. destruct Hq as [-> _]. reflexivity.
Qed.

Lemma passed_through_answer (l : loop TenderlyProvider ext) req o :
  quiescent l ->
  reply 1 (length (calls l)) o
    {| this := this l;
       promises := promises l ++ [Pending];
       blocked := blocked l ++
         [{| awaiting := OnExt (length (calls l));
             cont := unwrap Ret;
             own := length (promises l) |}];
       microtasks := [];
       calls := calls l ++ [ProviderRequest req];
       timers := timers l |} =
  Some {| this := this l;
          promises := promises l ++ [Settled o];
          blocked := blocked l;
          microtasks := [];
          calls := calls l ++ [ProviderRequest req];
          timers := timers l |}.
Proof.
  intros Hq. rewrite (reply_newest 1 l (blocked l)) by (assumption || reflexivity).
  cbn [app drain microtasks]. destruct o; loop_simpl;
    rewrite settle_own by assumption; reflexivity.
Qed.

(** The state a request leaves behind that spawned the fork. *)
Lemma request_spawns_fork (l : loop TenderlyProvider ext) req :
  quiescent l ->
  forkProviderPromise (this l) = None ->
  spawns_fork (method req) = true ->
  invoke 0 (request req) l =
  Some (length (promises l),
        {| this := set_forkProviderPromise (Some (S (length (promises l)))) (this l);
           promises := promises l ++ [Pending; Pending];
           blocked := blocked l ++
             [{| awaiting := OnExt (length (calls l));
                 cont := afterPostFork;
                 own := S (length (promises l)) |};
              {| awaiting := OnPromise (S (length (promises l)));
                 cont := withForkProvider req;
                 own := length (promises l) |}];
           microtasks := [];
           calls := calls l ++ [PostFork (toString10 (chainId (this l))) VUndefined];
           timers := timers l |}).
Proof.
  intros Hq Hf Hs.
  assert (Hc : String.eqb (method req) "eth_chainId" = false).
  { unfold spawns_fork in Hs. destruct (String.eqb_spec (method req) "eth_chainId") as [e|]; [|reflexivity].
    rewrite e in Hs. discriminate. }
  assert (Hb : String.eqb (method req) "eth_blockNumber" = false).
  { unfold spawns_fork in Hs. destruct (String.eqb_spec (method req) "eth_blockNumber") as [e|]; [|reflexivity].
    rewrite e in Hs. discriminate. }
  unfold invoke, request. loop_simpl. rewrite Hc, Hb, Hf, Hs. cbn [andb].
  unfold createFork, sendToFork. loop_simpl.
  cbn [set_forkProviderPromise forkProviderPromise].
  rewrite length_app. cbn [length]. rewrite Nat.add_1_r.
  rewrite <- app_assoc. cbn [app].
  replace ((promises l ++ [Pending; Pending]) !! S (length (promises l)))
    with (Some Pending).
  2:{ symmetry. rewrite lookup_app_r by lia.
      replace (S (length (promises l)) - length (promises l))%nat with 1%nat by lia.
      reflexivity. }
  destruct Hq as [-> _]. cbn [drain microtasks]. rewrite <- app_assoc. reflexivity.
Qed.

Lemma insert_second_last {A} (xs : list A) (x y z : A) :
  <[S (length xs) := z]> (xs ++ [x; y]) = xs ++ [x; z].
Proof.
  rewrite insert_app_r_alt by lia.
  replace (S (length xs) - length xs)%nat with 1%nat by lia. reflexivity.
Qed.

Lemma insert_first_of_two {A} (xs : list A) (x y z : A) :
  <[length xs := z]> (xs ++ [x; y]) = xs ++ [z; y].
Proof.
  rewrite insert_app_r_alt by lia. rewrite Nat.sub_diag. reflexivity.
Qed.

Lemma fork_spawned (l : loop TenderlyProvider ext) req json :
  quiescent l ->
  nullish json = false ->
  nullish (get json "simulation_fork") = false ->
  reply 2 (length (calls l)) (Resolved json)
    {| this := set_forkProviderPromise (Some (S (length (promises l)))) (this l);
       promises := promises l ++ [Pending; Pending];
       blocked := blocked l ++
         [{| awaiting := OnExt (length (calls l));
             cont := afterPostFork;
             own := S (length (promises l)) |};
          {| awaiting := OnPromise (S (length (promises l)));
             cont := withForkProvider req;
             own := length (promises l) |}];
       microtasks := [];
       calls := calls l ++ [PostFork (toString10 (chainId (this l))) VUndefined];
       timers := timers l |} =
  let fork := get json "simulation_fork" in
  let provider := JsonRpcProvider (get fork "id") in
  Some {| this :=
            {| chainId := chainId (this l);
               forkProviderPromise := Some (S (length (promises l)));
               forkId := get fork "id";
               transactionIds := [];
               blockNumber := get fork "block_number" |};
          promises := promises l ++ [Pending; Settled (Resolved provider)];
          blocked := blocked l ++
            [{| awaiting := OnExt (S (length (calls l)));
                cont := afterSend req provider;
                own := length (promises l) |}];
          microtasks := [];
          calls := calls l ++
            [PostFork (toString10 (chainId (this l))) VUndefined;
             ForkSend provider (method req) (params_or_empty req)];
          timers := timers l |}.
Proof.
  intros Hq Hj Hsf. cbv zeta. unfold reply. loop_simpl.
  rewrite !List.filter_app.
  destruct (quiescent_calls l (length (calls l)) Hq (le_n _)) as [-> ->].
  cbn [List.filter waits_on_call awaiting]. rewrite Nat.eqb_refl.
  cbn [negb app map cont own drain microtasks].
  unfold afterPostFork. loop_simpl. rewrite Hj, Hsf. cbn [orb]. loop_simpl.
  unfold settle. loop_simpl.
  rewrite insert_second_last, !List.filter_app.
  destruct (quiescent_promises l (S (length (promises l))) Hq
              ltac:(lia)) as [-> ->].
  cbn [List.filter waits_on awaiting]. rewrite Nat.eqb_refl.
  cbn [negb app map cont own drain microtasks].
  unfold withForkProvider. loop_simpl. cbn [nullish JsonRpcProvider].
  loop_simpl. tenderly_simpl.
  rewrite app_nil_r, length_app. cbn [length]. rewrite Nat.add_1_r.
  rewrite <- app_assoc. reflexivity.
Qed.

(** The control API fails to create the fork: the request that asked for
    it fails with the same error. *)
Lemma fork_not_spawned (l : loop TenderlyProvider ext) req e :
  quiescent l ->
  reply 2 (length (calls l)) (Rejected e)
    {| this := set_forkProviderPromise (Some (S (length (promises l)))) (this l);
       promises := promises l ++ [Pending; Pending];
       blocked := blocked l ++
         [{| awaiting := OnExt (length (calls l));
             cont := afterPostFork;
             own := S (length (promises l)) |};
          {| awaiting := OnPromise (S (length (promises l)));
             cont := withForkProvider req;
             own := length (promises l) |}];
       microtasks := [];
       calls := calls l ++ [PostFork (toString10 (chainId (this l))) VUndefined];
       timers := timers l |} =
  Some {| this := set_forkProviderPromise (Some (S (length (promises l)))) (this l);
          promises := promises l ++ [Settled (Rejected e); Settled (Rejected e)];
          blocked := blocked l;
          microtasks := [];
          calls := calls l ++ [PostFork (toString10 (chainId (this l))) VUndefined];
          timers := timers l |}.
Proof.
  intros Hq. unfold reply. loop_simpl.
  rewrite !List.filter_app.
  destruct (quiescent_calls l (length (calls l)) Hq (le_n _)) as [-> ->].
  cbn [List.filter waits_on_call awaiting]. rewrite Nat.eqb_refl.
  cbn [negb app map cont own drain microtasks].
  unfold afterPostFork. loop_simpl.
  unfold settle. loop_simpl.
  rewrite insert_second_last, !List.filter_app.
  destruct (quiescent_promises l (S (length (promises l))) Hq
              ltac:(lia)) as [-> ->].
  cbn [List.filter waits_on awaiting]. rewrite Nat.eqb_refl.
  cbn [negb app map cont own drain microtasks].
  unfold withForkProvider. loop_simpl.
  unfold settle. loop_simpl.
  rewrite insert_first_of_two, !app_nil_r.
  destruct (quiescent_promises l (length (promises l)) Hq (le_n _)) as [-> ->].
  reflexivity.
Qed.

(** A transaction was sent to the fork: the request goes on to ask the
    control API for the fork's head. *)
Lemma transaction_sent (l : loop TenderlyProvider ext) req q provider0 provider result :
  quiescent l ->
  String.eqb (method req) "eth_sendTransaction" = true ->
  forkProviderPromise (this l) = Some q ->
  promises l !! q = Some (Settled (Resolved provider0)) ->
  truthy (forkId (this l)) = true ->
  reply 2 (length (calls l)) (Resolved result)
    {| this := this l;
       promises := promises l ++ [Pending];
       blocked := blocked l ++
         [{| awaiting := OnExt (length (calls l));
             cont := afterSend req provider;
             own := length (promises l) |}];
       microtasks := [];
       calls := calls l ++ [ForkSend provider (method req) (params_or_empty req)];
       timers := timers l |} =
  Some {| this := this l;
          promises := promises l ++ [Pending; Pending];
          blocked := blocked l ++
            [{| awaiting := OnPromise (S (length (promises l)));
                cont := afterForkInfo provider result;
                own := length (promises l) |};
             {| awaiting := OnExt (S (length (calls l)));
                cont := afterGetFork;
                own := S (length (promises l)) |}];
          microtasks := [];
          calls := calls l ++
            [ForkSend provider (method req) (params_or_empty req);
             GetFork (forkId (this l))];
          timers := timers l |}.
Proof.
  intros Hq Hm Hf Hp Hid.
  rewrite (reply_newest 2 l (blocked l)) by (assumption || reflexivity).
  cbn [app drain microtasks]. unfold afterSend. rewrite Hm.
  unfold fetchForkInfo. loop_simpl. rewrite Hf. loop_simpl.
  rewrite <- app_assoc. cbn [app].
  rewrite (lookup_app_l_Some _ _ _ _ Hp).
  loop_simpl. rewrite length_app. cbn [length]. rewrite Nat.add_1_r.
  replace ((promises l ++ [Pending; Pending]) !! S (length (promises l)))
    with (Some Pending).
  2:{ symmetry. rewrite lookup_app_r by lia.
      replace (S (length (promises l)) - length (promises l))%nat with 1%nat by lia.
      reflexivity. }
  cbn [app drain microtasks]. unfold fetchForkInfo_resume. loop_simpl.
  rewrite Hid. cbn [negb]. loop_simpl.
  rewrite length_app. cbn [length]. rewrite Nat.add_1_r.
  rewrite <- !app_assoc. reflexivity.
Qed.

(** The control API answers: the request records the block number and the
    transaction id, sets the timer and returns the hash. *)
Lemma transaction_recorded (l : loop TenderlyProvider ext) req provider result json :
  quiescent l ->
  nullish json = false ->
  nullish (get json "simulation_fork") = false ->
  reply 2 (S (length (calls l))) (Resolved json)
    {| this := this l;
       promises := promises l ++ [Pending; Pending];
       blocked := blocked l ++
         [{| awaiting := OnPromise (S (length (promises l)));
             cont := afterForkInfo provider result;
             own := length (promises l) |};
          {| awaiting := OnExt (S (length (calls l)));
             cont := afterGetFork;
             own := S (length (promises l)) |}];
       microtasks := [];
       calls := calls l ++
         [ForkSend provider (method req) (params_or_empty req);
          GetFork (forkId (this l))];
       timers := timers l |} =
  let fork := get json "simulation_fork" in
  Some {| this :=
            {| chainId := chainId (this l);
               forkProviderPromise := forkProviderPromise (this l);
               forkId := forkId (this l);
               transactionIds :=
                 map_set result (get fork "global_head") (transactionIds (this l));
               blockNumber := get fork "block_number" |};
          promises := promises l ++
            [Settled (Resolved result); Settled (Resolved fork)];
          blocked := blocked l;
          microtasks := [];
          calls := calls l ++
            [ForkSend provider (method req) (params_or_empty req);
             GetFork (forkId (this l))];
          timers := timers l ++ [Some (advanceBlocks provider)] |}.
Proof.
  intros Hq Hj Hsf. cbv zeta. unfold reply. loop_simpl.
  rewrite !List.filter_app.
  destruct (quiescent_calls l (S (length (calls l))) Hq ltac:(lia))
    as [-> ->].
  cbn [List.filter waits_on_call awaiting]. rewrite Nat.eqb_refl.
  cbn [negb app map cont own drain microtasks].
  unfold afterGetFork. loop_simpl. rewrite Hj. loop_simpl.
  unfold settle. loop_simpl.
  rewrite insert_second_last, !List.filter_app.
  destruct (quiescent_promises l (S (length (promises l))) Hq
              ltac:(lia)) as [-> ->].
  cbn [List.filter waits_on awaiting]. rewrite Nat.eqb_refl.
  cbn [negb app map cont own drain microtasks].
  unfold afterForkInfo. loop_simpl. rewrite Hsf. loop_simpl. tenderly_simpl.
  unfold settle. loop_simpl.
  rewrite insert_first_of_two, !app_nil_r.
  destruct (quiescent_promises l (length (promises l)) Hq (le_n _)) as [-> ->].
  reflexivity.
Qed.

(** The timer fires. *)
Lemma timer_fires (l : loop TenderlyProvider ext) i provider :
  quiescent l ->
  timers l !! i = Some (Some (advanceBlocks provider)) ->
  fire 0 i l =
  Some {| this := this l;
          promises := promises l ++ [Pending];
          blocked := blocked l ++
            [{| awaiting := OnExt (length (calls l));
                cont := afterIncreaseBlocks;
                own := length (promises l) |}];
          microtasks := [];
          calls := calls l ++ [ForkSend provider "evm_increaseBlocks" [VStr "0x2"]];
          timers := <[i := None]> (timers l) |}.
Proof.
  intros Hq Ht. unfold fire. rewrite Ht. unfold invoke, advanceBlocks.
  loop_simpl. destruct Hq as [-> _]. reflexivity.
Qed.

Lemma blocks_advanced (l : loop TenderlyProvider ext) provider v ts :
  quiescent l ->
  reply 1 (length (calls l)) (Resolved v)
    {| this := this l;
       promises := promises l ++ [Pending];
       blocked := blocked l ++
         [{| awaiting := OnExt (length (calls l));
             cont := afterIncreaseBlocks;
             own := length (promises l) |}];
       microtasks := [];
       calls := calls l ++ [ForkSend provider "evm_increaseBlocks" [VStr "0x2"]];
       timers := ts |} =
  Some {| this := if truthy (blockNumber (this l))
                  then set_blockNumber (plus2 (blockNumber (this l))) (this l)
                  else this l;
          promises := promises l ++ [Settled (Resolved VUndefined)];
          blocked := blocked l;
          microtasks := [];
          calls := calls l ++ [ForkSend provider "evm_increaseBlocks" [VStr "0x2"]];
          timers := ts |}.
Proof.
  intros Hq. rewrite (reply_newest 1 l (blocked l)) by (assumption || reflexivity).
  cbn [app drain microtasks]. unfold afterIncreaseBlocks. loop_simpl.
  destruct (truthy (blockNumber (this l))); loop_simpl;
    rewrite settle_own by assumption; reflexivity.
Qed.

Section LoopFacts4.
Context {Fields E : Type}.
Implicit Types l : loop Fields E.

Lemma quiescent_grow l l' :
  quiescent l ->
  microtasks l' = [] ->
  blocked l' = blocked l ->
  (length (calls l) <= length (calls l'))%nat ->
  (length (promises l) <= length (promises l'))%nat ->
  quiescent l'.
Proof.
  intros [_ Hall] Hm Hb Hc Hp. split; [assumption|]. rewrite Hb.
  revert Hall. apply List.Forall_impl. intros t. destruct (awaiting t); lia.
Qed.
End LoopFacts4.

Lemma cached_blockNumber_each (reqs : list JsonRpcRequest) :
  forall (l : loop TenderlyProvider ext) fuel,
  quiescent l ->
  truthy (blockNumber (this l)) = true ->
  Forall (fun r => method r = "eth_blockNumber"%string) reqs ->
  invoke_each fuel (map request reqs) l =
  Some (seq (length (promises l)) (length reqs),
        {| this := this l;
           promises := promises l ++
             replicate (length reqs) (Settled (Resolved (blockNumber (this l))));
           blocked := blocked l;
           microtasks := [];
           calls := calls l;
           timers := timers l |}).
Proof.
  induction reqs as [|r reqs IH]; intros l fuel Hq Hb Hall.
  - cbn. rewrite app_nil_r. destruct Hq as [Hm _]. rewrite <- Hm.
    destruct l; reflexivity.
  - apply List.Forall_cons_iff in Hall as [Hr Hall].
    cbn [map invoke_each]. rewrite request_cached_blockNumber by assumption.
    rewrite IH; [| |assumption|assumption].
    + cbn [this promises blocked calls timers length seq replicate].
      rewrite length_app. cbn [length]. rewrite Nat.add_1_r, <- app_assoc.
      reflexivity.
    + eapply quiescent_grow; [exact Hq|reflexivity|reflexivity|cbn; lia|].
      cbn. rewrite length_app. lia.
Qed.

Lemma is_rate_limit_error_spec e :
  is_rate_limit_error e = true <-> get (get e "error") "code" = VNum (-32603).
Proof.
  unfold is_rate_limit_error.
  destruct (get e "error") as [| | | | |fields] eqn:He; cbn; try (split; discriminate).
  unfold strict_eq_num. destruct (lookup_field "code" fields); try (split; discriminate).
  rewrite Z.eqb_eq. split; [intros ->; reflexivity | intros [= ->]; reflexivity].
Qed.

(** C5: (1) while the cached block number is set (and not 0), any number of
    consecutive eth_blockNumber requests are each answered with the cached
    value, and nothing is asked upstream: the provider's fields, the calls
    issued and the timers stay as they are; (2) a transaction sent to the
    fork returns its hash once the fork's head has been read: the cache
    holds the block number read, the advance is a timer that has not run, no
    evm_increaseBlocks has been sent; (3) when that timer fires it sends
    evm_increaseBlocks ["0x2"], and once the fork has answered, the cached
    block number has grown by exactly 2. *)
Theorem C5_block_number_cache :
  (forall (l : loop TenderlyProvider ext) (reqs : list JsonRpcRequest) (fuel : nat),
      quiescent l ->
      truthy (blockNumber (this l)) = true ->
      Forall (fun r => method r = "eth_blockNumber"%string) reqs ->
      invoke_each fuel (map request reqs) l =
      Some (seq (length (promises l)) (length reqs),
            {| this := this l;
               promises := promises l ++
                 replicate (length reqs) (Settled (Resolved (blockNumber (this l))));
               blocked := blocked l;
               microtasks := [];
               calls := calls l;
               timers := timers l |})) /\
  (forall (l : loop TenderlyProvider ext) req q provider result json (fuel : nat),
      (2 <= fuel)%nat ->
      quiescent l ->
      method req = "eth_sendTransaction"%string ->
      forkProviderPromise (this l) = Some q ->
      promises l !! q = Some (Settled (Resolved provider)) ->
      nullish provider = false ->
      truthy (forkId (this l)) = true ->
      nullish (get json "simulation_fork") = false ->
      exists l1 l2 l3,
        invoke fuel (request req) l = Some (length (promises l), l1) /\
        reply fuel (length (calls l)) (Resolved result) l1 = Some l2 /\
        reply fuel (S (length (calls l))) (Resolved json) l2 = Some l3 /\
        quiescent l3 /\
        promises l3 !! length (promises l) = Some (Settled (Resolved result)) /\
        blockNumber (this l3) = get (get json "simulation_fork") "block_number" /\
        calls l3 = calls l ++
          [ForkSend provider "eth_sendTransaction" (params_or_empty req);
           GetFork (forkId (this l))] /\
        timers l3 = timers l ++ [Some (advanceBlocks provider)]) /\
  (forall (l : loop TenderlyProvider ext) i provider b v (fuel : nat),
      (1 <= fuel)%nat ->
      quiescent l ->
      timers l !! i = Some (Some (advanceBlocks provider)) ->
      blockNumber (this l) = VNum b ->
      b <> 0 ->
      exists l1 l2,
        fire fuel i l = Some l1 /\
        this l1 = this l /\
        calls l1 = calls l ++ [ForkSend provider "evm_increaseBlocks" [VStr "0x2"]] /\
        reply fuel (length (calls l)) (Resolved v) l1 = Some l2 /\
        this l2 = set_blockNumber (VNum (b + 2)) (this l)).
Proof.
  split; [|split].
  - intros l reqs fuel Hq Hb Hall. apply cached_blockNumber_each; assumption.
  - intros l req q provider result json fuel Hfuel Hq Hm Hf Hp Hn Hid Hsf.
    assert (Hj : nullish json = false) by (destruct json; cbn in Hsf |- *; congruence).
    assert (Hc : String.eqb (method req) "eth_chainId" = false) by (rewrite Hm; reflexivity).
    assert (Hb : String.eqb (method req) "eth_blockNumber"
                 && truthy (blockNumber (this l)) = false) by (rewrite Hm; reflexivity).
    assert (Hs : String.eqb (method req) "eth_sendTransaction" = true) by (rewrite Hm; reflexivity).
    do 3 eexists. split; [|split; [|split; [|split; [|split; [|split; [|split]]]]]].
    + eapply invoke_mono; [eapply request_routed_to_fork; eassumption | lia].
    + eapply reply_mono; [eapply transaction_sent; eassumption | lia].
    + eapply reply_mono; [eapply transaction_recorded; eassumption | lia].
    + eapply quiescent_grow; [exact Hq|reflexivity|reflexivity|
        cbn; rewrite length_app; lia|cbn; rewrite length_app; lia].
    + cbn [promises]. rewrite lookup_app_r by lia. rewrite Nat.sub_diag. reflexivity.
    + reflexivity.
    + cbn [calls]. rewrite Hm. reflexivity.
    + reflexivity.
  - intros l i provider b v fuel Hfuel Hq Ht Hb Hnz.
    do 2 eexists. split; [|split; [|split; [|split]]].
    + eapply fire_mono; [eapply timer_fires; eassumption | lia].
    + reflexivity.
    + reflexivity.
    + eapply reply_mono; [eapply blocks_advanced; eassumption | lia].
    + cbn [this]. rewrite Hb. cbn [truthy plus2].
      destruct (Z.eqb_spec b 0) as [|_]; [contradiction|]. reflexivity.
Qed.

(** C6: (1) with no fork yet, a request whose method is
    eth_sendTransaction, evm_snapshot or evm_revert asks the control API for
    a fork and records the promise of its provider; when the fork has been
    created the request is sent to the fork; (2) with no fork yet, any other
    request (but eth_chainId, and eth_blockNumber while a block number is
    cached) is handed to the live provider unchanged and returns whatever
    the live provider answers, and the provider's fields stay as they are;
    (3) once the fork's provider is there, such a request is sent to the
    fork and nowhere else, and returns what the fork answers. *)
Theorem C6_lazy_fork :
  (forall (l : loop TenderlyProvider ext) req json (fuel : nat),
      (2 <= fuel)%nat ->
      quiescent l ->
      forkProviderPromise (this l) = None ->
      spawns_fork (method req) = true ->
      nullish (get json "simulation_fork") = false ->
      exists l1 l2,
        invoke fuel (request req) l = Some (length (promises l), l1) /\
        calls l1 = calls l ++ [PostFork (toString10 (chainId (this l))) VUndefined] /\
        forkProviderPromise (this l1) = Some (S (length (promises l))) /\
        reply fuel (length (calls l)) (Resolved json) l1 = Some l2 /\
        forkId (this l2) = get (get json "simulation_fork") "id" /\
        forkProviderPromise (this l2) = Some (S (length (promises l))) /\
        promises l2 !! S (length (promises l)) =
          Some (Settled (Resolved
                  (JsonRpcProvider (get (get json "simulation_fork") "id")))) /\
        calls l2 = calls l ++
          [PostFork (toString10 (chainId (this l))) VUndefined;
           ForkSend (JsonRpcProvider (get (get json "simulation_fork") "id"))
             (method req) (params_or_empty req)]) /\
  (forall (l : loop TenderlyProvider ext) req o (fuel : nat),
      (1 <= fuel)%nat ->
      quiescent l ->
      forkProviderPromise (this l) = None ->
      spawns_fork (method req) = false ->
      method req <> "eth_chainId"%string ->
      (method req = "eth_blockNumber"%string -> truthy (blockNumber (this l)) = false) ->
      exists l1 l2,
        invoke fuel (request req) l = Some (length (promises l), l1) /\
        calls l1 = calls l ++ [ProviderRequest req] /\
        this l1 = this l /\
        reply fuel (length (calls l)) o l1 = Some l2 /\
        promises l2 !! length (promises l) = Some (Settled o) /\
        calls l2 = calls l ++ [ProviderRequest req] /\
        this l2 = this l) /\
  (forall (l : loop TenderlyProvider ext) req q provider (fuel : nat),
      (1 <= fuel)%nat ->
      quiescent l ->
      forkProviderPromise (this l) = Some q ->
      promises l !! q = Some (Settled (Resolved provider)) ->
      nullish provider = false ->
      method req <> "eth_chainId"%string ->
      (method req = "eth_blockNumber"%string -> truthy (blockNumber (this l)) = false) ->
      exists l1,
        invoke fuel (request req) l = Some (length (promises l), l1) /\
        calls l1 = calls l ++ [ForkSend provider (method req) (params_or_empty req)] /\
        this l1 = this l /\
        (method req <> "eth_sendTransaction"%string ->
         forall result, exists l2,
           reply fuel (length (calls l)) (Resolved result) l1 = Some l2 /\
           promises l2 !! length (promises l) = Some (Settled (Resolved result)) /\
           calls l2 = calls l1 /\
           this l2 = this l)).
Proof.
  assert (Hcached : forall (l : loop TenderlyProvider ext) req,
    (method req = "eth_blockNumber"%string -> truthy (blockNumber (this l)) = false) ->
    String.eqb (method req) "eth_blockNumber" && truthy (blockNumber (this l)) = false).
  { intros l req H. destruct (String.eqb_spec (method req) "eth_blockNumber") as [e|];
      [rewrite (H e)|]; reflexivity. }
  split; [|split].
  - intros l req json fuel Hfuel Hq Hf Hs Hsf.
    assert (Hj : nullish json = false) by (destruct json; cbn in Hsf |- *; congruence).
    do 2 eexists. split; [|split; [|split; [|split; [|split; [|split; [|split]]]]]].
    + eapply invoke_mono; [eapply request_spawns_fork; eassumption | lia].
    + reflexivity.
    + reflexivity.
    + eapply reply_mono; [eapply fork_spawned; eassumption | lia].
    + reflexivity.
    + reflexivity.
    + cbn [promises]. rewrite lookup_app_r by lia.
      replace (S (length (promises l)) - length (promises l))%nat
        with 1%nat by lia. reflexivity.
    + reflexivity.
  - intros l req o fuel Hfuel Hq Hf Hs Hc Hb.
    apply String.eqb_neq in Hc. apply Hcached in Hb.
    do 2 eexists. split; [|split; [|split; [|split; [|split; [|split]]]]].
    + eapply invoke_mono; [eapply request_passed_through; eassumption | lia].
    + reflexivity.
    + reflexivity.
    + eapply reply_mono; [eapply passed_through_answer; eassumption | lia].
    + cbn [promises]. rewrite lookup_app_r by lia. rewrite Nat.sub_diag. reflexivity.
    + reflexivity.
    + reflexivity.
  - intros l req q provider fuel Hfuel Hq Hf Hp Hn Hc Hb.
    apply String.eqb_neq in Hc. apply Hcached in Hb.
    eexists. split; [|split; [|split]].
    + eapply invoke_mono; [eapply request_routed_to_fork; eassumption | lia].
    + reflexivity.
    + reflexivity.
    + intros Hs result. apply String.eqb_neq in Hs.
      eexists. split; [|split; [|split]].
      * eapply reply_mono; [eapply fork_send_resolved_plain; eassumption | lia].
      * cbn [promises]. rewrite lookup_app_r by lia. rewrite Nat.sub_diag.
        reflexivity.
      * reflexivity.
      * reflexivity.
Qed.

(** C7: the catch block replaces exactly the errors with
    [e.error.code === -32603]; a request sent to the fork that fails with
    such an error is rejected with Error("Error sending request to
    Tenderly"), one that fails with any other error object is rejected with
    that error; an error of the live provider on the pass-through path and an
    error of the control API while creating the fork reach the caller
    unchanged. *)
Theorem C7_error_policy :
  (forall e, is_rate_limit_error e = true <->
             get (get e "error") "code" = VNum (-32603)) /\
  (forall (l : loop TenderlyProvider ext) req q provider e (fuel : nat),
      (1 <= fuel)%nat ->
      quiescent l ->
      forkProviderPromise (this l) = Some q ->
      promises l !! q = Some (Settled (Resolved provider)) ->
      nullish provider = false ->
      method req <> "eth_chainId"%string ->
      (method req = "eth_blockNumber"%string -> truthy (blockNumber (this l)) = false) ->
      nullish e = false ->
      exists l1 l2,
        invoke fuel (request req) l = Some (length (promises l), l1) /\
        calls l1 = calls l ++ [ForkSend provider (method req) (params_or_empty req)] /\
        reply fuel (length (calls l)) (Rejected e) l1 = Some l2 /\
        promises l2 !! length (promises l) =
          Some (Settled (Rejected
                  (if is_rate_limit_error e
                   then Error "Error sending request to Tenderly"
                   else e)))) /\
  (forall (l : loop TenderlyProvider ext) req e (fuel : nat),
      (1 <= fuel)%nat ->
      quiescent l ->
      forkProviderPromise (this l) = None ->
      spawns_fork (method req) = false ->
      method req <> "eth_chainId"%string ->
      (method req = "eth_blockNumber"%string -> truthy (blockNumber (this l)) = false) ->
      exists l1 l2,
        invoke fuel (request req) l = Some (length (promises l), l1) /\
        calls l1 = calls l ++ [ProviderRequest req] /\
        reply fuel (length (calls l)) (Rejected e) l1 = Some l2 /\
        promises l2 !! length (promises l) = Some (Settled (Rejected e))) /\
  (forall (l : loop TenderlyProvider ext) req e (fuel : nat),
      (2 <= fuel)%nat ->
      quiescent l ->
      forkProviderPromise (this l) = None ->
      spawns_fork (method req) = true ->
      exists l1 l2,
        invoke fuel (request req) l = Some (length (promises l), l1) /\
        calls l1 = calls l ++ [PostFork (toString10 (chainId (this l))) VUndefined] /\
        reply fuel (length (calls l)) (Rejected e) l1 = Some l2 /\
        promises l2 !! length (promises l) = Some (Settled (Rejected e))).
Proof.
  assert (Hcached : forall (l : loop TenderlyProvider ext) req,
    (method req = "eth_blockNumber"%string -> truthy (blockNumber (this l)) = false) ->
    String.eqb (method req) "eth_blockNumber" && truthy (blockNumber (this l)) = false).
  { intros l req H. destruct (String.eqb_spec (method req) "eth_blockNumber") as [e|];
      [rewrite (H e)|]; reflexivity. }
  split; [exact is_rate_limit_error_spec|]. split; [|split].
  - intros l req q provider e fuel Hfuel Hq Hf Hp Hn Hc Hb He.
    apply String.eqb_neq in Hc. apply Hcached in Hb.
    do 2 eexists. split; [|split; [|split]].
    + eapply invoke_mono; [eapply request_routed_to_fork; eassumption | lia].
    + reflexivity.
    + eapply reply_mono; [eapply fork_send_rejected; eassumption | lia].
    + cbn [promises]. rewrite lookup_app_r by lia. rewrite Nat.sub_diag.
      unfold rethrown. rewrite He. reflexivity.
  - intros l req e fuel Hfuel Hq Hf Hs Hc Hb.
    apply String.eqb_neq in Hc. apply Hcached in Hb.
    do 2 eexists. split; [|split; [|split]].
    + eapply invoke_mono; [eapply request_passed_through; eassumption | lia].
    + reflexivity.
    + eapply reply_mono; [eapply passed_through_answer; eassumption | lia].
    + cbn [promises]. rewrite lookup_app_r by lia. rewrite Nat.sub_diag. reflexivity.
  - intros l req e fuel Hfuel Hq Hf Hs.
    do 2 eexists. split; [|split; [|split]].
    + eapply invoke_mono; [eapply request_spawns_fork; eassumption | lia].
    + reflexivity.
    + eapply reply_mono; [eapply fork_not_spawned; eassumption | lia].
    + cbn [promises]. rewrite lookup_app_r by lia. rewrite Nat.sub_diag. reflexivity.
Qed.

Lemma quiescent_newLoop chainId : quiescent (newLoop chainId).
Proof. split; [reflexivity | constructor]. Qed.

Lemma quiescent_sentOne : quiescent sentOne.
Proof. split; [reflexivity | constructor]. Qed.

(** [sentOne] is where the provider of chain 1 stands after its first
    eth_sendTransaction. *)
Example sentOne_reached :
  andThen (invoke 2 (request sendTransaction) (newLoop 1)) (fun r =>
  andThen (reply 2 0 (Resolved (forkJson "F1" 100)) (snd r)) (fun l =>
  andThen (reply 2 1 (Resolved (VStr "0xhash")) l) (fun l =>
  reply 2 2 (Resolved (forkJson "F1" 101)) l))) = Some sentOne.
Proof. reflexivity. Qed.

(** What refork leaves behind when a fork exists: deleteFork, started
    first, resumes after refork has stored the promise of the new fork and
    clears it, so the provider refork returns belongs to a fork the fields
    no longer lead to. *)
Example refork_clears_the_new_promise :
  andThen (invoke 2 refork sentOne) (fun r =>
  andThen (reply 2 3 (Resolved (forkJson "F2" 200)) (snd r)) (fun l =>
  Some (promises l !! fst r, forkProviderPromise (this l), forkId (this l),
        calls l))) =
  Some (Some (Settled (Resolved (JsonRpcProvider (VStr "F2")))), None, VStr "F2",
        calls sentOne ++ [PostFork "1" VUndefined; DeleteFork (VStr "F1")]).
Proof. reflexivity. Qed.

(** On [sentOne]: two eth_blockNumber requests in a row; a second
    transaction; the timer of the first. *)
Lemma C5_witness :
  (exists l,
      invoke_each 0 (map request [ethBlockNumber; ethBlockNumber]) sentOne =
      Some ([3; 4]%nat, l) /\
      calls l = calls sentOne /\
      promises l !! 3%nat = Some (Settled (Resolved (VNum 101))) /\
      promises l !! 4%nat = Some (Settled (Resolved (VNum 101)))) /\
  (exists l1 l2 l3,
      invoke 2 (request sendTransaction) sentOne = Some (3%nat, l1) /\
      reply 2 3 (Resolved (VStr "0xhash2")) l1 = Some l2 /\
      reply 2 4 (Resolved (forkJson "F1" 102)) l2 = Some l3 /\
      promises l3 !! 3%nat = Some (Settled (Resolved (VStr "0xhash2"))) /\
      blockNumber (this l3) = VNum 102 /\
      length (timers l3) = 2%nat /\
      length (calls l3) = 5%nat) /\
  (exists l1 l2,
      fire 1 0 sentOne = Some l1 /\
      reply 1 3 (Resolved VNull) l1 = Some l2 /\
      blockNumber (this l2) = VNum 103).
Proof.
  destruct C5_block_number_cache as (Hcached & Hsend & Hadvance).
  split; [|split].
  - eexists. split; [|split; [|split]].
    + apply (Hcached sentOne [ethBlockNumber; ethBlockNumber] 0%nat).
      * exact quiescent_sentOne.
      * reflexivity.
      * repeat constructor.
    + reflexivity.
    + reflexivity.
    + reflexivity.
  - destruct (Hsend sentOne sendTransaction 1%nat (JsonRpcProvider (VStr "F1"))
                (VStr "0xhash2") (forkJson "F1" 102) 2%nat)
      as (l1 & l2 & l3 & Hi & Hr1 & Hr2 & _ & Hp & Hb & Hc & Ht);
      [lia | exact quiescent_sentOne | reflexivity | reflexivity | reflexivity
       | reflexivity | reflexivity | reflexivity |].
    exists l1, l2, l3. split; [exact Hi|]. split; [exact Hr1|]. split; [exact Hr2|].
    split; [exact Hp|]. split; [exact Hb|].
    split; [rewrite Ht | rewrite Hc]; reflexivity.
  - destruct (Hadvance sentOne 0%nat (JsonRpcProvider (VStr "F1")) 101 VNull 1%nat)
      as (l1 & l2 & Hf & _ & _ & Hr & Ht);
      [lia | exact quiescent_sentOne | reflexivity | reflexivity | lia |].
    exists l1, l2. split; [exact Hf|]. split; [exact Hr|].
    rewrite Ht. reflexivity.
Defined.

Lemma C6_witness :
  (exists l1 l2,
      invoke 2 (request sendTransaction) (newLoop 1) = Some (0%nat, l1) /\
      calls l1 = [PostFork "1" VUndefined] /\
      reply 2 0 (Resolved (forkJson "F1" 100)) l1 = Some l2 /\
      calls l2 = [PostFork "1" VUndefined;
                  ForkSend (JsonRpcProvider (VStr "F1")) "eth_sendTransaction" []]) /\
  (exists l1 l2,
      invoke 1 (request ethCall) (newLoop 1) = Some (0%nat, l1) /\
      calls l1 = [ProviderRequest ethCall] /\
      reply 1 0 (Resolved (VStr "0x2a")) l1 = Some l2 /\
      promises l2 !! 0%nat = Some (Settled (Resolved (VStr "0x2a")))) /\
  (exists l1 l2,
      invoke 1 (request ethCall) sentOne = Some (3%nat, l1) /\
      calls l1 = calls sentOne ++
                 [ForkSend (JsonRpcProvider (VStr "F1")) "eth_call" []] /\
      reply 1 3 (Resolved (VStr "0x2a")) l1 = Some l2 /\
      promises l2 !! 3%nat = Some (Settled (Resolved (VStr "0x2a")))).
Proof.
  destruct C6_lazy_fork as (Hspawn & Hlive & Hfork).
  split; [|split].
  - destruct (Hspawn (newLoop 1) sendTransaction (forkJson "F1" 100) 2%nat)
      as (l1 & l2 & Hi & Hc1 & _ & Hr & _ & _ & _ & Hc2);
      [lia | apply quiescent_newLoop | reflexivity | reflexivity | reflexivity |].
    exists l1, l2. split; [exact Hi|]. split; [exact Hc1|]. split; [exact Hr|].
    exact Hc2.
  - destruct (Hlive (newLoop 1) ethCall (Resolved (VStr "0x2a")) 1%nat)
      as (l1 & l2 & Hi & Hc1 & _ & Hr & Hp & _ & _);
      [lia | apply quiescent_newLoop | reflexivity | reflexivity
       | discriminate | discriminate |].
    exists l1, l2. split; [exact Hi|]. split; [exact Hc1|]. split; [exact Hr|].
    exact Hp.
  - destruct (Hfork sentOne ethCall 1%nat (JsonRpcProvider (VStr "F1")) 1%nat)
      as (l1 & Hi & Hc & _ & Hanswer);
      [lia | exact quiescent_sentOne | reflexivity | reflexivity | reflexivity
       | discriminate | discriminate |].
    destruct (Hanswer ltac:(discriminate) (VStr "0x2a")) as (l2 & Hr & Hp & _).
    exists l1, l2. split; [exact Hi|]. split; [exact Hc|].
    split; [exact Hr | exact Hp].
Defined.

Lemma C7_witness :
  is_rate_limit_error rateLimited = true /\
  (exists l1 l2,
      invoke 1 (request ethCall) sentOne = Some (3%nat, l1) /\
      reply 1 3 (Rejected rateLimited) l1 = Some l2 /\
      promises l2 !! 3%nat =
        Some (Settled (Rejected (Error "Error sending request to Tenderly")))) /\
  (exists l1 l2,
      invoke 1 (request ethCall) sentOne = Some (3%nat, l1) /\
      reply 1 3 (Rejected (Error "execution reverted")) l1 = Some l2 /\
      promises l2 !! 3%nat =
        Some (Settled (Rejected (Error "execution reverted")))) /\
  (exists l1 l2,
      invoke 1 (request ethCall) (newLoop 1) = Some (0%nat, l1) /\
      reply 1 0 (Rejected rateLimited) l1 = Some l2 /\
      promises l2 !! 0%nat = Some (Settled (Rejected rateLimited))) /\
  (exists l1 l2,
      invoke 2 (request sendTransaction) (newLoop 1) = Some (0%nat, l1) /\
      reply 2 0 (Rejected (Error "Failed to fetch")) l1 = Some l2 /\
      promises l2 !! 0%nat = Some (Settled (Rejected (Error "Failed to fetch")))).
Proof.
  destruct C7_error_policy as (Hcode & Hfork & Hlive & Hspawn).
  split; [apply Hcode; reflexivity|]. split; [|split; [|split]].
  - destruct (Hfork sentOne ethCall 1%nat (JsonRpcProvider (VStr "F1"))
                rateLimited 1%nat)
      as (l1 & l2 & Hi & _ & Hr & Hp);
      [lia | exact quiescent_sentOne | reflexivity | reflexivity | reflexivity
       | discriminate | discriminate | reflexivity |].
    exists l1, l2. split; [exact Hi|]. split; [exact Hr | exact Hp].
  - destruct (Hfork sentOne ethCall 1%nat (JsonRpcProvider (VStr "F1"))
                (Error "execution reverted") 1%nat)
      as (l1 & l2 & Hi & _ & Hr & Hp);
      [lia | exact quiescent_sentOne | reflexivity | reflexivity | reflexivity
       | discriminate | discriminate | reflexivity |].
    exists l1, l2. split; [exact Hi|]. split; [exact Hr | exact Hp].
  - destruct (Hlive (newLoop 1) ethCall rateLimited 1%nat)
      as (l1 & l2 & Hi & _ & Hr & Hp);
      [lia | apply quiescent_newLoop | reflexivity | reflexivity
       | discriminate | discriminate |].
    exists l1, l2. split; [exact Hi|]. split; [exact Hr | exact Hp].
  - destruct (Hspawn (newLoop 1) sendTransaction (Error "Failed to fetch") 2%nat)
      as (l1 & l2 & Hi & _ & Hr & Hp);
      [lia | apply quiescent_newLoop | reflexivity | reflexivity |].
    exists l1, l2. split; [exact Hi|]. split; [exact Hr | exact Hp].
Defined.


Lemma not_cached (l : loop TenderlyProvider ext) req :
  (method req = "eth_blockNumber"%string -> truthy (blockNumber (this l)) = false) ->
  String.eqb (method req) "eth_blockNumber" && truthy (blockNumber (this l)) = false.
Proof.
  intros H. destruct (String.eqb_spec (method req) "eth_blockNumber") as [e|];
    [rewrite (H e)|]; reflexivity.
Qed.

Lemma request_chainId (l : loop TenderlyProvider ext) req fuel :
  quiescent l ->
  method req = "eth_chainId"%string ->
  invoke fuel (request req) l =
  Some (length (promises l),
        {| this := this l;
           promises := promises l ++
             [Settled (Resolved (VStr ("0x" +:+ toString16 (chainId (this l)))))];
           blocked := blocked l;
           microtasks := [];
           calls := calls l;
           timers := timers l |}).
Proof.
  intros Hq Hm. unfold invoke, request. loop_simpl. rewrite Hm.
  cbn [String.eqb Ascii.eqb Bool.eqb]. loop_simpl.
  rewrite settle_own by assumption. destruct Hq as [-> _].
  rewrite drain_done by reflexivity. reflexivity.
Qed.

Lemma chainId_numeral n : 0 <= n -> "0x" +:+ toString16 n = HexString.of_Z n.
Proof. destruct n as [|p|p]; [reflexivity | reflexivity | lia]. Qed.

(** X5: eth_chainId is answered by the provider itself in every state,
    with a fork or without: nothing is asked of the wallet's provider, of the
    fork or of the control API, no field changes, and the answer is the
    hexadecimal numeral of the provider's chain id: read back, it is the
    chain id. *)
Theorem X5_chainId_answered_locally :
  forall (l : loop TenderlyProvider ext) req (fuel : nat),
    quiescent l ->
    method req = "eth_chainId"%string ->
    0 <= chainId (this l) ->
    exists l1 answer,
      invoke fuel (request req) l = Some (length (promises l), l1) /\
      promises l1 !! length (promises l) = Some (Settled (Resolved (VStr answer))) /\
      HexString.to_Z answer = chainId (this l) /\
      calls l1 = calls l /\ this l1 = this l /\ timers l1 = timers l.
Proof.
  intros l req fuel Hq Hm Hpos. do 2 eexists.
  split; [apply request_chainId; assumption|].
  split; [cbn [promises]; rewrite lookup_app_r by lia; rewrite Nat.sub_diag; reflexivity|].
  split; [|repeat split].
  rewrite chainId_numeral by assumption. apply HexString.to_Z_of_Z.
Qed.

Lemma deleteFork_without_fork (l : loop TenderlyProvider ext) :
  quiescent l ->
  forkProviderPromise (this l) = None ->
  truthy (forkId (this l)) = false ->
  invoke 1 deleteFork l =
  Some (length (promises l),
        {| this := this l;
           promises := promises l ++ [Settled (Resolved VUndefined)];
           blocked := blocked l;
           microtasks := [];
           calls := calls l;
           timers := timers l |}).
Proof.
  intros Hq Hf Hid. unfold invoke, deleteFork. loop_simpl. rewrite Hf. loop_simpl.
  destruct Hq as [Hm Hb]. rewrite Hm. cbn [app drain microtasks].
  unfold deleteFork_resume. loop_simpl. rewrite Hid. cbn [negb]. loop_simpl.
  rewrite settle_own by (split; assumption). reflexivity.
Qed.

Lemma deleteFork_with_fork (l : loop TenderlyProvider ext) q provider :
  quiescent l ->
  forkProviderPromise (this l) = Some q ->
  promises l !! q = Some (Settled (Resolved provider)) ->
  truthy (forkId (this l)) = true ->
  invoke 1 deleteFork l =
  Some (length (promises l),
        {| this := forgotten (this l);
           promises := promises l ++ [Pending];
           blocked := blocked l ++
             [{| awaiting := OnExt (length (calls l));
                 cont := unwrap (fun _ => Ret VUndefined);
                 own := length (promises l) |}];
           microtasks := [];
           calls := calls l ++ [DeleteFork (forkId (this l))];
           timers := timers l |}).
Proof.
  intros Hq Hf Hp Hid. unfold invoke, deleteFork. loop_simpl. rewrite Hf. loop_simpl.
  rewrite (lookup_snoc_old _ _ _ _ Hp).
  destruct Hq as [Hm Hb]. rewrite Hm. cbn [app drain microtasks].
  unfold deleteFork_resume. loop_simpl. rewrite Hid. cbn [negb]. loop_simpl.
  tenderly_simpl. reflexivity.
Qed.

Lemma fork_deleted (l : loop TenderlyProvider ext) s fid o :
  quiescent l ->
  reply 1 (length (calls l)) o
    {| this := s;
       promises := promises l ++ [Pending];
       blocked := blocked l ++
         [{| awaiting := OnExt (length (calls l));
             cont := unwrap (fun _ => Ret VUndefined);
             own := length (promises l) |}];
       microtasks := [];
       calls := calls l ++ [DeleteFork fid];
       timers := timers l |} =
  Some {| this := s;
          promises := promises l ++
            [Settled (match o with
                      | Resolved _ => Resolved VUndefined
                      | Rejected e => Rejected e
                      end)];
          blocked := blocked l;
          microtasks := [];
          calls := calls l ++ [DeleteFork fid];
          timers := timers l |}.
Proof.
  intros Hq. rewrite (reply_newest 1 l (blocked l)) by (assumption || reflexivity).
  cbn [app drain microtasks]. destruct o; loop_simpl;
    rewrite settle_own by assumption; reflexivity.
Qed.

Section LoopFacts5.
Context {Fields E : Type}.
Implicit Types l : loop Fields E.

(** A job that leaves more functions suspended. *)
Lemma quiescent_more l l' ts :
  quiescent l ->
  microtasks l' = [] ->
  blocked l' = blocked l ++ ts ->
  (length (calls l) <= length (calls l'))%nat ->
  (length (promises l) <= length (promises l'))%nat ->
  Forall (fun t => match awaiting t with
                   | OnExt c => (c < length (calls l'))%nat
                   | OnPromise p => (p < length (promises l'))%nat
                   end) ts ->
  quiescent l'.
Proof.
  intros [_ Hall] Hm Hb Hc Hp Hts. split; [assumption|]. rewrite Hb.
  apply List.Forall_app. split; [|assumption].
  revert Hall. apply List.Forall_impl. intros t. destruct (awaiting t); lia.
Qed.
End LoopFacts5.

(** X6: deleteFork sends at most one DELETE per fork. Without a fork it
    returns without any call and without touching a field. With a fork it
    clears forkId, forkProviderPromise and the cached block number, the
    transaction ids staying, and sends one DELETE for the fork's id; a
    second deleteFork made before the answer sends nothing; and the first
    one returns when its DELETE has been answered, or fails with the error of
    the DELETE, the fields staying cleared. *)
Theorem X6_deleteFork_once :
  (forall (l : loop TenderlyProvider ext) (fuel : nat),
      (1 <= fuel)%nat ->
      quiescent l ->
      forkProviderPromise (this l) = None ->
      truthy (forkId (this l)) = false ->
      exists l1,
        invoke fuel deleteFork l = Some (length (promises l), l1) /\
        promises l1 !! length (promises l) = Some (Settled (Resolved VUndefined)) /\
        this l1 = this l /\ calls l1 = calls l) /\
  (forall (l : loop TenderlyProvider ext) q provider o (fuel : nat),
      (1 <= fuel)%nat ->
      quiescent l ->
      forkProviderPromise (this l) = Some q ->
      promises l !! q = Some (Settled (Resolved provider)) ->
      truthy (forkId (this l)) = true ->
      exists l1 l2 l3,
        invoke fuel deleteFork l = Some (length (promises l), l1) /\
        calls l1 = calls l ++ [DeleteFork (forkId (this l))] /\
        forkProviderPromise (this l1) = None /\
        forkId (this l1) = VUndefined /\
        blockNumber (this l1) = VUndefined /\
        transactionIds (this l1) = transactionIds (this l) /\
        invoke fuel deleteFork l1 = Some (S (length (promises l)), l2) /\
        calls l2 = calls l1 /\
        this l2 = this l1 /\
        promises l2 !! S (length (promises l)) =
          Some (Settled (Resolved VUndefined)) /\
        reply fuel (length (calls l)) o l1 = Some l3 /\
        promises l3 !! length (promises l) =
          Some (Settled (match o with
                         | Resolved _ => Resolved VUndefined
                         | Rejected e => Rejected e
                         end)) /\
        this l3 = this l1 /\
        calls l3 = calls l1).
Proof.
  split.
  - intros l fuel Hfuel Hq Hf Hid. eexists.
    split; [eapply invoke_mono; [apply deleteFork_without_fork; assumption|lia]|].
    split; [cbn [promises]; rewrite lookup_app_r by lia; rewrite Nat.sub_diag; reflexivity|].
    split; reflexivity.
  - intros l q provider o fuel Hfuel Hq Hf Hp Hid.
    pose proof (deleteFork_with_fork l q provider Hq Hf Hp Hid) as H1.
    match type of H1 with _ = Some (_, ?s) => set (l1 := s) in * end.
    assert (Hq1 : quiescent l1).
    { apply (quiescent_more l l1 [{| awaiting := OnExt (length (calls l));
                                    cont := unwrap (fun _ => Ret VUndefined);
                                    own := length (promises l) |}]);
        [assumption|reflexivity|reflexivity| | |].
      - cbn. rewrite length_app. lia.
      - cbn. rewrite length_app. lia.
      - constructor; [|constructor]. cbn. rewrite length_app. cbn. lia. }
    pose proof (deleteFork_without_fork l1 Hq1 eq_refl eq_refl) as H2.
    replace (length (promises l1)) with (S (length (promises l))) in H2
      by (cbn; rewrite length_app; cbn; lia).
    do 3 eexists.
    split; [eapply invoke_mono; [exact H1|lia]|].
    split; [reflexivity|]. split; [reflexivity|]. split; [reflexivity|].
    split; [reflexivity|]. split; [reflexivity|].
    split; [eapply invoke_mono; [exact H2|lia]|].
    split; [reflexivity|]. split; [reflexivity|].
    split; [cbn [promises l1]; rewrite lookup_app_r by (rewrite length_app; cbn; lia);
            rewrite length_app; cbn [length];
            replace (S (length (promises l)) - (length (promises l) + 1))%nat
              with 0%nat by lia; reflexivity|].
    split; [eapply reply_mono; [apply fork_deleted; assumption|lia]|].
    split; [cbn [promises]; rewrite lookup_app_r by lia; rewrite Nat.sub_diag; reflexivity|].
    split; reflexivity.
Qed.

(** a failed fork creation *)
Lemma request_after_failed_fork (l : loop TenderlyProvider ext) req q e :
  quiescent l ->
  String.eqb (method req) "eth_chainId" = false ->
  String.eqb (method req) "eth_blockNumber" && truthy (blockNumber (this l)) = false ->
  forkProviderPromise (this l) = Some q ->
  promises l !! q = Some (Settled (Rejected e)) ->
  invoke 1 (request req) l =
  Some (length (promises l),
        {| this := this l;
           promises := promises l ++ [Settled (Rejected e)];
           blocked := blocked l;
           microtasks := [];
           calls := calls l;
           timers := timers l |}).
Proof.
  intros Hq Hc Hb Hf Hp. unfold invoke, request. loop_simpl.
  rewrite Hc, Hb, Hf. unfold sendToFork. loop_simpl. rewrite Hf. loop_simpl.
  rewrite (lookup_snoc_old _ _ _ _ Hp). destruct Hq as [Hm Hbl]. rewrite Hm.
  cbn [app drain microtasks]. unfold withForkProvider. loop_simpl.
  rewrite settle_own by (split; assumption). reflexivity.
Qed.

Lemma deleteFork_after_failed_fork (l : loop TenderlyProvider ext) q e :
  quiescent l ->
  forkProviderPromise (this l) = Some q ->
  promises l !! q = Some (Settled (Rejected e)) ->
  invoke 1 deleteFork l =
  Some (length (promises l),
        {| this := this l;
           promises := promises l ++ [Settled (Rejected e)];
           blocked := blocked l;
           microtasks := [];
           calls := calls l;
           timers := timers l |}).
Proof.
  intros Hq Hf Hp. unfold invoke, deleteFork. loop_simpl. rewrite Hf. loop_simpl.
  rewrite (lookup_snoc_old _ _ _ _ Hp). destruct Hq as [Hm Hbl]. rewrite Hm.
  cbn [app drain microtasks]. unfold deleteFork_resume. loop_simpl.
  rewrite settle_own by (split; assumption). reflexivity.
Qed.

(** X7: a fork creation that failed is not tried again. After a request
    has asked for a fork and the control API has rejected,
    forkProviderPromise keeps the rejected promise: every later request (but
    eth_chainId, and eth_blockNumber while a block number is cached) fails
    with the same error without any call, and so does deleteFork, which
    clears nothing. *)
Theorem X7_failed_fork_sticks :
  forall (l : loop TenderlyProvider ext) first e (fuel : nat),
    (2 <= fuel)%nat ->
    quiescent l ->
    forkProviderPromise (this l) = None ->
    spawns_fork (method first) = true ->
    exists l1 l2,
      invoke fuel (request first) l = Some (length (promises l), l1) /\
      reply fuel (length (calls l)) (Rejected e) l1 = Some l2 /\
      quiescent l2 /\
      calls l2 = calls l ++ [PostFork (toString10 (chainId (this l))) VUndefined] /\
      (forall req,
          method req <> "eth_chainId"%string ->
          (method req = "eth_blockNumber"%string ->
           truthy (blockNumber (this l)) = false) ->
          exists l3,
            invoke fuel (request req) l2 = Some (length (promises l2), l3) /\
            promises l3 !! length (promises l2) = Some (Settled (Rejected e)) /\
            calls l3 = calls l2 /\ this l3 = this l2) /\
      (exists l3,
          invoke fuel deleteFork l2 = Some (length (promises l2), l3) /\
          promises l3 !! length (promises l2) = Some (Settled (Rejected e)) /\
          calls l3 = calls l2 /\ this l3 = this l2).
Proof.
  intros l first e fuel Hfuel Hq Hf Hs.
  pose proof (request_spawns_fork l first Hq Hf Hs) as H1.
  pose proof (fork_not_spawned l first e Hq) as H2.
  match type of H2 with _ = Some ?s => set (l2 := s) in * end.
  assert (Hq2 : quiescent l2).
  { eapply quiescent_grow; [exact Hq|reflexivity|reflexivity| |];
      cbn; rewrite length_app; lia. }
  assert (Hp2 : promises l2 !! S (length (promises l)) = Some (Settled (Rejected e))).
  { cbn [promises l2]. rewrite lookup_app_r by lia.
    replace (S (length (promises l)) - length (promises l))%nat with 1%nat by lia.
    reflexivity. }
  do 2 eexists.
  split; [eapply invoke_mono; [exact H1|lia]|].
  split; [eapply reply_mono; [exact H2|lia]|].
  split; [exact Hq2|]. split; [reflexivity|]. split.
  - intros req Hc Hb. apply String.eqb_neq in Hc.
    eexists. split.
    + eapply invoke_mono;
        [apply (request_after_failed_fork l2 req (S (length (promises l))) e Hq2 Hc)|lia].
      * apply not_cached. exact Hb.
      * reflexivity.
      * exact Hp2.
    + split; [cbn [promises]; rewrite lookup_app_r by lia; rewrite Nat.sub_diag;
              reflexivity|]. split; reflexivity.
  - eexists. split.
    + eapply invoke_mono;
        [apply (deleteFork_after_failed_fork l2 (S (length (promises l))) e Hq2 eq_refl Hp2)|lia].
    + split; [cbn [promises]; rewrite lookup_app_r by lia; rewrite Nat.sub_diag;
              reflexivity|]. split; reflexivity.
Qed.

(** a request while the fork is being created *)
Lemma request_joins_fork (l : loop TenderlyProvider ext) req p :
  quiescent l ->
  String.eqb (method req) "eth_chainId" = false ->
  String.eqb (method req) "eth_blockNumber" && truthy (blockNumber (this l)) = false ->
  forkProviderPromise (this l) = Some p ->
  promises l !! p = Some Pending ->
  invoke 0 (request req) l =
  Some (length (promises l),
        {| this := this l;
           promises := promises l ++ [Pending];
           blocked := blocked l ++
             [{| awaiting := OnPromise p;
                 cont := withForkProvider req;
                 own := length (promises l) |}];
           microtasks := [];
           calls := calls l;
           timers := timers l |}).
Proof.
  intros Hq Hc Hb Hf Hp. unfold invoke, request. loop_simpl.
  rewrite Hc, Hb, Hf. unfold sendToFork. loop_simpl. rewrite Hf. loop_simpl.
  rewrite (lookup_snoc_old _ _ _ _ Hp). destruct Hq as [-> _]. reflexivity.
Qed.

Lemma insert_middle_of_three {A} (xs : list A) (x y z v : A) :
  <[S (length xs) := v]> (xs ++ [x; y; z]) = xs ++ [x; v; z].
Proof.
  rewrite insert_app_r_alt by lia.
  replace (S (length xs) - length xs)%nat with 1%nat by lia. reflexivity.
Qed.

Lemma fork_spawned_for_two (l : loop TenderlyProvider ext) req1 req2 json :
  quiescent l ->
  nullish json = false ->
  nullish (get json "simulation_fork") = false ->
  reply 3 (length (calls l)) (Resolved json)
    {| this := set_forkProviderPromise (Some (S (length (promises l)))) (this l);
       promises := promises l ++ [Pending; Pending; Pending];
       blocked := blocked l ++
         [{| awaiting := OnExt (length (calls l));
             cont := afterPostFork;
             own := S (length (promises l)) |};
          {| awaiting := OnPromise (S (length (promises l)));
             cont := withForkProvider req1;
             own := length (promises l) |};
          {| awaiting := OnPromise (S (length (promises l)));
             cont := withForkProvider req2;
             own := S (S (length (promises l))) |}];
       microtasks := [];
       calls := calls l ++ [PostFork (toString10 (chainId (this l))) VUndefined];
       timers := timers l |} =
  let fork := get json "simulation_fork" in
  let provider := JsonRpcProvider (get fork "id") in
  Some {| this :=
            {| chainId := chainId (this l);
               forkProviderPromise := Some (S (length (promises l)));
               forkId := get fork "id";
               transactionIds := [];
               blockNumber := get fork "block_number" |};
          promises := promises l ++ [Pending; Settled (Resolved provider); Pending];
          blocked := blocked l ++
            [{| awaiting := OnExt (S (length (calls l)));
                cont := afterSend req1 provider;
                own := length (promises l) |};
             {| awaiting := OnExt (S (S (length (calls l))));
                cont := afterSend req2 provider;
                own := S (S (length (promises l))) |}];
          microtasks := [];
          calls := calls l ++
            [PostFork (toString10 (chainId (this l))) VUndefined;
             ForkSend provider (method req1) (params_or_empty req1);
             ForkSend provider (method req2) (params_or_empty req2)];
          timers := timers l |}.
Proof.
  intros Hq Hj Hsf. cbv zeta. unfold reply. loop_simpl.
  rewrite !List.filter_app.
  destruct (quiescent_calls l (length (calls l)) Hq (le_n _)) as [-> ->].
  cbn [List.filter waits_on_call awaiting]. rewrite Nat.eqb_refl.
  cbn [negb app map cont own drain microtasks].
  unfold afterPostFork. loop_simpl. rewrite Hj, Hsf. cbn [orb]. loop_simpl.
  unfold settle. loop_simpl.
  rewrite insert_middle_of_three, !List.filter_app.
  destruct (quiescent_promises l (S (length (promises l))) Hq
              ltac:(lia)) as [-> ->].
  cbn [List.filter waits_on awaiting]. rewrite Nat.eqb_refl.
  cbn [negb app map cont own drain microtasks].
  unfold withForkProvider. loop_simpl. cbn [nullish JsonRpcProvider].
  loop_simpl. tenderly_simpl.
  rewrite app_nil_r, !length_app. cbn [length]. rewrite !Nat.add_1_r.
  rewrite <- !app_assoc. reflexivity.
Qed.

(** X8: the fork is created once. A request that arrives while the fork
    of an earlier one is still being created does not post to the control
    API again, not even when it is an eth_sendTransaction itself; when the
    fork is there both requests are sent to it, in the order they were
    made. *)
Theorem X8_fork_created_once :
  forall (l : loop TenderlyProvider ext) req1 req2 json (fuel : nat),
    (3 <= fuel)%nat ->
    quiescent l ->
    forkProviderPromise (this l) = None ->
    spawns_fork (method req1) = true ->
    method req2 <> "eth_chainId"%string ->
    (method req2 = "eth_blockNumber"%string ->
     truthy (blockNumber (this l)) = false) ->
    nullish (get json "simulation_fork") = false ->
    let provider := JsonRpcProvider (get (get json "simulation_fork") "id") in
    exists l1 l2 l3,
      invoke fuel (request req1) l = Some (length (promises l), l1) /\
      invoke fuel (request req2) l1 = Some (S (S (length (promises l))), l2) /\
      calls l2 = calls l ++ [PostFork (toString10 (chainId (this l))) VUndefined] /\
      reply fuel (length (calls l)) (Resolved json) l2 = Some l3 /\
      calls l3 = calls l ++
        [PostFork (toString10 (chainId (this l))) VUndefined;
         ForkSend provider (method req1) (params_or_empty req1);
         ForkSend provider (method req2) (params_or_empty req2)].
Proof.
  intros l req1 req2 json fuel Hfuel Hq Hf Hs Hc Hb Hsf provider.
  assert (Hj : nullish json = false) by (destruct json; cbn in Hsf |- *; congruence).
  apply String.eqb_neq in Hc.
  pose proof (request_spawns_fork l req1 Hq Hf Hs) as H1.
  match type of H1 with _ = Some (_, ?s) => set (l1 := s) in * end.
  assert (Hlen1 : length (promises l1) = S (S (length (promises l)))).
  { cbn. rewrite length_app. cbn. lia. }
  assert (Hq1 : quiescent l1).
  { eapply (quiescent_more l l1); [exact Hq|reflexivity|reflexivity| | |].
    - cbn. rewrite length_app. lia.
    - lia.
    - repeat constructor; cbn; rewrite length_app; cbn; lia. }
  assert (Hp1 : promises l1 !! S (length (promises l)) = Some Pending).
  { cbn [promises l1]. rewrite lookup_app_r by lia.
    replace (S (length (promises l)) - length (promises l))%nat with 1%nat by lia.
    reflexivity. }
  pose proof (not_cached l req2 Hb) as Hb1.
  pose proof (request_joins_fork l1 req2 (S (length (promises l))) Hq1 Hc
                Hb1 eq_refl Hp1) as H2.
  rewrite Hlen1 in H2.
  pose proof (fork_spawned_for_two l req1 req2 json Hq Hj Hsf) as H3.
  cbv zeta in H3.
  do 3 eexists.
  split; [eapply invoke_mono; [exact H1|lia]|].
  split; [eapply invoke_mono; [exact H2|lia]|].
  split; [reflexivity|].
  match type of H3 with _ = ?rhs =>
  assert (H3' : reply 3 (length (calls l)) (Resolved json)
            {| this := this l1;
               promises := promises l1 ++ [Pending];
               blocked := blocked l1 ++
                 [{| awaiting := OnPromise (S (length (promises l)));
                     cont := withForkProvider req2;
                     own := S (S (length (promises l))) |}];
               microtasks := [];
               calls := calls l1;
               timers := timers l1 |} = rhs) end.
  { rewrite <- H3. f_equal. cbn [l1 this promises blocked calls timers].
    rewrite <- !app_assoc. reflexivity. }
  split; [eapply reply_mono; [exact H3'|exact Hfuel]|].
  reflexivity.
Qed.

(** refork *)
Lemma lookup_snoc2_old {A} (xs : list A) (x1 x2 y : A) (i : nat) :
  xs !! i = Some y -> ((xs ++ [x1]) ++ [x2]) !! i = Some y.
Proof. intros H. apply lookup_app_l_Some, lookup_app_l_Some, H. Qed.

Lemma refork_with_fork (l : loop TenderlyProvider ext) q provider0 :
  quiescent l ->
  forkProviderPromise (this l) = Some q ->
  promises l !! q = Some (Settled (Resolved provider0)) ->
  truthy (forkId (this l)) = true ->
  invoke 1 refork l =
  Some (length (promises l),
        {| this := forgotten (this l);
           promises := promises l ++ [Pending; Pending; Pending];
           blocked := blocked l ++
             [{| awaiting := OnExt (length (calls l));
                 cont := afterPostFork;
                 own := S (S (length (promises l))) |};
              {| awaiting := OnPromise (S (S (length (promises l))));
                 cont := unwrap Ret;
                 own := length (promises l) |};
              {| awaiting := OnExt (S (length (calls l)));
                 cont := unwrap (fun _ => Ret VUndefined);
                 own := S (length (promises l)) |}];
           microtasks := [];
           calls := calls l ++
             [PostFork (toString10 (chainId (this l))) VUndefined;
              DeleteFork (forkId (this l))];
           timers := timers l |}).
Proof.
  intros Hq Hf Hp Hid. unfold invoke, refork. loop_simpl.
  unfold deleteFork. loop_simpl. rewrite Hf. loop_simpl.
  rewrite (lookup_snoc2_old _ _ _ _ _ Hp). loop_simpl.
  unfold createFork. loop_simpl.
  cbn [set_forkProviderPromise forkProviderPromise].
  rewrite !length_app. cbn [length]. rewrite !Nat.add_1_r.
  rewrite <- !app_assoc. cbn [app].
  replace ((promises l ++ [Pending; Pending; Pending]) !! S (S (length (promises l))))
    with (Some Pending).
  2:{ symmetry. rewrite lookup_app_r by lia.
      replace (S (S (length (promises l))) - length (promises l))%nat with 2%nat by lia.
      reflexivity. }
  destruct Hq as [Hm Hb]. rewrite Hm. cbn [app drain microtasks].
  unfold deleteFork_resume. loop_simpl. tenderly_simpl. rewrite Hid. cbn [negb].
  loop_simpl. tenderly_simpl.
  rewrite !length_app. cbn [length]. rewrite !Nat.add_1_r.
  rewrite <- !app_assoc. reflexivity.
Qed.

Lemma insert_third {A} (xs : list A) (x y z v : A) :
  <[S (S (length xs)) := v]> (xs ++ [x; y; z]) = xs ++ [x; y; v].
Proof.
  rewrite insert_app_r_alt by lia.
  replace (S (S (length xs)) - length xs)%nat with 2%nat by lia. reflexivity.
Qed.

Lemma insert_first_of_three {A} (xs : list A) (x y z v : A) :
  <[length xs := v]> (xs ++ [x; y; z]) = xs ++ [v; y; z].
Proof.
  rewrite insert_app_r_alt by lia. rewrite Nat.sub_diag. reflexivity.
Qed.

Lemma reforked_with_fork (l : loop TenderlyProvider ext) json :
  quiescent l ->
  nullish json = false ->
  nullish (get json "simulation_fork") = false ->
  reply 2 (length (calls l)) (Resolved json)
    {| this := forgotten (this l);
       promises := promises l ++ [Pending; Pending; Pending];
       blocked := blocked l ++
         [{| awaiting := OnExt (length (calls l));
             cont := afterPostFork;
             own := S (S (length (promises l))) |};
          {| awaiting := OnPromise (S (S (length (promises l))));
             cont := unwrap Ret;
             own := length (promises l) |};
          {| awaiting := OnExt (S (length (calls l)));
             cont := unwrap (fun _ => Ret VUndefined);
             own := S (length (promises l)) |}];
       microtasks := [];
       calls := calls l ++
         [PostFork (toString10 (chainId (this l))) VUndefined;
          DeleteFork (forkId (this l))];
       timers := timers l |} =
  let fork := get json "simulation_fork" in
  let provider := JsonRpcProvider (get fork "id") in
  Some {| this :=
            {| chainId := chainId (this l);
               forkProviderPromise := None;
               forkId := get fork "id";
               transactionIds := [];
               blockNumber := get fork "block_number" |};
          promises := promises l ++
            [Settled (Resolved provider); Pending; Settled (Resolved provider)];
          blocked := blocked l ++
            [{| awaiting := OnExt (S (length (calls l)));
                cont := unwrap (fun _ => Ret VUndefined);
                own := S (length (promises l)) |}];
          microtasks := [];
          calls := calls l ++
            [PostFork (toString10 (chainId (this l))) VUndefined;
             DeleteFork (forkId (this l))];
          timers := timers l |}.
Proof.
  intros Hq Hj Hsf. cbv zeta. unfold reply. loop_simpl.
  rewrite !List.filter_app.
  destruct (quiescent_calls l (length (calls l)) Hq (le_n _)) as [-> ->].
  cbn [List.filter waits_on_call awaiting]. rewrite Nat.eqb_refl.
  replace (Nat.eqb (length (calls l)) (S (length (calls l)))) with false
    by (symmetry; apply Nat.eqb_neq; lia).
  cbn [negb app map cont own drain microtasks].
  unfold afterPostFork. loop_simpl. rewrite Hj, Hsf. cbn [orb]. loop_simpl.
  unfold settle. loop_simpl.
  rewrite insert_third, !List.filter_app.
  destruct (quiescent_promises l (S (S (length (promises l)))) Hq
              ltac:(lia)) as [-> ->].
  cbn [List.filter waits_on awaiting]. rewrite Nat.eqb_refl.
  cbn [negb app map cont own drain microtasks].
  loop_simpl. tenderly_simpl. unfold settle. loop_simpl.
  rewrite insert_first_of_three, !List.filter_app.
  destruct (quiescent_promises l (length (promises l)) Hq (le_n _)) as [-> ->].
  cbn [List.filter waits_on awaiting]. 
  cbn [negb app map cont own drain microtasks forgotten chainId].
  reflexivity.
Qed.

Lemma refork_without_fork (l : loop TenderlyProvider ext) :
  quiescent l ->
  forkProviderPromise (this l) = None ->
  truthy (forkId (this l)) = false ->
  invoke 1 refork l =
  Some (length (promises l),
        {| this := set_forkProviderPromise (Some (S (S (length (promises l))))) (this l);
           promises := promises l ++ [Pending; Settled (Resolved VUndefined); Pending];
           blocked := blocked l ++
             [{| awaiting := OnExt (length (calls l));
                 cont := afterPostFork;
                 own := S (S (length (promises l))) |};
              {| awaiting := OnPromise (S (S (length (promises l))));
                 cont := unwrap Ret;
                 own := length (promises l) |}];
           microtasks := [];
           calls := calls l ++
             [PostFork (toString10 (chainId (this l))) VUndefined];
           timers := timers l |}).
Proof.
  intros Hq Hf Hid. unfold invoke, refork. loop_simpl.
  unfold deleteFork. loop_simpl. rewrite Hf. loop_simpl.
  unfold createFork. loop_simpl.
  cbn [set_forkProviderPromise forkProviderPromise].
  rewrite !length_app. cbn [length]. rewrite !Nat.add_1_r.
  rewrite <- !app_assoc. cbn [app].
  replace ((promises l ++ [Pending; Pending; Pending]) !! S (S (length (promises l))))
    with (Some Pending).
  2:{ symmetry. rewrite lookup_app_r by lia.
      replace (S (S (length (promises l))) - length (promises l))%nat with 2%nat by lia.
      reflexivity. }
  destruct Hq as [Hm Hb]. rewrite Hm. cbn [app drain microtasks].
  unfold deleteFork_resume. loop_simpl. tenderly_simpl. rewrite Hid. cbn [negb].
  loop_simpl. unfold settle. loop_simpl.
  rewrite insert_middle_of_three, !List.filter_app.
  destruct (quiescent_promises l (S (length (promises l))) (conj Hm Hb)
              ltac:(lia)) as [-> ->].
  cbn [List.filter waits_on awaiting].
  replace (Nat.eqb (S (length (promises l))) (S (S (length (promises l))))) with false
    by (symmetry; apply Nat.eqb_neq; lia).
  cbn [negb app map]. rewrite ?app_nil_r. reflexivity.
Qed.

Lemma reforked_without_fork (l : loop TenderlyProvider ext) json :
  quiescent l ->
  nullish json = false ->
  nullish (get json "simulation_fork") = false ->
  reply 2 (length (calls l)) (Resolved json)
    {| this := set_forkProviderPromise (Some (S (S (length (promises l))))) (this l);
       promises := promises l ++ [Pending; Settled (Resolved VUndefined); Pending];
       blocked := blocked l ++
         [{| awaiting := OnExt (length (calls l));
             cont := afterPostFork;
             own := S (S (length (promises l))) |};
          {| awaiting := OnPromise (S (S (length (promises l))));
             cont := unwrap Ret;
             own := length (promises l) |}];
       microtasks := [];
       calls := calls l ++
         [PostFork (toString10 (chainId (this l))) VUndefined];
       timers := timers l |} =
  let fork := get json "simulation_fork" in
  let provider := JsonRpcProvider (get fork "id") in
  Some {| this :=
            {| chainId := chainId (this l);
               forkProviderPromise := Some (S (S (length (promises l))));
               forkId := get fork "id";
               transactionIds := [];
               blockNumber := get fork "block_number" |};
          promises := promises l ++
            [Settled (Resolved provider); Settled (Resolved VUndefined);
             Settled (Resolved provider)];
          blocked := blocked l;
          microtasks := [];
          calls := calls l ++
            [PostFork (toString10 (chainId (this l))) VUndefined];
          timers := timers l |}.
Proof.
  intros Hq Hj Hsf. cbv zeta. unfold reply. loop_simpl.
  rewrite !List.filter_app.
  destruct (quiescent_calls l (length (calls l)) Hq (le_n _)) as [-> ->].
  cbn [List.filter waits_on_call awaiting]. rewrite Nat.eqb_refl.
  cbn [negb app map cont own drain microtasks].
  unfold afterPostFork. loop_simpl. rewrite Hj, Hsf. cbn [orb]. loop_simpl.
  unfold settle. loop_simpl.
  rewrite insert_third, !List.filter_app.
  destruct (quiescent_promises l (S (S (length (promises l)))) Hq
              ltac:(lia)) as [-> ->].
  cbn [List.filter waits_on awaiting]. rewrite Nat.eqb_refl.
  cbn [negb app map cont own drain microtasks].
  loop_simpl. tenderly_simpl. unfold settle. loop_simpl.
  rewrite insert_first_of_three, !app_nil_r.
  destruct (quiescent_promises l (length (promises l)) Hq (le_n _)) as [-> ->].
  reflexivity.
Qed.

(** X9: refork on a provider that has a fork. deleteFork, started first
    and not awaited, resumes after refork has stored the promise of the new
    fork: the DELETE for the old fork goes out after the POST for the new
    one, and forkProviderPromise is cleared again. So refork returns the
    provider of the new fork and forkId is the new fork's, but
    forkProviderPromise is unset, and the next eth_sendTransaction,
    evm_snapshot or evm_revert asks the control API for yet another fork. *)
Theorem X9_refork_forgets_new_fork :
  forall (l : loop TenderlyProvider ext) q provider0 json req (fuel : nat),
    (2 <= fuel)%nat ->
    quiescent l ->
    forkProviderPromise (this l) = Some q ->
    promises l !! q = Some (Settled (Resolved provider0)) ->
    truthy (forkId (this l)) = true ->
    nullish (get json "simulation_fork") = false ->
    spawns_fork (method req) = true ->
    let created := PostFork (toString10 (chainId (this l))) VUndefined in
    exists l1 l2 l3,
      invoke fuel refork l = Some (length (promises l), l1) /\
      calls l1 = calls l ++ [created; DeleteFork (forkId (this l))] /\
      reply fuel (length (calls l)) (Resolved json) l1 = Some l2 /\
      promises l2 !! length (promises l) =
        Some (Settled (Resolved
                (JsonRpcProvider (get (get json "simulation_fork") "id")))) /\
      forkId (this l2) = get (get json "simulation_fork") "id" /\
      forkProviderPromise (this l2) = None /\
      calls l2 = calls l1 /\
      invoke fuel (request req) l2 = Some (length (promises l2), l3) /\
      calls l3 = calls l ++ [created; DeleteFork (forkId (this l)); created].
Proof.
  intros l q provider0 json req fuel Hfuel Hq Hf Hp Hid Hsf Hs created.
  assert (Hj : nullish json = false) by (destruct json; cbn in Hsf |- *; congruence).
  pose proof (refork_with_fork l q provider0 Hq Hf Hp Hid) as H1.
  pose proof (reforked_with_fork l json Hq Hj Hsf) as H2. cbv zeta in H2.
  match type of H2 with _ = Some ?s => set (l2 := s) in * end.
  assert (Hq2 : quiescent l2).
  { eapply (quiescent_more l l2); [exact Hq|reflexivity|reflexivity| | |].
    - cbn. rewrite length_app. lia.
    - cbn. rewrite length_app. lia.
    - repeat constructor; cbn; rewrite length_app; cbn; lia. }
  pose proof (request_spawns_fork l2 req Hq2 eq_refl Hs) as H3.
  do 3 eexists.
  split; [eapply invoke_mono; [exact H1|lia]|].
  split; [reflexivity|].
  split; [eapply reply_mono; [exact H2|lia]|].
  split; [cbn [promises l2]; rewrite lookup_app_r by lia; rewrite Nat.sub_diag;
          reflexivity|].
  split; [reflexivity|]. split; [reflexivity|]. split; [reflexivity|].
  split; [eapply invoke_mono; [exact H3|lia]|].
  cbn [calls l2 this chainId]. rewrite <- app_assoc. reflexivity.
Qed.

(** X10: refork on a provider without a fork creates one and keeps it:
    one POST and no DELETE; when the fork is there refork returns its
    provider, the fields hold its id and block number, the transaction ids
    are empty, forkProviderPromise is the promise of that provider, and the
    next request is sent to this fork without another POST. *)
Theorem X10_refork_without_fork_keeps_it :
  forall (l : loop TenderlyProvider ext) json req (fuel : nat),
    (2 <= fuel)%nat ->
    quiescent l ->
    forkProviderPromise (this l) = None ->
    truthy (forkId (this l)) = false ->
    nullish (get json "simulation_fork") = false ->
    method req <> "eth_chainId"%string ->
    method req <> "eth_blockNumber"%string ->
    let created := PostFork (toString10 (chainId (this l))) VUndefined in
    let provider := JsonRpcProvider (get (get json "simulation_fork") "id") in
    exists l1 l2 l3,
      invoke fuel refork l = Some (length (promises l), l1) /\
      calls l1 = calls l ++ [created] /\
      reply fuel (length (calls l)) (Resolved json) l1 = Some l2 /\
      promises l2 !! length (promises l) = Some (Settled (Resolved provider)) /\
      forkId (this l2) = get (get json "simulation_fork") "id" /\
      blockNumber (this l2) = get (get json "simulation_fork") "block_number" /\
      transactionIds (this l2) = [] /\
      (exists p, forkProviderPromise (this l2) = Some p /\
                 promises l2 !! p = Some (Settled (Resolved provider))) /\
      invoke fuel (request req) l2 = Some (length (promises l2), l3) /\
      calls l3 = calls l ++
        [created; ForkSend provider (method req) (params_or_empty req)].
Proof.
  intros l json req fuel Hfuel Hq Hf Hid Hsf Hc Hb created provider.
  assert (Hj : nullish json = false) by (destruct json; cbn in Hsf |- *; congruence).
  apply String.eqb_neq in Hc. apply String.eqb_neq in Hb.
  pose proof (refork_without_fork l Hq Hf Hid) as H1.
  pose proof (reforked_without_fork l json Hq Hj Hsf) as H2. cbv zeta in H2.
  match type of H2 with _ = Some ?s => set (l2 := s) in * end.
  assert (Hq2 : quiescent l2).
  { eapply (quiescent_grow l l2); [exact Hq|reflexivity|reflexivity| |];
      cbn; rewrite length_app; lia. }
  assert (Hp2 : promises l2 !! S (S (length (promises l))) =
                Some (Settled (Resolved provider))).
  { cbn [promises l2]. rewrite lookup_app_r by lia.
    replace (S (S (length (promises l))) - length (promises l))%nat with 2%nat by lia.
    reflexivity. }
  pose proof (request_routed_to_fork l2 req (S (S (length (promises l)))) provider
                Hq2 Hc) as H3.
  rewrite Hb in H3. specialize (H3 eq_refl eq_refl Hp2 eq_refl).
  do 3 eexists.
  split; [eapply invoke_mono; [exact H1|lia]|].
  split; [reflexivity|].
  split; [eapply reply_mono; [exact H2|lia]|].
  split; [cbn [promises l2]; rewrite lookup_app_r by lia; rewrite Nat.sub_diag;
          reflexivity|].
  split; [reflexivity|]. split; [reflexivity|]. split; [reflexivity|].
  split; [exists (S (S (length (promises l)))); split; [reflexivity|exact Hp2]|].
  split; [eapply invoke_mono; [exact H3|lia]|].
  cbn [calls l2]. rewrite <- app_assoc. reflexivity.
Qed.

Ltac info_simpl :=
  cbn [fields transactionInfo set_transactionInfo set_fields].

Lemma same_key_eq a b : same_key a b = true -> a = b.
Proof.
  destruct a, b; cbn; try discriminate; try reflexivity.
  - intros H. apply Bool.eqb_prop in H. congruence.
  - intros H. apply Z.eqb_eq in H. congruence.
  - intros H. apply String.eqb_eq in H. congruence.
Qed.

Lemma info_get_set h p m :
  same_key h h = true -> info_get h (info_set h p m) = Some p.
Proof.
  intros Hh. induction m as [|[k old] rest IH]; cbn [info_set info_get].
  - rewrite Hh. reflexivity.
  - destruct (same_key h k) eqn:Hk; cbn [info_get]; rewrite Hk; [reflexivity|exact IH].
Qed.

Lemma info_get_set_other h h' p m :
  same_key h' h = false -> info_get h' (info_set h p m) = info_get h' m.
Proof.
  intros Hne. induction m as [|[k old] rest IH]; cbn [info_set info_get].
  - rewrite Hne. reflexivity.
  - destruct (same_key h k) eqn:Hk; cbn [info_get].
    + apply same_key_eq in Hk. subst k. rewrite Hne. reflexivity.
    + rewrite IH. reflexivity.
Qed.

Lemma lookup_second_new {A} (xs ys : list A) (x y : A) :
  (xs ++ x :: y :: ys) !! S (length xs) = Some y.
Proof.
  rewrite lookup_app_r by lia.
  replace (S (length xs) - length xs)%nat with 1%nat by lia. reflexivity.
Qed.

Lemma lookup_first_new {A} (xs ys : list A) (x : A) :
  (xs ++ x :: ys) !! length xs = Some x.
Proof. rewrite lookup_app_r by lia. rewrite Nat.sub_diag. reflexivity. Qed.

(** The first call for a hash *)
Lemma getTransactionInfo_fetches (l : loop TenderlyProviderInfo info_ext) h tid :
  quiescent l ->
  same_key h h = true ->
  info_get h (transactionInfo (this l)) = None ->
  truthy (forkId (fields (this l))) = true ->
  map_get h (transactionIds (fields (this l))) = tid ->
  truthy tid = true ->
  invoke 0 (getTransactionInfo h) l =
  Some (length (promises l),
        {| this := set_transactionInfo
                     (info_set h (S (length (promises l))) (transactionInfo (this l)))
                     (this l);
           promises := promises l ++ [Pending; Pending];
           blocked := blocked l ++
             [{| awaiting := OnExt (length (calls l));
                 cont := afterGetTransaction tid;
                 own := S (length (promises l)) |};
              {| awaiting := OnPromise (S (length (promises l)));
                 cont := unwrap Ret;
                 own := length (promises l) |}];
           microtasks := [];
           calls := calls l ++ [GetTransaction (forkId (fields (this l))) tid];
           timers := timers l |}).
Proof.
  intros Hq Hh Hnone Hid Htid Ht. unfold invoke, getTransactionInfo. loop_simpl.
  unfold info_has. rewrite Hnone. cbn [negb]. loop_simpl.
  unfold fetchTransactionInfo. loop_simpl. rewrite Hid, Htid, Ht. cbn [negb].
  loop_simpl. info_simpl. unfold awaitTransactionInfo. loop_simpl. info_simpl.
  rewrite length_app. cbn [length]. rewrite Nat.add_1_r.
  rewrite info_get_set by assumption. loop_simpl.
  rewrite <- !app_assoc. cbn [app]. rewrite lookup_second_new.
  destruct Hq as [-> _]. reflexivity.
Qed.

Lemma transactionInfo_fetched (l : loop TenderlyProviderInfo info_ext) s fid tid json :
  quiescent l ->
  nullish json = false ->
  reply 2 (length (calls l)) (Resolved json)
    {| this := s;
       promises := promises l ++ [Pending; Pending];
       blocked := blocked l ++
         [{| awaiting := OnExt (length (calls l));
             cont := afterGetTransaction tid;
             own := S (length (promises l)) |};
          {| awaiting := OnPromise (S (length (promises l)));
             cont := unwrap Ret;
             own := length (promises l) |}];
       microtasks := [];
       calls := calls l ++ [GetTransaction fid tid];
       timers := timers l |} =
  let info := transactionInfoOf (forkId (fields s)) tid json in
  Some {| this := s;
          promises := promises l ++ [Settled (Resolved info); Settled (Resolved info)];
          blocked := blocked l;
          microtasks := [];
          calls := calls l ++ [GetTransaction fid tid];
          timers := timers l |}.
Proof.
  intros Hq Hj. cbv zeta. unfold reply. loop_simpl.
  rewrite !List.filter_app.
  destruct (quiescent_calls l (length (calls l)) Hq (le_n _)) as [-> ->].
  cbn [List.filter waits_on_call awaiting]. rewrite Nat.eqb_refl.
  cbn [negb app map cont own drain microtasks].
  unfold afterGetTransaction. loop_simpl. rewrite Hj. loop_simpl.
  unfold settle. loop_simpl.
  rewrite insert_second_last, !List.filter_app.
  destruct (quiescent_promises l (S (length (promises l))) Hq
              ltac:(lia)) as [-> ->].
  cbn [List.filter waits_on awaiting]. rewrite Nat.eqb_refl.
  cbn [negb app map cont own drain microtasks].
  loop_simpl. unfold settle. loop_simpl.
  rewrite insert_first_of_two, !app_nil_r.
  destruct (quiescent_promises l (length (promises l)) Hq (le_n _)) as [-> ->].
  reflexivity.
Qed.

(** A call for a hash whose promise is in the map *)
Lemma getTransactionInfo_cached (l : loop TenderlyProviderInfo info_ext) h p o :
  quiescent l ->
  info_get h (transactionInfo (this l)) = Some p ->
  promises l !! p = Some (Settled o) ->
  invoke 1 (getTransactionInfo h) l =
  Some (length (promises l),
        {| this := this l;
           promises := promises l ++ [Settled o];
           blocked := blocked l;
           microtasks := [];
           calls := calls l;
           timers := timers l |}).
Proof.
  intros Hq Hsome Hp. unfold invoke, getTransactionInfo. loop_simpl.
  unfold info_has. rewrite Hsome. cbn [negb].
  unfold awaitTransactionInfo. loop_simpl. rewrite Hsome. loop_simpl.
  rewrite (lookup_snoc_old _ _ _ _ Hp). destruct Hq as [Hm Hb]. rewrite Hm.
  cbn [app drain microtasks]. destruct o; loop_simpl;
    rewrite settle_own by (split; assumption); reflexivity.
Qed.

Lemma getTransactionInfo_joins (l : loop TenderlyProviderInfo info_ext) h p :
  quiescent l ->
  info_get h (transactionInfo (this l)) = Some p ->
  promises l !! p = Some Pending ->
  invoke 0 (getTransactionInfo h) l =
  Some (length (promises l),
        {| this := this l;
           promises := promises l ++ [Pending];
           blocked := blocked l ++
             [{| awaiting := OnPromise p;
                 cont := unwrap Ret;
                 own := length (promises l) |}];
           microtasks := [];
           calls := calls l;
           timers := timers l |}).
Proof.
  intros Hq Hsome Hp. unfold invoke, getTransactionInfo. loop_simpl.
  unfold info_has. rewrite Hsome. cbn [negb].
  unfold awaitTransactionInfo. loop_simpl. rewrite Hsome. loop_simpl.
  rewrite (lookup_snoc_old _ _ _ _ Hp). destruct Hq as [-> _]. reflexivity.
Qed.

(** The first call for a hash fails before its fetch *)
Lemma getTransactionInfo_fails (l : loop TenderlyProviderInfo info_ext) h :
  quiescent l ->
  same_key h h = true ->
  info_get h (transactionInfo (this l)) = None ->
  truthy (forkId (fields (this l))) = false \/
  truthy (map_get h (transactionIds (fields (this l)))) = false ->
  let e := if truthy (forkId (fields (this l)))
           then Error "Transaction not found"
           else Error "No Tenderly fork available" in
  invoke 1 (getTransactionInfo h) l =
  Some (length (promises l),
        {| this := set_transactionInfo
                     (info_set h (S (length (promises l))) (transactionInfo (this l)))
                     (this l);
           promises := promises l ++ [Settled (Rejected e); Settled (Rejected e)];
           blocked := blocked l;
           microtasks := [];
           calls := calls l;
           timers := timers l |}).
Proof.
  intros Hq Hh Hnone Hfail e. unfold invoke, getTransactionInfo. loop_simpl.
  unfold info_has. rewrite Hnone. cbn [negb]. loop_simpl.
  assert (Hexec : exec (fetchTransactionInfo h) (S (length (promises l)))
            {| this := this l; promises := promises l ++ [Pending; Pending];
               blocked := blocked l; microtasks := microtasks l;
               calls := calls l; timers := timers l |} =
            {| this := this l;
               promises := promises l ++ [Pending; Settled (Rejected e)];
               blocked := blocked l; microtasks := microtasks l;
               calls := calls l; timers := timers l |}).
  { unfold fetchTransactionInfo, e. loop_simpl.
    destruct (truthy (forkId (fields (this l)))) eqn:Hid; cbn [negb].
    - destruct Hfail as [Hfail|Hfail]; [discriminate|]. rewrite Hfail. cbn [negb].
      loop_simpl. unfold settle. loop_simpl.
      rewrite insert_second_last.
      destruct (quiescent_promises l (S (length (promises l))) Hq ltac:(lia))
        as [-> ->]. cbn [map]. rewrite app_nil_r. reflexivity.
    - loop_simpl. unfold settle. loop_simpl.
      rewrite insert_second_last.
      destruct (quiescent_promises l (S (length (promises l))) Hq ltac:(lia))
        as [-> ->]. cbn [map]. rewrite app_nil_r. reflexivity. }
  rewrite length_app. cbn [length]. rewrite Nat.add_1_r.
  rewrite <- !app_assoc. cbn [app]. rewrite Hexec. loop_simpl. info_simpl.
  unfold awaitTransactionInfo. loop_simpl. info_simpl.
  rewrite info_get_set by assumption. loop_simpl.
  rewrite lookup_second_new. destruct Hq as [Hm Hb]. rewrite Hm.
  cbn [app drain microtasks]. loop_simpl. unfold settle. loop_simpl.
  rewrite insert_first_of_two.
  destruct (quiescent_promises l (length (promises l)) (conj Hm Hb) (le_n _))
    as [-> ->]. cbn [map]. rewrite app_nil_r. reflexivity.
Qed.

Lemma lookup_set_field k v props : lookup_field k (set_field k v props) = v.
Proof.
  induction props as [|[k' old] rest IH]; cbn [set_field lookup_field].
  - rewrite String.eqb_refl. reflexivity.
  - destruct (String.eqb k k') eqn:Hk; cbn [lookup_field]; rewrite Hk;
      [reflexivity|exact IH].
Qed.

Lemma lookup_set_field_other k k' v props :
  k' <> k -> lookup_field k' (set_field k v props) = lookup_field k' props.
Proof.
  intros Hne. induction props as [|[k0 old] rest IH]; cbn [set_field lookup_field].
  - apply String.eqb_neq in Hne. rewrite Hne. reflexivity.
  - destruct (String.eqb_spec k k0) as [->|Hk]; cbn [lookup_field].
    + apply String.eqb_neq in Hne. rewrite Hne. reflexivity.
    + rewrite IH. reflexivity.
Qed.

Lemma transactionInfo_not_fetched (l : loop TenderlyProviderInfo info_ext) s fid tid e :
  quiescent l ->
  reply 2 (length (calls l)) (Rejected e)
    {| this := s;
       promises := promises l ++ [Pending; Pending];
       blocked := blocked l ++
         [{| awaiting := OnExt (length (calls l));
             cont := afterGetTransaction tid;
             own := S (length (promises l)) |};
          {| awaiting := OnPromise (S (length (promises l)));
             cont := unwrap Ret;
             own := length (promises l) |}];
       microtasks := [];
       calls := calls l ++ [GetTransaction fid tid];
       timers := timers l |} =
  Some {| this := s;
          promises := promises l ++ [Settled (Rejected e); Settled (Rejected e)];
          blocked := blocked l;
          microtasks := [];
          calls := calls l ++ [GetTransaction fid tid];
          timers := timers l |}.
Proof.
  intros Hq. unfold reply. loop_simpl.
  rewrite !List.filter_app.
  destruct (quiescent_calls l (length (calls l)) Hq (le_n _)) as [-> ->].
  cbn [List.filter waits_on_call awaiting]. rewrite Nat.eqb_refl.
  cbn [negb app map cont own drain microtasks].
  unfold afterGetTransaction. loop_simpl.
  unfold settle. loop_simpl.
  rewrite insert_second_last, !List.filter_app.
  destruct (quiescent_promises l (S (length (promises l))) Hq
              ltac:(lia)) as [-> ->].
  cbn [List.filter waits_on awaiting]. rewrite Nat.eqb_refl.
  cbn [negb app map cont own drain microtasks].
  loop_simpl. unfold settle. loop_simpl.
  rewrite insert_first_of_two, !app_nil_r.
  destruct (quiescent_promises l (length (promises l)) Hq (le_n _)) as [-> ->].
  reflexivity.
Qed.

Lemma transactionInfo_fetched_for_two
    (l : loop TenderlyProviderInfo info_ext) s fid tid json :
  quiescent l ->
  nullish json = false ->
  reply 3 (length (calls l)) (Resolved json)
    {| this := s;
       promises := promises l ++ [Pending; Pending; Pending];
       blocked := blocked l ++
         [{| awaiting := OnExt (length (calls l));
             cont := afterGetTransaction tid;
             own := S (length (promises l)) |};
          {| awaiting := OnPromise (S (length (promises l)));
             cont := unwrap Ret;
             own := length (promises l) |};
          {| awaiting := OnPromise (S (length (promises l)));
             cont := unwrap Ret;
             own := S (S (length (promises l))) |}];
       microtasks := [];
       calls := calls l ++ [GetTransaction fid tid];
       timers := timers l |} =
  let info := transactionInfoOf (forkId (fields s)) tid json in
  Some {| this := s;
          promises := promises l ++
            [Settled (Resolved info); Settled (Resolved info);
             Settled (Resolved info)];
          blocked := blocked l;
          microtasks := [];
          calls := calls l ++ [GetTransaction fid tid];
          timers := timers l |}.
Proof.
  intros Hq Hj. cbv zeta. unfold reply. loop_simpl.
  rewrite !List.filter_app.
  destruct (quiescent_calls l (length (calls l)) Hq (le_n _)) as [-> ->].
  cbn [List.filter waits_on_call awaiting]. rewrite Nat.eqb_refl.
  cbn [negb app map cont own drain microtasks].
  unfold afterGetTransaction. loop_simpl. rewrite Hj. loop_simpl.
  unfold settle. loop_simpl.
  rewrite insert_middle_of_three, !List.filter_app.
  destruct (quiescent_promises l (S (length (promises l))) Hq
              ltac:(lia)) as [-> ->].
  cbn [List.filter waits_on awaiting]. rewrite Nat.eqb_refl.
  cbn [negb app map cont own drain microtasks].
  loop_simpl. unfold settle. loop_simpl.
  rewrite insert_first_of_three, !app_nil_r.
  destruct (quiescent_promises l (length (promises l)) Hq (le_n _)) as [-> ->].
  cbn [app map drain microtasks]. loop_simpl. unfold settle. loop_simpl.
  rewrite insert_third, ?app_nil_r.
  destruct (quiescent_promises l (S (S (length (promises l)))) Hq ltac:(lia))
    as [-> ->].
  reflexivity.
Qed.

Lemma map_get_set h v m : same_key h h = true -> map_get h (map_set h v m) = v.
Proof.
  intros Hh. induction m as [|[k old] rest IH]; cbn [map_set map_get].
  - rewrite Hh. reflexivity.
  - destruct (same_key h k) eqn:Hk; cbn [map_get]; rewrite Hk; [reflexivity|exact IH].
Qed.

Lemma map_get_set_other h h' v m :
  same_key h' h = false -> map_get h' (map_set h v m) = map_get h' m.
Proof.
  intros Hne. induction m as [|[k old] rest IH]; cbn [map_set map_get].
  - rewrite Hne. reflexivity.
  - destruct (same_key h k) eqn:Hk; cbn [map_get].
    + apply same_key_eq in Hk. subst k. rewrite Hne. reflexivity.
    + rewrite IH. reflexivity.
Qed.

(** X11: a sent transaction is recorded under its hash. When an
    eth_sendTransaction has returned the hash, transactionIds maps the hash
    to the global_head the control API reported for the fork, the entries of
    the other hashes are as they were, and forkId is unchanged. *)
Theorem X11_sent_transaction_recorded :
  forall (l : loop TenderlyProvider ext) req q provider hash json (fuel : nat),
    (2 <= fuel)%nat ->
    quiescent l ->
    method req = "eth_sendTransaction"%string ->
    forkProviderPromise (this l) = Some q ->
    promises l !! q = Some (Settled (Resolved provider)) ->
    nullish provider = false ->
    truthy (forkId (this l)) = true ->
    nullish (get json "simulation_fork") = false ->
    exists l1 l2 l3,
      invoke fuel (request req) l = Some (length (promises l), l1) /\
      reply fuel (length (calls l)) (Resolved (VStr hash)) l1 = Some l2 /\
      reply fuel (S (length (calls l))) (Resolved json) l2 = Some l3 /\
      promises l3 !! length (promises l) = Some (Settled (Resolved (VStr hash))) /\
      forkId (this l3) = forkId (this l) /\
      map_get (VStr hash) (transactionIds (this l3)) =
        get (get json "simulation_fork") "global_head" /\
      (forall other, other <> hash ->
         map_get (VStr other) (transactionIds (this l3)) =
         map_get (VStr other) (transactionIds (this l))).
Proof.
  intros l req q provider hash json fuel Hfuel Hq Hm Hf Hp Hn Hid Hsf.
  assert (Hj : nullish json = false) by (destruct json; cbn in Hsf |- *; congruence).
  assert (Hc : String.eqb (method req) "eth_chainId" = false) by (rewrite Hm; reflexivity).
  assert (Hb : String.eqb (method req) "eth_blockNumber"
               && truthy (blockNumber (this l)) = false) by (rewrite Hm; reflexivity).
  assert (Hs : String.eqb (method req) "eth_sendTransaction" = true) by (rewrite Hm; reflexivity).
  do 3 eexists. split; [|split; [|split; [|split; [|split; [|split]]]]].
  - eapply invoke_mono; [eapply request_routed_to_fork; eassumption | lia].
  - eapply reply_mono; [eapply transaction_sent; eassumption | lia].
  - eapply reply_mono; [eapply transaction_recorded; eassumption | lia].
  - cbn [promises]. rewrite lookup_app_r by lia. rewrite Nat.sub_diag. reflexivity.
  - reflexivity.
  - cbn [this transactionIds]. apply map_get_set. cbn. apply String.eqb_refl.
  - intros other Hne. cbn [this transactionIds]. apply map_get_set_other.
    cbn. apply String.eqb_neq. exact Hne.
Qed.

Section InfoLoop.
Implicit Types l : loop TenderlyProviderInfo info_ext.

(** X12: getTransactionInfo of a recorded hash, asked for the first time,
    fetches the transaction [transactionIds.get(hash)] of the current fork,
    and nothing else; its result holds the dashboard link of that fork and
    transaction under dashboardLink, whatever the answer held there, and
    every other property of the answer's fork_transaction. *)
Theorem X12_transaction_info_fetched :
  forall l hash transactionId json (fuel : nat),
    (2 <= fuel)%nat ->
    quiescent l ->
    info_get (VStr hash) (transactionInfo (this l)) = None ->
    truthy (forkId (fields (this l))) = true ->
    map_get (VStr hash) (transactionIds (fields (this l))) = transactionId ->
    truthy transactionId = true ->
    nullish json = false ->
    exists l1 l2 info,
      invoke fuel (getTransactionInfo (VStr hash)) l = Some (length (promises l), l1) /\
      calls l1 = calls l ++
        [GetTransaction (forkId (fields (this l))) transactionId] /\
      fields (this l1) = fields (this l) /\
      reply fuel (length (calls l)) (Resolved json) l1 = Some l2 /\
      promises l2 !! length (promises l) = Some (Settled (Resolved info)) /\
      get info "dashboardLink" =
        VStr (dashboardLink (forkId (fields (this l))) transactionId) /\
      (forall k, k <> "dashboardLink"%string ->
         get info k = lookup_field k (spread (get json "fork_transaction"))) /\
      calls l2 = calls l1.
Proof.
  intros l hash tid json fuel Hfuel Hq Hnone Hid Htid Ht Hj.
  assert (Hh : same_key (VStr hash) (VStr hash) = true) by apply String.eqb_refl.
  do 3 eexists. split; [|split; [|split; [|split; [|split; [|split; [|split]]]]]].
  - eapply invoke_mono; [apply getTransactionInfo_fetches; eassumption | lia].
  - reflexivity.
  - reflexivity.
  - eapply reply_mono; [apply transactionInfo_fetched; assumption | lia].
  - cbn [promises]. rewrite lookup_app_r by lia. rewrite Nat.sub_diag. reflexivity.
  - cbn [get transactionInfoOf fields set_transactionInfo]. apply lookup_set_field.
  - intros k Hk. cbn [get transactionInfoOf]. apply lookup_set_field_other, Hk.
  - reflexivity.
Qed.

(** X13: the info of a hash is fetched once. A second getTransactionInfo
    for the same hash, made while the fetch of the first is in flight, waits
    for the same promise: one fetch goes out, and its answer fulfils both
    calls with the same info; a call made after that is answered with that
    info without any fetch. *)
Theorem X13_transaction_info_fetched_once :
  forall l hash transactionId json (fuel : nat),
    (3 <= fuel)%nat ->
    quiescent l ->
    info_get (VStr hash) (transactionInfo (this l)) = None ->
    truthy (forkId (fields (this l))) = true ->
    map_get (VStr hash) (transactionIds (fields (this l))) = transactionId ->
    truthy transactionId = true ->
    nullish json = false ->
    exists l1 l2 l3 l4 info,
      invoke fuel (getTransactionInfo (VStr hash)) l = Some (length (promises l), l1) /\
      invoke fuel (getTransactionInfo (VStr hash)) l1 =
        Some (S (S (length (promises l))), l2) /\
      calls l2 = calls l ++
        [GetTransaction (forkId (fields (this l))) transactionId] /\
      reply fuel (length (calls l)) (Resolved json) l2 = Some l3 /\
      promises l3 !! length (promises l) = Some (Settled (Resolved info)) /\
      promises l3 !! S (S (length (promises l))) = Some (Settled (Resolved info)) /\
      invoke fuel (getTransactionInfo (VStr hash)) l3 =
        Some (length (promises l3), l4) /\
      promises l4 !! length (promises l3) = Some (Settled (Resolved info)) /\
      calls l4 = calls l2.
Proof.
  intros l hash tid json fuel Hfuel Hq Hnone Hid Htid Ht Hj.
  assert (Hh : same_key (VStr hash) (VStr hash) = true) by apply String.eqb_refl.
  pose proof (getTransactionInfo_fetches l (VStr hash) tid Hq Hh Hnone Hid Htid Ht) as H1.
  match type of H1 with _ = Some (_, ?s) => set (l1 := s) in * end.
  assert (Hlen1 : length (promises l1) = S (S (length (promises l)))).
  { cbn. rewrite length_app. cbn. lia. }
  assert (Hq1 : quiescent l1).
  { eapply (quiescent_more l l1); [exact Hq|reflexivity|reflexivity| | |].
    - cbn. rewrite length_app. lia.
    - lia.
    - repeat constructor; cbn; rewrite length_app; cbn; lia. }
  assert (Hg1 : info_get (VStr hash) (transactionInfo (this l1)) =
                Some (S (length (promises l)))).
  { cbn [l1 this transactionInfo set_transactionInfo]. apply info_get_set, Hh. }
  pose proof (getTransactionInfo_joins l1 (VStr hash) (S (length (promises l)))
                Hq1 Hg1 (lookup_second_new _ _ _ _)) as H2.
  rewrite Hlen1 in H2.
  pose proof (transactionInfo_fetched_for_two l (this l1)
                (forkId (fields (this l))) tid json Hq Hj) as H3.
  cbv zeta in H3.
  match type of H3 with _ = Some ?s => set (l3 := s) in * end.
  assert (Hq3 : quiescent l3).
  { eapply (quiescent_grow l l3); [exact Hq|reflexivity|reflexivity| |];
      cbn; rewrite length_app; lia. }
  assert (Hp3 : promises l3 !! S (length (promises l)) =
                Some (Settled (Resolved
                  (transactionInfoOf (forkId (fields (this l1))) tid json)))).
  { cbn [promises l3]. apply lookup_second_new. }
  pose proof (getTransactionInfo_cached l3 (VStr hash) (S (length (promises l))) _
                Hq3 Hg1 Hp3) as H4.
  match type of H3 with reply _ _ _ ?s = _ =>
    assert (Hl2 : s =
            {| this := this l1; promises := promises l1 ++ [Pending];
               blocked := blocked l1 ++
                 [{| awaiting := OnPromise (S (length (promises l)));
                     cont := unwrap Ret;
                     own := S (S (length (promises l))) |}];
               microtasks := []; calls := calls l1; timers := timers l1 |})
  end.
  { cbn [l1 this promises blocked calls timers]. rewrite <- !app_assoc. reflexivity. }
  rewrite Hl2 in H3.
  do 5 eexists.
  split; [eapply invoke_mono; [exact H1|lia]|].
  split; [eapply invoke_mono; [exact H2|lia]|].
  split; [reflexivity|].
  split; [eapply reply_mono; [exact H3|lia]|].
  split; [cbn [promises l3]; apply lookup_first_new|].
  split; [cbn [promises l3]; rewrite lookup_app_r by lia;
          replace (S (S (length (promises l))) - length (promises l))%nat
            with 2%nat by lia; reflexivity|].
  split; [eapply invoke_mono; [exact H4|lia]|].
  split; [cbn [promises]; apply lookup_first_new|].
  reflexivity.
Qed.

(** X14: a failure of getTransactionInfo is kept as well. Asked for a
    hash while there is no fork, or for a hash that is not recorded, it fails
    with "No Tenderly fork available" or "Transaction not found" without any
    fetch, and the rejected promise stays in transactionInfo: whatever the
    provider's other fields become later (a fork, the hash recorded), a new
    call for that hash fails with the same error and fetches nothing. *)
Theorem X14_transaction_info_failure_kept :
  forall l hash (fuel : nat),
    (1 <= fuel)%nat ->
    quiescent l ->
    info_get (VStr hash) (transactionInfo (this l)) = None ->
    truthy (forkId (fields (this l))) = false \/
    truthy (map_get (VStr hash) (transactionIds (fields (this l)))) = false ->
    let e := if truthy (forkId (fields (this l)))
             then Error "Transaction not found"
             else Error "No Tenderly fork available" in
    exists l1,
      invoke fuel (getTransactionInfo (VStr hash)) l = Some (length (promises l), l1) /\
      promises l1 !! length (promises l) = Some (Settled (Rejected e)) /\
      calls l1 = calls l /\
      forall (later : TenderlyProvider), exists l2,
        invoke fuel (getTransactionInfo (VStr hash))
          (set_this (set_fields later (this l1)) l1) =
          Some (length (promises l1), l2) /\
        promises l2 !! length (promises l1) = Some (Settled (Rejected e)) /\
        calls l2 = calls l.
Proof.
  intros l hash fuel Hfuel Hq Hnone Hfail e.
  assert (Hh : same_key (VStr hash) (VStr hash) = true) by apply String.eqb_refl.
  pose proof (getTransactionInfo_fails l (VStr hash) Hq Hh Hnone Hfail) as H1.
  cbv zeta in H1. fold e in H1.
  match type of H1 with _ = Some (_, ?s) => set (l1 := s) in * end.
  eexists.
  split; [eapply invoke_mono; [exact H1|lia]|].
  split; [cbn [promises l1]; apply lookup_first_new|].
  split; [reflexivity|].
  intros later.
  set (l1' := set_this (set_fields later (this l1)) l1).
  assert (Hq1 : quiescent l1').
  { eapply (quiescent_grow l l1'); [exact Hq|reflexivity|reflexivity| |];
      cbn; try rewrite length_app; lia. }
  assert (Hg1 : info_get (VStr hash) (transactionInfo (this l1')) =
                Some (S (length (promises l)))).
  { cbn [l1' l1 this transactionInfo set_transactionInfo set_fields set_this].
    apply info_get_set, Hh. }
  assert (Hp1 : promises l1' !! S (length (promises l)) = Some (Settled (Rejected e))).
  { cbn [l1' l1 promises set_this]. apply lookup_second_new. }
  pose proof (getTransactionInfo_cached l1' (VStr hash) _ _ Hq1 Hg1 Hp1) as H2.
  eexists.
  split; [eapply invoke_mono; [exact H2|lia]|].
  split; [cbn [promises]; apply lookup_first_new|].
  reflexivity.
Qed.

End InfoLoop.
(** X15: the two-block advance of a fork that has been deleted in the
    meantime. The timer a sent transaction has set still fires after
    deleteFork: evm_increaseBlocks goes to the deleted fork's provider, after
    the DELETE, and when it is answered the cleared block-number cache stays
    cleared. *)
Theorem X15_advance_after_deleteFork :
  forall (l : loop TenderlyProvider ext) q provider0 provider i answer (fuel : nat),
    (1 <= fuel)%nat ->
    quiescent l ->
    forkProviderPromise (this l) = Some q ->
    promises l !! q = Some (Settled (Resolved provider0)) ->
    truthy (forkId (this l)) = true ->
    timers l !! i = Some (Some (advanceBlocks provider)) ->
    exists l1 l2 l3,
      invoke fuel deleteFork l = Some (length (promises l), l1) /\
      fire fuel i l1 = Some l2 /\
      calls l2 = calls l ++
        [DeleteFork (forkId (this l));
         ForkSend provider "evm_increaseBlocks" [VStr "0x2"]] /\
      reply fuel (S (length (calls l))) (Resolved answer) l2 = Some l3 /\
      blockNumber (this l3) = VUndefined /\
      this l3 = this l1.
Proof.
  intros l q provider0 provider i answer fuel Hfuel Hq Hf Hp Hid Ht.
  pose proof (deleteFork_with_fork l q provider0 Hq Hf Hp Hid) as H1.
  match type of H1 with _ = Some (_, ?s) => set (l1 := s) in * end.
  assert (Hq1 : quiescent l1).
  { apply (quiescent_more l l1 [{| awaiting := OnExt (length (calls l));
                                  cont := unwrap (fun _ => Ret VUndefined);
                                  own := length (promises l) |}]);
      [assumption|reflexivity|reflexivity| | |].
    - cbn. rewrite length_app. lia.
    - cbn. rewrite length_app. lia.
    - constructor; [|constructor]. cbn. rewrite length_app. cbn. lia. }
  pose proof (timer_fires l1 i provider Hq1 Ht) as H2.
  pose proof (blocks_advanced l1 provider answer (<[i := None]> (timers l1)) Hq1) as H3.
  assert (Hc : length (calls l1) = S (length (calls l))).
  { cbn. rewrite length_app. cbn. lia. }
  rewrite Hc in H3 at 1.
  do 3 eexists.
  split; [eapply invoke_mono; [exact H1|lia]|].
  split; [eapply fire_mono; [exact H2|lia]|].
  split; [cbn [calls l1]; rewrite <- app_assoc; reflexivity|].
  split; [eapply reply_mono; [exact H3|lia]|].
  split; reflexivity.
Qed.

Lemma quiescent_sentOneInfo : quiescent sentOneInfo.
Proof. split; [reflexivity | constructor]. Qed.

(** eth_chainId on [sentOne], the provider of chain 1. *)
Lemma X5_witness :
  exists l1 answer,
    invoke 0 (request ethChainId) sentOne = Some (3%nat, l1) /\
    promises l1 !! 3%nat = Some (Settled (Resolved (VStr answer))) /\
    HexString.to_Z answer = 1 /\
    calls l1 = calls sentOne /\ this l1 = this sentOne /\
    timers l1 = timers sentOne.
Proof.
  apply (X5_chainId_answered_locally sentOne ethChainId 0%nat quiescent_sentOne
           eq_refl).
  cbn. lia.
Defined.

(** deleteFork on a fresh provider, and twice on [sentOne]. *)
Lemma X6_witness :
  (exists l1,
      invoke 1 deleteFork (newLoop 1) = Some (0%nat, l1) /\
      calls l1 = []) /\
  (exists l1 l2 l3,
      invoke 1 deleteFork sentOne = Some (3%nat, l1) /\
      calls l1 = calls sentOne ++ [DeleteFork (VStr "F1")] /\
      invoke 1 deleteFork l1 = Some (4%nat, l2) /\
      calls l2 = calls l1 /\
      reply 1 3 (Resolved VNull) l1 = Some l3 /\
      promises l3 !! 3%nat = Some (Settled (Resolved VUndefined))).
Proof.
  destruct X6_deleteFork_once as [Hnone Hfork]. split.
  - destruct (Hnone (newLoop 1) 1%nat (le_n _) (quiescent_newLoop 1) eq_refl eq_refl)
      as (l1 & Hi & _ & _ & Hc).
    exists l1. split; [exact Hi|exact Hc].
  - destruct (Hfork sentOne 1%nat (JsonRpcProvider (VStr "F1")) (Resolved VNull)
                1%nat (le_n _) quiescent_sentOne eq_refl eq_refl eq_refl)
      as (l1 & l2 & l3 & Hi & Hc & _ & _ & _ & _ & Hi2 & Hc2 & _ & _ & Hr & Hp & _).
    exists l1, l2, l3. repeat (split; [assumption|]). exact Hp.
Defined.

(** The control API refuses the fork of the first transaction; an eth_call
    follows. *)
Lemma X7_witness :
  exists l1 l2 l3,
    invoke 2 (request sendTransaction) (newLoop 1) = Some (0%nat, l1) /\
    reply 2 0 (Rejected (Error "Failed to fetch")) l1 = Some l2 /\
    invoke 2 (request ethCall) l2 = Some (length (promises l2), l3) /\
    promises l3 !! length (promises l2) =
      Some (Settled (Rejected (Error "Failed to fetch"))) /\
    calls l3 = [PostFork "1" VUndefined].
Proof.
  destruct (X7_failed_fork_sticks (newLoop 1) sendTransaction
              (Error "Failed to fetch") 2%nat (le_n _) (quiescent_newLoop 1)
              eq_refl eq_refl)
    as (l1 & l2 & Hi & Hr & _ & Hc & Hreq & _).
  destruct (Hreq ethCall ltac:(discriminate) ltac:(discriminate))
    as (l3 & Hi3 & Hp3 & Hc3 & _).
  exists l1, l2, l3. split; [exact Hi|]. split; [exact Hr|]. split; [exact Hi3|].
  split; [exact Hp3|]. rewrite Hc3. exact Hc.
Defined.

(** A transaction and an eth_call, both before the fork is there. *)
Lemma X8_witness :
  exists l1 l2 l3,
    invoke 3 (request sendTransaction) (newLoop 1) = Some (0%nat, l1) /\
    invoke 3 (request ethCall) l1 = Some (2%nat, l2) /\
    calls l2 = [PostFork "1" VUndefined] /\
    reply 3 0 (Resolved (forkJson "F1" 100)) l2 = Some l3 /\
    calls l3 =
      [PostFork "1" VUndefined;
       ForkSend (JsonRpcProvider (VStr "F1")) "eth_sendTransaction" [];
       ForkSend (JsonRpcProvider (VStr "F1")) "eth_call" []].
Proof.
  exact (X8_fork_created_once (newLoop 1) sendTransaction ethCall
           (forkJson "F1" 100) 3%nat (le_n _) (quiescent_newLoop 1) eq_refl eq_refl
           ltac:(discriminate) ltac:(discriminate) eq_refl).
Defined.

(** refork on [sentOne], whose fork is "F1"; a transaction follows. *)
Lemma X9_witness :
  exists l1 l2 l3,
    invoke 2 refork sentOne = Some (3%nat, l1) /\
    calls l1 = calls sentOne ++ [PostFork "1" VUndefined; DeleteFork (VStr "F1")] /\
    reply 2 3 (Resolved (forkJson "F2" 200)) l1 = Some l2 /\
    promises l2 !! 3%nat = Some (Settled (Resolved (JsonRpcProvider (VStr "F2")))) /\
    forkId (this l2) = VStr "F2" /\
    forkProviderPromise (this l2) = None /\
    calls l2 = calls l1 /\
    invoke 2 (request sendTransaction) l2 = Some (length (promises l2), l3) /\
    calls l3 = calls sentOne ++
      [PostFork "1" VUndefined; DeleteFork (VStr "F1"); PostFork "1" VUndefined].
Proof.
  exact (X9_refork_forgets_new_fork sentOne 1%nat (JsonRpcProvider (VStr "F1"))
           (forkJson "F2" 200) sendTransaction 2%nat (le_n _) quiescent_sentOne
           eq_refl eq_refl eq_refl eq_refl eq_refl).
Defined.

(** refork on a fresh provider; an eth_call follows. *)
Lemma X10_witness :
  exists l1 l2 l3,
    invoke 2 refork (newLoop 1) = Some (0%nat, l1) /\
    calls l1 = [PostFork "1" VUndefined] /\
    reply 2 0 (Resolved (forkJson "F1" 100)) l1 = Some l2 /\
    promises l2 !! 0%nat = Some (Settled (Resolved (JsonRpcProvider (VStr "F1")))) /\
    forkId (this l2) = VStr "F1" /\
    blockNumber (this l2) = VNum 100 /\
    transactionIds (this l2) = [] /\
    (exists p, forkProviderPromise (this l2) = Some p /\
               promises l2 !! p =
                 Some (Settled (Resolved (JsonRpcProvider (VStr "F1"))))) /\
    invoke 2 (request ethCall) l2 = Some (length (promises l2), l3) /\
    calls l3 =
      [PostFork "1" VUndefined;
       ForkSend (JsonRpcProvider (VStr "F1")) "eth_call" []].
Proof.
  exact (X10_refork_without_fork_keeps_it (newLoop 1) (forkJson "F1" 100) ethCall
           2%nat (le_n _) (quiescent_newLoop 1) eq_refl eq_refl eq_refl
           ltac:(discriminate) ltac:(discriminate)).
Defined.

(** A second transaction on [sentOne]. *)
Lemma X11_witness :
  exists l1 l2 l3,
    invoke 2 (request sendTransaction) sentOne = Some (3%nat, l1) /\
    reply 2 3 (Resolved (VStr "0xhash2")) l1 = Some l2 /\
    reply 2 4 (Resolved (forkJson "F1" 102)) l2 = Some l3 /\
    map_get (VStr "0xhash2") (transactionIds (this l3)) = VStr "tx1" /\
    map_get (VStr "0xhash") (transactionIds (this l3)) = VStr "tx1".
Proof.
  destruct (X11_sent_transaction_recorded sentOne sendTransaction 1%nat
              (JsonRpcProvider (VStr "F1")) "0xhash2" (forkJson "F1" 102) 2%nat
              (le_n _) quiescent_sentOne eq_refl eq_refl eq_refl eq_refl eq_refl
              eq_refl)
    as (l1 & l2 & l3 & Hi & Hr1 & Hr2 & _ & _ & Hnew & Hold).
  exists l1, l2, l3. split; [exact Hi|]. split; [exact Hr1|]. split; [exact Hr2|].
  split; [exact Hnew|]. rewrite (Hold "0xhash"%string ltac:(discriminate)).
  reflexivity.
Defined.

(** The info of the transaction [sentOne] has recorded. *)
Lemma X12_witness :
  exists l1 l2 info,
    invoke 2 (getTransactionInfo (VStr "0xhash")) sentOneInfo = Some (3%nat, l1) /\
    calls l1 = [GetTransaction (VStr "F1") (VStr "tx1")] /\
    reply 2 0 (Resolved transactionJson) l1 = Some l2 /\
    promises l2 !! 3%nat = Some (Settled (Resolved info)) /\
    get info "dashboardLink" =
      VStr "https://dashboard.tenderly.co/gnosisguild/zodiac-pilot/fork/F1/simulation/tx1" /\
    get info "hash" = VStr "0xhash".
Proof.
  destruct (X12_transaction_info_fetched sentOneInfo "0xhash" (VStr "tx1")
              transactionJson 2%nat (le_n _) quiescent_sentOneInfo eq_refl eq_refl
              eq_refl eq_refl eq_refl)
    as (l1 & l2 & info & Hi & Hc & _ & Hr & Hp & Hlink & Hrest & _).
  exists l1, l2, info. split; [exact Hi|]. split; [exact Hc|]. split; [exact Hr|].
  split; [exact Hp|]. split; [exact Hlink|].
  rewrite (Hrest "hash"%string ltac:(discriminate)). reflexivity.
Defined.

(** Two calls for the same hash before the answer, one after. *)
Lemma X13_witness :
  exists l1 l2 l3 l4 info,
    invoke 3 (getTransactionInfo (VStr "0xhash")) sentOneInfo = Some (3%nat, l1) /\
    invoke 3 (getTransactionInfo (VStr "0xhash")) l1 = Some (5%nat, l2) /\
    calls l2 = [GetTransaction (VStr "F1") (VStr "tx1")] /\
    reply 3 0 (Resolved transactionJson) l2 = Some l3 /\
    promises l3 !! 3%nat = Some (Settled (Resolved info)) /\
    promises l3 !! 5%nat = Some (Settled (Resolved info)) /\
    invoke 3 (getTransactionInfo (VStr "0xhash")) l3 =
      Some (length (promises l3), l4) /\
    promises l4 !! length (promises l3) = Some (Settled (Resolved info)) /\
    calls l4 = calls l2.
Proof.
  exact (X13_transaction_info_fetched_once sentOneInfo "0xhash" (VStr "tx1")
           transactionJson 3%nat (le_n _) quiescent_sentOneInfo eq_refl eq_refl
           eq_refl eq_refl eq_refl).
Defined.

(** A hash [sentOne] has not recorded, asked for again when it has been
    recorded. *)
Lemma X14_witness :
  exists l1 l2,
    invoke 1 (getTransactionInfo (VStr "0xlater")) sentOneInfo = Some (3%nat, l1) /\
    promises l1 !! 3%nat = Some (Settled (Rejected (Error "Transaction not found"))) /\
    calls l1 = [] /\
    invoke 1 (getTransactionInfo (VStr "0xlater"))
      (set_this
         (set_fields
            (set_transactionIds [(VStr "0xlater", VStr "tx2")] (this sentOne))
            (this l1)) l1) = Some (length (promises l1), l2) /\
    promises l2 !! length (promises l1) =
      Some (Settled (Rejected (Error "Transaction not found"))) /\
    calls l2 = [].
Proof.
  destruct (X14_transaction_info_failure_kept sentOneInfo "0xlater" 1%nat (le_n _)
              quiescent_sentOneInfo eq_refl (or_intror eq_refl))
    as (l1 & Hi & Hp & Hc & Hlater).
  destruct (Hlater (set_transactionIds [(VStr "0xlater", VStr "tx2")] (this sentOne)))
    as (l2 & Hi2 & Hp2 & Hc2).
  exists l1, l2. split; [exact Hi|]. split; [exact Hp|]. split; [exact Hc|].
  split; [exact Hi2|]. split; [exact Hp2|exact Hc2].
Defined.

(** deleteFork on [sentOne], then the timer of its transaction. *)
Lemma X15_witness :
  exists l1 l2 l3,
    invoke 1 deleteFork sentOne = Some (3%nat, l1) /\
    fire 1 0 l1 = Some l2 /\
    calls l2 = calls sentOne ++
      [DeleteFork (VStr "F1");
       ForkSend (JsonRpcProvider (VStr "F1")) "evm_increaseBlocks" [VStr "0x2"]] /\
    reply 1 4 (Resolved VNull) l2 = Some l3 /\
    blockNumber (this l3) = VUndefined /\
    this l3 = this l1.
Proof.
  exact (X15_advance_after_deleteFork sentOne 1%nat (JsonRpcProvider (VStr "F1"))
           (JsonRpcProvider (VStr "F1")) 0%nat VNull 1%nat (le_n _)
           quiescent_sentOne eq_refl eq_refl eq_refl eq_refl).
Defined.

End TenderlyFacts.

(** ** The drawer: formatValue, the batch, reforkAndRerun *)
Module DrawerFacts.
Import Async Types BigNumber Drawer.

Lemma append_0x d : "0x" +:+ d = String "0" (String "x" d).
Proof. reflexivity. Qed.

Lemma trim00_eq c1 c2 c3 rest :
  trim00 (String c1 (String c2 (String c3 rest))) =
  if Ascii.eqb c1 "0" && Ascii.eqb c2 "0"
  then trim00 (String c3 rest)
  else String c1 (String c2 (String c3 rest)).
Proof. reflexivity. Qed.

(** Whatever ignores one leading zero ignores what [trim00] drops. *)
Lemma trim00_invisible {A} (f : string -> A) :
  (forall r, f (String "0" r) = f r) ->
  forall ds, f (trim00 ds) = f ds.
Proof.
  intros Hf.
  assert (H : forall n ds, (String.length ds <= n)%nat -> f (trim00 ds) = f ds).
  { induction n as [|n IH]; intros ds Hn.
    - destruct ds; [reflexivity | cbn in Hn; lia].
    - destruct ds as [|c1 [|c2 [|c3 rest]]]; try reflexivity.
      rewrite trim00_eq.
      destruct (Ascii.eqb_spec c1 "0") as [->|H1]; [|reflexivity].
      destruct (Ascii.eqb_spec c2 "0") as [->|H2]; [|reflexivity].
      cbn [andb]. rewrite IH by (cbn in Hn |- *; lia).
      rewrite !Hf. reflexivity. }
  intros ds. apply (H (String.length ds)). lia.
Qed.

Lemma strip_zeros_zero r : strip_zeros (String "0" r) = strip_zeros r.
Proof. reflexivity. Qed.

Lemma to_N_zero r : HexString.Raw.to_N (String "0" r) 0 = HexString.Raw.to_N r 0.
Proof. reflexivity. Qed.

Lemma digit_zero c : HexString.ascii_to_digit c = Some 0%N <-> c = "0"%char.
Proof.
  split; [|intros ->; reflexivity].
  unfold HexString.ascii_to_digit.
  repeat match goal with
         | |- context [ascii_dec c ?d] => destruct (ascii_dec c d) as [?|?]
         end; try discriminate; auto.
Qed.

Lemma to_N_is_zero ds acc :
  all_chars is_hex_digit ds = true ->
  (HexString.Raw.to_N ds acc = 0%N <-> acc = 0%N /\ strip_zeros ds = ""%string).
Proof.
  revert acc. induction ds as [|c r IH]; intros acc Hhex.
  - cbn. tauto.
  - cbn [all_chars] in Hhex. apply andb_true_iff in Hhex as [Hc Hr].
    unfold is_hex_digit in Hc.
    destruct (HexString.ascii_to_digit c) as [v|] eqn:Hv; [|discriminate].
    cbn [HexString.Raw.to_N strip_zeros]. rewrite Hv, (IH _ Hr).
    destruct (Ascii.eqb_spec c "0") as [->|Hne].
    + cbn in Hv. injection Hv as <-. cbn. split.
      * intros [H1 H2]. split; [lia|assumption].
      * intros [-> H2]. split; [reflexivity|assumption].
    + split.
      * intros [H1 _]. exfalso. apply Hne. apply digit_zero.
        rewrite Hv. f_equal. lia.
      * intros [_ H]. discriminate.
Qed.

Lemma replace_0x_zeros_spec d :
  replace_0x_zeros ("0x" +:+ d) = "0x" +:+ strip_zeros d.
Proof.
  destruct d as [|c r]; [reflexivity|].
  unfold replace_0x_zeros. rewrite !append_0x, !Ascii.eqb_refl.
  cbn [andb strip_zeros]. destruct (Ascii.eqb c "0"); reflexivity.
Qed.

Lemma strip_zeros_head s :
  match strip_zeros s with
  | EmptyString => True
  | String c _ => c <> "0"%char
  end.
Proof.
  induction s as [|c r IH]; [exact I|]. cbn [strip_zeros].
  destruct (Ascii.eqb_spec c "0"); assumption.
Qed.

Lemma to_N_strip_zeros ds :
  HexString.Raw.to_N (strip_zeros ds) 0 = HexString.Raw.to_N ds 0.
Proof.
  induction ds as [|c r IH]; [reflexivity|]. cbn [strip_zeros].
  destruct (Ascii.eqb_spec c "0") as [->|]; [|reflexivity].
  rewrite IH. reflexivity.
Qed.

Lemma padded_digits ds :
  strip_zeros (padEven ds) = strip_zeros ds /\
  HexString.Raw.to_N (padEven ds) 0 = HexString.Raw.to_N ds 0 /\
  all_chars is_hex_digit (padEven ds) = all_chars is_hex_digit ds /\
  Nat.odd (String.length (padEven ds)) = false.
Proof.
  unfold padEven. destruct (Nat.odd (String.length ds)) eqn:Ho.
  - repeat split; try reflexivity. cbn [String.length].
    rewrite Nat.odd_succ, <- Nat.negb_odd, Ho. reflexivity.
  - repeat split; try reflexivity. exact Ho.
Qed.

Lemma canonical_head digits :
  canonical digits = "0"%string \/
  exists c rest, canonical digits = String c rest /\ c <> "0"%char.
Proof.
  unfold canonical. pose proof (strip_zeros_head digits) as Hh.
  destruct (strip_zeros digits) as [|c' r']; [left; reflexivity|].
  right. exists c', r'. auto.
Qed.

Lemma canonical_value digits :
  HexString.to_N ("0x" +:+ canonical digits) = HexString.Raw.to_N digits 0.
Proof.
  change (HexString.Raw.to_N (canonical digits) 0 = HexString.Raw.to_N digits 0).
  unfold canonical. rewrite <- (to_N_strip_zeros digits).
  destruct (strip_zeros digits); reflexivity.
Qed.

(** Strings taken two characters at a time. *)
Lemma pairs_ind (P : string -> Prop) :
  P ""%string ->
  (forall c, P (String c "")) ->
  (forall c1 c2 r, P r -> P (String c1 (String c2 r))) ->
  forall s, P s.
Proof.
  intros H0 H1 H2 s.
  assert (H : P s /\ forall c, P (String c s)).
  { induction s as [|c' r [IH1 IH2]]; [split; [exact H0|exact H1]|].
    split; [apply IH2|]. intros c. apply H2, IH1. }
  apply H.
Qed.

Lemma odd_length_pair c1 c2 r :
  Nat.odd (String.length (String c1 (String c2 r))) = Nat.odd (String.length r).
Proof. cbn [String.length]. rewrite Nat.odd_succ, Nat.even_succ. reflexivity. Qed.

(** An even number of digits, not all of them zeros: [trim00] leaves the
    digits from the first one that is not a zero on, with one zero before
    them when their number is odd. *)
Lemma trim00_even e :
  Nat.odd (String.length e) = false ->
  strip_zeros e <> ""%string ->
  trim00 e = padEven (strip_zeros e).
Proof.
  induction e as [|c|c1 c2 r IH] using pairs_ind; intros Heven Hnz.
  - contradiction.
  - discriminate.
  - rewrite odd_length_pair in Heven. specialize (IH Heven).
    assert (Hwhole : padEven (String c1 (String c2 r)) = String c1 (String c2 r)).
    { unfold padEven. rewrite odd_length_pair, Heven. reflexivity. }
    assert (Htail : padEven (String c2 r) = String "0" (String c2 r)).
    { unfold padEven. cbn [String.length]. rewrite Nat.odd_succ, <- Nat.negb_odd, Heven.
      reflexivity. }
    destruct (Ascii.eqb_spec c1 "0") as [->|H1].
    + destruct (Ascii.eqb_spec c2 "0") as [->|H2].
      * rewrite !strip_zeros_zero in Hnz |- *.
        destruct r as [|c3 r']; [contradiction|].
        rewrite trim00_eq. cbn [Ascii.eqb Bool.eqb andb]. apply IH, Hnz.
      * rewrite strip_zeros_zero. cbn [strip_zeros].
        destruct (Ascii.eqb_spec c2 "0") as [|_]; [contradiction|].
        rewrite Htail. destruct r as [|c3 r']; [reflexivity|].
        rewrite trim00_eq. destruct (Ascii.eqb_spec c2 "0") as [|_]; [contradiction|].
        rewrite andb_false_r. reflexivity.
    + cbn [strip_zeros]. destruct (Ascii.eqb_spec c1 "0") as [|_]; [contradiction|].
      rewrite Hwhole. destruct r as [|c3 r']; [reflexivity|].
      rewrite trim00_eq. destruct (Ascii.eqb_spec c1 "0") as [|_]; [contradiction|].
      reflexivity.
Qed.

(** An even number of zeros: [trim00] leaves two. *)
Lemma trim00_zeros e :
  Nat.odd (String.length e) = false ->
  e <> ""%string ->
  strip_zeros e = ""%string ->
  trim00 e = "00"%string.
Proof.
  induction e as [|c|c1 c2 r IH] using pairs_ind; intros Heven Hne Hz.
  - contradiction.
  - discriminate.
  - rewrite odd_length_pair in Heven. specialize (IH Heven).
    cbn [strip_zeros] in Hz.
    destruct (Ascii.eqb_spec c1 "0") as [->|]; [|discriminate].
    destruct (Ascii.eqb_spec c2 "0") as [->|]; [|discriminate].
    destruct r as [|c3 r']; [reflexivity|].
    rewrite trim00_eq. cbn [Ascii.eqb Bool.eqb andb]. apply IH; [discriminate|exact Hz].
Qed.

Lemma dec_digit_is_hex c : is_dec_digit c = true -> is_hex_digit c = true.
Proof.
  unfold is_dec_digit, is_hex_digit.
  destruct (HexString.ascii_to_digit c); [reflexivity|discriminate].
Qed.

Lemma all_dec_hex s :
  all_chars is_dec_digit s = true -> all_chars is_hex_digit s = true.
Proof.
  induction s as [|c r IH]; [reflexivity|]. cbn [all_chars].
  intros [Hc Hr]%andb_true_iff. rewrite (dec_digit_is_hex c Hc), (IH Hr). reflexivity.
Qed.

Lemma head_is_hex d : all_chars is_hex_digit d = true -> head_is "-" d = false.
Proof.
  destruct d as [|c r]; [reflexivity|]. cbn [all_chars head_is].
  intros [Hc _]%andb_true_iff.
  destruct (Ascii.eqb_spec c "-") as [->|]; [discriminate|reflexivity].
Qed.

Lemma digitsOf_hex d : all_chars is_hex_digit d = true -> digitsOf d = d.
Proof.
  destruct d as [|c0 [|c1 r]]; try reflexivity. cbn [all_chars digitsOf].
  intros [_ [H1 _]%andb_true_iff]%andb_true_iff.
  destruct (Ascii.eqb_spec c1 "x") as [->|]; [discriminate|].
  rewrite andb_false_r. reflexivity.
Qed.

Lemma toHex_digits d :
  all_chars is_hex_digit d = true -> toHex d = Some (toHexDigits d).
Proof.
  intros H. unfold toHex. rewrite (head_is_hex d H), (digitsOf_hex d H). reflexivity.
Qed.

Lemma trim00_hex ds :
  all_chars is_hex_digit (trim00 ds) = all_chars is_hex_digit ds.
Proof. apply (trim00_invisible (all_chars is_hex_digit)). reflexivity. Qed.

Lemma toHexDigits_hex d :
  d <> ""%string ->
  toHexDigits d = "0x" +:+ trim00 (padEven d) /\
  all_chars is_hex_digit (trim00 (padEven d)) = all_chars is_hex_digit d /\
  HexString.Raw.to_N (trim00 (padEven d)) 0 = HexString.Raw.to_N d 0 /\
  strip_zeros (trim00 (padEven d)) = strip_zeros d.
Proof.
  intros Hne. destruct (padded_digits d) as (Hs & Hn & Hh & _).
  split; [destruct d; [contradiction|reflexivity]|].
  split; [rewrite trim00_hex; exact Hh|].
  split.
  - rewrite (trim00_invisible (fun d => HexString.Raw.to_N d 0) to_N_zero). exact Hn.
  - rewrite (trim00_invisible strip_zeros strip_zeros_zero). exact Hs.
Qed.

(** [toHex] gives "0x00" for zero and for nothing else. *)
Lemma toHexDigits_zero d :
  all_chars is_hex_digit d = true -> d <> ""%string ->
  String.eqb (toHexDigits d) "0x00" = N.eqb (HexString.Raw.to_N d 0) 0.
Proof.
  intros Hhex Hne. destruct (toHexDigits_hex d Hne) as (-> & _ & Hn & Hs).
  destruct (padded_digits d) as (Hps & _ & _ & Heven).
  destruct (N.eqb_spec (HexString.Raw.to_N d 0) 0) as [Hz|Hnz].
  - apply (to_N_is_zero _ _ Hhex) in Hz as [_ Hz].
    rewrite trim00_zeros; [reflexivity|exact Heven| |rewrite Hps; exact Hz].
    unfold padEven. destruct (Nat.odd (String.length d)); [discriminate|exact Hne].
  - destruct (String.eqb_spec ("0x" +:+ trim00 (padEven d)) "0x00") as [He|]; [|reflexivity].
    exfalso. apply Hnz. rewrite <- Hn.
    rewrite append_0x in He. injection He as He. rewrite He. reflexivity.
Qed.

Lemma isZero_0x e :
  all_chars is_hex_digit e = true ->
  isZero ("0x" +:+ e) = Some (N.eqb (HexString.Raw.to_N e 0) 0).
Proof.
  intros H. unfold isZero, toBN. rewrite append_0x.
  cbn [head_is Ascii.eqb Bool.eqb substring_from]. unfold BN_hex. rewrite H.
  cbn [option_map]. destruct (HexString.Raw.to_N e 0); reflexivity.
Qed.

Lemma isZero_neg e :
  all_chars is_hex_digit e = true ->
  isZero ("-0x" +:+ e) = Some (N.eqb (HexString.Raw.to_N e 0) 0).
Proof.
  intros H. unfold isZero, toBN.
  change ("-0x" +:+ e) with (String "-" (String "0" (String "x" e))).
  cbn [head_is Ascii.eqb Bool.eqb substring_from]. unfold BN_hex. rewrite H.
  cbn [option_map]. destruct (HexString.Raw.to_N e 0); reflexivity.
Qed.

Lemma replace_0x_zeros_neg s :
  replace_0x_zeros (String "-" s) = String "-" s.
Proof. destruct s as [|c1 [|c2 r]]; reflexivity. Qed.

(** What formatValue makes of the BigNumber of the digits [d], *)
Lemma format_digits d v :
  all_chars is_hex_digit d = true -> d <> ""%string ->
  from v = Some (toHexDigits d) ->
  formatValue v = Some ("0x" +:+ canonical d).
Proof.
  intros Hhex Hne Hfrom. unfold formatValue. rewrite Hfrom.
  destruct (toHexDigits_hex d Hne) as (-> & Hh & Hn & Hs).
  rewrite isZero_0x by (rewrite Hh; exact Hhex). rewrite Hn.
  unfold toHexString, canonical. rewrite replace_0x_zeros_spec, Hs.
  destruct (N.eqb_spec (HexString.Raw.to_N d 0) 0) as [Hz|Hnz].
  - apply (to_N_is_zero _ _ Hhex) in Hz as [_ ->]. reflexivity.
  - destruct (strip_zeros d) eqn:Hstrip; [|reflexivity].
    exfalso. apply Hnz. apply (to_N_is_zero _ _ Hhex). split; [reflexivity|exact Hstrip].
Qed.

(** and of the BigNumber of the digits [d] with a minus sign. *)
Lemma format_neg_digits d v :
  all_chars is_hex_digit d = true -> d <> ""%string ->
  from v = Some (if N.eqb (HexString.Raw.to_N d 0) 0 then "0x00"%string
                 else "-" +:+ toHexDigits d) ->
  formatValue v = Some (if N.eqb (HexString.Raw.to_N d 0) 0 then "0x0"%string
                        else "-0x" +:+ padEven (canonical d)).
Proof.
  intros Hhex Hne Hfrom. unfold formatValue. rewrite Hfrom.
  destruct (N.eqb_spec (HexString.Raw.to_N d 0) 0) as [Hz|Hnz]; [reflexivity|].
  destruct (toHexDigits_hex d Hne) as (-> & Hh & Hn & Hs).
  change ("-" +:+ ("0x" +:+ trim00 (padEven d))) with ("-0x" +:+ trim00 (padEven d)).
  rewrite isZero_neg by (rewrite Hh; exact Hhex). rewrite Hn.
  destruct (N.eqb_spec (HexString.Raw.to_N d 0) 0) as [|_]; [contradiction|].
  unfold toHexString.
  change ("-0x" +:+ trim00 (padEven d)) with (String "-" ("0x" +:+ trim00 (padEven d))).
  rewrite replace_0x_zeros_neg.
  assert (Hstrip : strip_zeros d <> ""%string).
  { intros Hs'. apply Hnz. apply (to_N_is_zero _ _ Hhex). split; [reflexivity|exact Hs']. }
  destruct (padded_digits d) as (Hps & _ & _ & Heven).
  rewrite trim00_even; [|exact Heven|rewrite Hps; exact Hstrip].
  rewrite Hps. unfold canonical.
  destruct (strip_zeros d); [contradiction|reflexivity].
Qed.

Lemma of_pos_hex p :
  forall rest, all_chars is_hex_digit rest = true ->
  all_chars is_hex_digit (HexString.Raw.of_pos p rest) = true.
Proof.
  assert (H : forall n p rest, (Pos.size_nat p <= n)%nat ->
            all_chars is_hex_digit rest = true ->
            all_chars is_hex_digit (HexString.Raw.of_pos p rest) = true).
  { induction n as [|n IH]; intros q rest Hn Hrest.
    - destruct q; cbn in Hn; lia.
    - do 4 (try destruct q as [q|q|]); cbn [HexString.Raw.of_pos];
        try (cbn [all_chars]; rewrite Hrest; reflexivity);
        (apply IH; [cbn [Pos.size_nat] in Hn; lia
                   | cbn [all_chars]; rewrite Hrest; reflexivity]). }
  intros rest. apply (H (Pos.size_nat p)). lia.
Qed.

Lemma BN_toString16_value n :
  HexString.Raw.to_N (BN_toString16 (Z.of_N n)) 0 = n.
Proof.
  destruct n as [|p]; [reflexivity|]. cbn [BN_toString16 Z.of_N].
  apply (HexString.Raw.to_N_of_pos p "" 0).
Qed.

Lemma BN_toString16_hex n :
  all_chars is_hex_digit (BN_toString16 (Z.of_N n)) = true.
Proof. destruct n as [|p]; [reflexivity|]. apply of_pos_hex. reflexivity. Qed.

Lemma BN_toString16_digits n : BN_toString16 (Z.of_N n) <> ""%string.
Proof.
  intros H. pose proof (BN_toString16_value n) as Hv. rewrite H in Hv.
  cbn in Hv. subst n. discriminate.
Qed.

Lemma from_hex d :
  all_chars is_hex_digit d = true -> d <> ""%string ->
  from ("0x" +:+ d) = Some (toHexDigits d).
Proof.
  intros Hhex Hne. unfold from, is_hex_numeral, unsigned. rewrite append_0x.
  cbn [head_is Ascii.eqb Bool.eqb].
  destruct d as [|c r]; [contradiction|]. rewrite Hhex. reflexivity.
Qed.

Lemma from_neg_hex d :
  all_chars is_hex_digit d = true -> d <> ""%string ->
  from ("-0x" +:+ d) =
  Some (if N.eqb (HexString.Raw.to_N d 0) 0 then "0x00"%string
        else "-" +:+ toHexDigits d).
Proof.
  intros Hhex Hne. unfold from, is_hex_numeral, unsigned.
  change ("-0x" +:+ d) with (String "-" (String "0" (String "x" d))).
  cbn [head_is Ascii.eqb Bool.eqb substring_from].
  destruct d as [|c r]; [contradiction|]. rewrite Hhex. cbn [andb orb].
  unfold toHex. cbn [head_is Ascii.eqb Bool.eqb substring_from digitsOf andb].
  rewrite toHexDigits_zero by assumption.
  destruct (N.eqb_spec (HexString.Raw.to_N (String c r) 0) 0) as [Hz|]; [|reflexivity].
  f_equal. apply String.eqb_eq. rewrite toHexDigits_zero by assumption.
  apply N.eqb_eq, Hz.
Qed.

(** A decimal numeral is not taken for a hexadecimal one. *)
Lemma dec_not_hex_numeral s :
  all_chars is_dec_digit s = true -> is_hex_numeral s = false /\ unsigned s = s.
Proof.
  intros Hdec. unfold is_hex_numeral, unsigned.
  rewrite (head_is_hex s (all_dec_hex s Hdec)). split; [|reflexivity].
  destruct s as [|c0 [|c1 [|c2 r]]]; try reflexivity.
  cbn [all_chars] in Hdec.
  apply andb_true_iff in Hdec as [_ [H1 _]%andb_true_iff].
  destruct (Ascii.eqb_spec c1 "x") as [->|]; [discriminate|].
  destruct (Ascii.eqb_spec c1 "X") as [->|]; [discriminate|].
  rewrite andb_false_r. reflexivity.
Qed.

Lemma from_dec s :
  all_chars is_dec_digit s = true -> s <> ""%string ->
  from s = Some (toHexDigits (BN_toString16 (Z.of_N (dec_value s)))).
Proof.
  intros Hdec Hne. unfold from.
  destruct (dec_not_hex_numeral s Hdec) as [-> Hu].
  unfold is_dec_numeral, BN_decimal. rewrite Hu.
  rewrite (head_is_hex s (all_dec_hex s Hdec)).
  destruct s as [|c r]; [contradiction|]. rewrite Hdec.
  apply toHex_digits, BN_toString16_hex.
Qed.

Lemma from_neg_dec s :
  all_chars is_dec_digit s = true -> s <> ""%string ->
  from ("-" +:+ s) =
  Some (if N.eqb (dec_value s) 0 then "0x00"%string
        else "-" +:+ toHexDigits (BN_toString16 (Z.of_N (dec_value s)))).
Proof.
  intros Hdec Hne. unfold from.
  assert (Hu : unsigned ("-" +:+ s) = s) by reflexivity.
  destruct (dec_not_hex_numeral s Hdec) as [Hnh Hus].
  unfold is_hex_numeral in *. rewrite Hus in Hnh. rewrite Hu, Hnh.
  unfold is_dec_numeral, BN_decimal. rewrite Hu.
  change (head_is "-" ("-" +:+ s)) with true.
  change (substring_from 1 ("-" +:+ s)) with s.
  destruct s as [|c r]; [contradiction|]. rewrite Hdec.
  destruct (dec_value (String c r)) as [|p] eqn:Hv; [reflexivity|].
  cbn [Z.of_N N.eqb]. change (- Z.pos p) with (Z.neg p). cbn [BN_toString16].
  unfold toHex. cbn [head_is Ascii.eqb Bool.eqb substring_from].
  pose proof (BN_toString16_hex (Npos p)) as Hh. cbn [Z.of_N BN_toString16] in Hh.
  pose proof (BN_toString16_digits (Npos p)) as Hd. cbn [Z.of_N BN_toString16] in Hd.
  pose proof (BN_toString16_value (Npos p)) as Hn. cbn [Z.of_N BN_toString16] in Hn.
  rewrite (head_is_hex _ Hh), (digitsOf_hex _ Hh).
  rewrite toHexDigits_zero by assumption. rewrite Hn. reflexivity.
Qed.

Lemma formatValue_hex c r :
  all_chars is_hex_digit (String c r) = true ->
  formatValue ("0x" +:+ String c r) = Some ("0x" +:+ canonical (String c r)).
Proof.
  intros Hhex. apply format_digits; [exact Hhex|discriminate|].
  apply from_hex; [exact Hhex|discriminate].
Qed.

Lemma formatValue_neg_hex d :
  all_chars is_hex_digit d = true -> d <> ""%string ->
  formatValue ("-0x" +:+ d) =
  Some (if N.eqb (HexString.Raw.to_N d 0) 0 then "0x0"%string
        else "-0x" +:+ padEven (canonical d)).
Proof.
  intros Hhex Hne. apply format_neg_digits; [exact Hhex|exact Hne|].
  apply from_neg_hex; assumption.
Qed.

Lemma formatValue_decimal s :
  s <> ""%string ->
  all_chars is_dec_digit s = true ->
  formatValue s = Some ("0x" +:+ canonical (BN_toString16 (Z.of_N (dec_value s)))).
Proof.
  intros Hne Hdec. apply format_digits;
    [apply BN_toString16_hex|apply BN_toString16_digits|].
  apply from_dec; assumption.
Qed.

Lemma formatValue_neg_decimal s :
  s <> ""%string ->
  all_chars is_dec_digit s = true ->
  formatValue ("-" +:+ s) =
  Some (if N.eqb (dec_value s) 0 then "0x0"%string
        else "-0x" +:+ padEven (canonical (BN_toString16 (Z.of_N (dec_value s))))).
Proof.
  intros Hne Hdec.
  rewrite <- (BN_toString16_value (dec_value s)) at 1.
  apply format_neg_digits; [apply BN_toString16_hex|apply BN_toString16_digits|].
  rewrite BN_toString16_value. apply from_neg_dec; assumption.
Qed.

(** C8, as amended: the value is normalized for the sends the replay
    reissues, not for the final batch call. The request of a replayed
    transaction carries formatValue of the encoded value, whereas
    submitTransactions hands the wrapping provider the batch as the
    encoders return it, for a single transaction its encoded call itself.
    formatValue maps "0x00" and "0x0000" to "0x0" and "0x00a0" to "0xa0";
    every hexadecimal numeral "0x" followed by one or more digits goes to
    "0x" followed by its canonical digits, which have no leading zero ("0"
    itself apart) and denote the same number; a decimal numeral goes to the
    canonical hexadecimal numeral of its number. With a minus sign before
    it, a numeral of zero goes to "0x0", and any other numeral to "-0x"
    followed by its canonical digits with one zero before them when their
    number is odd. *)
Theorem C8_value_normalization :
  formatValue "0x00" = Some "0x0"%string /\
  formatValue "0x0000" = Some "0x0"%string /\
  formatValue "0x00a0" = Some "0xa0"%string /\
  (forall (digits : string),
      digits <> ""%string ->
      all_chars is_hex_digit digits = true ->
      formatValue ("0x" +:+ digits) = Some ("0x" +:+ canonical digits) /\
      (canonical digits = "0"%string \/
       exists c rest, canonical digits = String c rest /\ c <> "0"%char) /\
      HexString.to_N ("0x" +:+ canonical digits) = HexString.to_N ("0x" +:+ digits) /\
      formatValue ("-0x" +:+ digits) =
        Some (if N.eqb (HexString.to_N ("0x" +:+ digits)) 0 then "0x0"%string
              else "-0x" +:+ padEven (canonical digits))) /\
  (forall (numeral : string),
      numeral <> ""%string ->
      all_chars is_dec_digit numeral = true ->
      let digits := BN_toString16 (Z.of_N (dec_value numeral)) in
        formatValue numeral = Some ("0x" +:+ canonical digits) /\
        (canonical digits = "0"%string \/
         exists c rest, canonical digits = String c rest /\ c <> "0"%char) /\
        HexString.to_N ("0x" +:+ canonical digits) = dec_value numeral /\
        formatValue ("-" +:+ numeral) =
          Some (if N.eqb (dec_value numeral) 0 then "0x0"%string
                else "-0x" +:+ padEven (canonical digits))) /\
  (forall (avatarAddress : string) (encoded : MetaTransaction),
      rerunRequest avatarAddress encoded =
      match formatValue (value encoded) with
      | Some normalized =>
          Some {| method := "eth_sendTransaction";
                  params := Some [VObj [("to", VStr (to encoded));
                                        ("data", VStr (data encoded));
                                        ("value", VStr normalized);
                                        ("from", VStr avatarAddress)]] |}
      | None => None
      end) /\
  (forall (TransactionInput TransactionState : Type)
          (encodeSingle : TransactionInput -> MetaTransaction)
          (encodeMulti : list MetaTransaction -> string -> MetaTransaction)
          (input : TransactionState -> TransactionInput)
          (reducer : list TransactionState -> Action TransactionInput ->
                     list TransactionState)
          (transactions store : list TransactionState),
      exists l1,
        invoke 1
          (submitTransactions TransactionInput encodeSingle encodeMulti
             TransactionState input reducer transactions)
          {| this := store; promises := []; blocked := []; microtasks := [];
             calls := []; timers := [] |} = Some (0%nat, l1) /\
        calls l1 =
          [WrappingProviderRequest "eth_sendTransaction"
             [batchTransaction TransactionInput encodeSingle encodeMulti
                TransactionState input transactions]] /\
        (forall tx, transactions = [tx] ->
           calls l1 =
             [WrappingProviderRequest "eth_sendTransaction"
                [encodeSingle (input tx)]])).
Proof.
  split; [reflexivity|]. split; [reflexivity|]. split; [reflexivity|].
  split; [|split; [|split]].
  - intros digits Hne Hhex. destruct digits as [|c r]; [contradiction|].
    split; [apply formatValue_hex, Hhex|]. split; [apply canonical_head|].
    split; [apply canonical_value|].
    apply formatValue_neg_hex; [exact Hhex|discriminate].
  - intros numeral Hne Hdec digits.
    split; [apply formatValue_decimal; assumption|].
    split; [apply canonical_head|].
    split; [rewrite canonical_value; apply BN_toString16_value|].
    apply formatValue_neg_decimal; assumption.
  - intros avatarAddress encoded. unfold rerunRequest.
    destruct (formatValue (value encoded)); reflexivity.
  - intros TI TS encodeSingle encodeMulti input reducer transactions store.
    eexists. split; [reflexivity|]. split; [reflexivity|].
    intros tx ->. reflexivity.
Qed.

(** C8 fails for the final batch call, and for a value with a minus sign:
    the batch submitTransactions sends for a transaction that is encoded
    with the value "0x00" carries "0x00", which formatValue turns into
    "0x0"; and formatValue makes "-0x01" of "-1". *)
Lemma C8_counterexample :
  (exists l1 batch,
      invoke 1
        (submitTransactions string Example.encodeSingle Example.encodeMulti
           Example.TransactionState Example.input Example.reducer
           [Example.recorded])
        {| this := [Example.recorded]; promises := []; blocked := [];
           microtasks := []; calls := []; timers := [] |} = Some (0%nat, l1) /\
      calls l1 = [WrappingProviderRequest "eth_sendTransaction" [batch]] /\
      value batch = "0x00"%string /\
      formatValue (value batch) = Some "0x0"%string) /\
  formatValue "-1" = Some "-0x01"%string.
Proof.
  split; [|reflexivity].
  eexists. eexists. split; [reflexivity|]. split; [reflexivity|].
  split; reflexivity.
Qed.

Lemma C8_witness :
  formatValue "0x000A0b" = Some "0xA0b"%string /\
  HexString.to_N "0xA0b" = HexString.to_N "0x000A0b" /\
  formatValue "-0x000A0b" = Some "-0x0A0b"%string /\
  formatValue "0255" = Some "0xff"%string /\
  formatValue "-256" = Some "-0x0100"%string /\
  formatValue "-00" = Some "0x0"%string.
Proof.
  destruct C8_value_normalization as (_ & _ & _ & Hhex & Hdec & _).
  destruct (Hhex "000A0b"%string ltac:(discriminate) eq_refl) as (Hf & _ & Hv & Hneg).
  split; [exact Hf|]. split; [exact Hv|]. split; [exact Hneg|].
  destruct (Hdec "0255"%string ltac:(discriminate) eq_refl) as (Hd & _ & _).
  split; [exact Hd|].
  destruct (Hdec "256"%string ltac:(discriminate) eq_refl) as (_ & _ & _ & Hn).
  split; [exact Hn|].
  destruct (Hdec "00"%string ltac:(discriminate) eq_refl) as (_ & _ & _ & Hz).
  exact Hz.
Defined.

(** C3: for a non-empty list of transactions the batch is, for a single
    entry, that entry's encoded call itself, and for two or more entries
    encodeMulti of the entries' encoded calls, one per entry and in the
    entries' order, with the MultiSend address 0xA238...7761. *)
Theorem C3_batch_encoding :
  forall (TransactionInput TransactionState : Type)
         (encodeSingle : TransactionInput -> MetaTransaction)
         (encodeMulti : list MetaTransaction -> string -> MetaTransaction)
         (input : TransactionState -> TransactionInput)
         (transactions : list TransactionState),
    transactions <> [] ->
    let encoded := map (fun tx => encodeSingle (input tx)) transactions in
    (forall tx, transactions = [tx] ->
       batchTransaction _ encodeSingle encodeMulti _ input transactions =
       encodeSingle (input tx)) /\
    ((2 <= length transactions)%nat ->
       batchTransaction _ encodeSingle encodeMulti _ input transactions =
       encodeMulti encoded "0xA238CBeb142c10Ef7Ad8442C6D1f9E89e07e7761") /\
    length encoded = length transactions /\
    (forall i tx, transactions !! i = Some tx ->
       encoded !! i = Some (encodeSingle (input tx))).
Proof.
  intros TI TS encodeSingle encodeMulti input txs Hne encoded.
  split; [|split; [|split]].
  - intros tx ->. reflexivity.
  - intros Hlen. unfold batchTransaction.
    destruct txs as [|a [|b rest]]; cbn in Hlen; try lia. reflexivity.
  - apply length_map.
  - intros i tx Hi. unfold encoded.
    change (map ?f ?l) with (f <$> l). rewrite list_lookup_fmap, Hi. reflexivity.
Qed.


Lemma C3_witness :
  batchTransaction string Example.encodeSingle Example.encodeMulti
    Example.TransactionState Example.input [Example.recorded] =
  Example.encodeSingle "0xb2" /\
  batchTransaction string Example.encodeSingle Example.encodeMulti
    Example.TransactionState Example.input [Example.submitted; Example.recorded] =
  Example.encodeMulti [Example.encodeSingle "0xa1"; Example.encodeSingle "0xb2"]
    "0xA238CBeb142c10Ef7Ad8442C6D1f9E89e07e7761".
Proof.
  split.
  - destruct (C3_batch_encoding string Example.TransactionState
                Example.encodeSingle Example.encodeMulti Example.input
                [Example.recorded] ltac:(discriminate)) as (Hsingle & _).
    exact (Hsingle Example.recorded eq_refl).
  - destruct (C3_batch_encoding string Example.TransactionState
                Example.encodeSingle Example.encodeMulti Example.input
                [Example.submitted; Example.recorded] ltac:(discriminate))
      as (_ & Hmulti & _).
    exact (Hmulti ltac:(cbn; lia)).
Defined.

Section Rerun.
Variable TransactionInput : Type.
Variable input_id : TransactionInput -> string.
Variable encodeSingle : TransactionInput -> MetaTransaction.
Variable TransactionState : Type.
Variable input : TransactionState -> TransactionInput.
Variable reducer :
  list TransactionState -> Action TransactionInput -> list TransactionState.
Variable avatarAddress : string.

Let rerun := rerun TransactionInput encodeSingle TransactionState input avatarAddress.
Let waiting := waiting TransactionInput encodeSingle TransactionState input avatarAddress.
Let finished := finished TransactionState.
Let sends_of := sends_of TransactionInput encodeSingle TransactionState input avatarAddress.

Lemma answer_waiting fuel store n cs v :
  length cs = S n ->
  forall remaining,
  reply (S fuel) n (Resolved v) (waiting store n cs remaining) =
  match remaining with
  | [] => Some (finished store cs)
  | tx :: rest =>
      match rerunRequest avatarAddress (encodeSingle (input tx)) with
      | Some r => Some (waiting store (S n) (cs ++ [Request r]) rest)
      | None =>
          Some {| this := store;
                  promises := [Settled (Rejected (Error "invalid BigNumber string"))];
                  blocked := []; microtasks := []; calls := cs; timers := [] |}
      end
  end.
Proof.
  intros Hlen remaining. unfold reply, waiting, Drawer.waiting.
  cbn [this promises blocked microtasks calls timers List.filter
       waits_on_call awaiting]. rewrite Nat.eqb_refl.
  cbn [negb app map cont own unwrap drain microtasks].
  destruct remaining as [|tx rest].
  - cbn [Drawer.rerun exec].
    unfold settle. cbn. destruct fuel; reflexivity.
  - cbn [Drawer.rerun].
    destruct (rerunRequest avatarAddress (encodeSingle (input tx))) as [r|].
    + cbn [exec this promises blocked microtasks calls timers app].
      rewrite Hlen. destruct fuel; reflexivity.
    + cbn [exec]. unfold settle. cbn. destruct fuel; reflexivity.
Qed.

Lemma rerun_in_order fuel vs :
  forall store n cs remaining sends,
  length cs = S n ->
  sends_of remaining sends ->
  (length vs <= S (length remaining))%nat ->
  answer_in_order (S fuel) n (map Resolved vs) (waiting store n cs remaining) =
  Some (if Nat.eqb (length vs) (S (length remaining))
        then finished store (cs ++ map Request sends)
        else waiting store (n + length vs)
               (cs ++ map Request (firstn (length vs) sends))
               (skipn (length vs) remaining)).
Proof.
  induction vs as [|v vs IH]; intros store n cs remaining sends Hlen Hsends Hvs.
  - cbn. rewrite app_nil_r, Nat.add_0_r. reflexivity.
  - cbn [map answer_in_order]. rewrite answer_waiting by assumption.
    destruct Hsends as [|tx r rest sends' Hr Hrest].
    + cbn in Hvs. assert (vs = []) as -> by (destruct vs; [reflexivity|cbn in Hvs; lia]).
      cbn. rewrite app_nil_r. reflexivity.
    + rewrite Hr. rewrite (IH _ _ _ _ sends'); [| |assumption|].
      * cbn [length Nat.eqb firstn skipn map].
        rewrite <- !app_assoc. cbn [app]. rewrite Nat.add_succ_r. reflexivity.
      * rewrite length_app. cbn. lia.
      * cbn in Hvs. lia.
Qed.

Lemma reforkAndRerun_starts fuel first rest newTransactions store :
  invoke fuel
    (reforkAndRerun TransactionInput input_id encodeSingle TransactionState
       input reducer (first :: rest) newTransactions true avatarAddress)
    (idle TransactionState store) =
  Some (0%nat,
        waiting (reducer store (REMOVE_TRANSACTION (input_id (input first))))
          0%nat [Refork] newTransactions).
Proof. destruct fuel; reflexivity. Qed.

End Rerun.

(** C4, as amended: pressed with a ledger whose first entry is [first],
    reforkAndRerun dispatches REMOVE_TRANSACTION for the id of [first] and
    calls refork() before anything else; once refork has resolved it sends
    the new (not yet submitted) transactions, and only those, as
    eth_sendTransaction requests in their order, each one only after the
    call before it has been answered: after [j] answers exactly [j] of the
    sends have been issued, and after the answer to the last one the
    operation returns, having issued one send per new transaction. *)
Theorem C4_refork_and_rerun :
  forall (TransactionInput TransactionState : Type)
         (input_id : TransactionInput -> string)
         (encodeSingle : TransactionInput -> MetaTransaction)
         (input : TransactionState -> TransactionInput)
         (reducer : list TransactionState -> Action TransactionInput ->
                    list TransactionState)
         (avatarAddress : string)
         (first : TransactionState)
         (rest newTransactions store : list TransactionState)
         (sends : list JsonRpcRequest) (answers : list Js.value) (fuel : nat),
    (1 <= fuel)%nat ->
    sends_of TransactionInput encodeSingle TransactionState input avatarAddress
      newTransactions sends ->
    (length answers <= S (length newTransactions))%nat ->
    exists l1 l2,
      invoke fuel
        (reforkAndRerun TransactionInput input_id encodeSingle TransactionState
           input reducer (first :: rest) newTransactions true avatarAddress)
        (idle TransactionState store) = Some (0%nat, l1) /\
      this l1 = reducer store (REMOVE_TRANSACTION (input_id (input first))) /\
      calls l1 = [Refork] /\
      answer_in_order fuel 0 (map Resolved answers) l1 = Some l2 /\
      this l2 = this l1 /\
      calls l2 = Refork :: map Request (firstn (length answers) sends) /\
      promises l2 !! 0%nat =
        Some (if Nat.eqb (length answers) (S (length newTransactions))
              then Settled (Resolved VUndefined)
              else Pending) /\
      length sends = length newTransactions.
Proof.
  intros TI TS input_id encodeSingle input reducer avatar first rest new store
         sends answers fuel Hfuel Hsends Hlen.
  destruct fuel as [|fuel]; [lia|].
  do 2 eexists. split; [apply reforkAndRerun_starts|].
  split; [reflexivity|]. split; [reflexivity|].
  split; [apply rerun_in_order; [reflexivity|exact Hsends|exact Hlen]|].
  assert (Hl : length sends = length new).
  { symmetry. eapply List.Forall2_length. exact Hsends. }
  destruct (Nat.eqb_spec (length answers) (S (length new))) as [He|Hne].
  - split; [reflexivity|]. split; [|split; [reflexivity|exact Hl]].
    cbn [finished calls app]. rewrite firstn_all2 by lia. reflexivity.
  - split; [reflexivity|]. split; [reflexivity|]. split; [reflexivity|exact Hl].
Qed.

(** C4 fails for a ledger with a submitted entry: two sends are recorded in
    it, the operation runs to its end and drops both, and one send is
    reissued. *)
Lemma C4_counterexample :
  let allTransactions := [Example.submitted; Example.recorded] in
  let newTransactions := [Example.recorded] in
  match invoke 1 (Example.reforkAndRerun allTransactions newTransactions)
          (idle Example.TransactionState allTransactions) with
  | Some (p, l1) =>
      match answer_in_order 1 0 [Resolved VUndefined; Resolved (VStr "0xhash")] l1 with
      | Some l2 =>
          promises l2 !! p = Some (Settled (Resolved VUndefined)) /\
          this l2 = [] /\
          length allTransactions = 2%nat /\
          exists send, calls l2 = [Refork; Request send]
      | None => False
      end
  | None => False
  end.
Proof. cbn. repeat split. eexists. reflexivity. Qed.


Lemma C4_witness :
  let allTransactions := [Example.submitted; Example.recorded] in
  let newTransactions := [Example.recorded] in
  exists l1 l2 send,
    invoke 1 (Example.reforkAndRerun allTransactions newTransactions)
      (idle Example.TransactionState allTransactions) = Some (0%nat, l1) /\
    this l1 = [] /\
    calls l1 = [Refork] /\
    answer_in_order 1 0 [Resolved VUndefined; Resolved (VStr "0xhash")] l1 =
      Some l2 /\
    calls l2 = [Refork; Request send] /\
    promises l2 !! 0%nat = Some (Settled (Resolved VUndefined)).
Proof.
  intros allTransactions newTransactions.
  destruct (rerunRequest "0x00000000000000000000000000000000000000bb"
              (Example.encodeSingle (Example.input Example.recorded)))
    as [send|] eqn:Hsend; [|discriminate].
  destruct (C4_refork_and_rerun string Example.TransactionState (fun i => i)
              Example.encodeSingle Example.input Example.reducer
              "0x00000000000000000000000000000000000000bb"
              Example.submitted [Example.recorded] newTransactions
              allTransactions [send] [VUndefined; VStr "0xhash"] 1%nat)
    as (l1 & l2 & Hi & Ht & Hc & Ha & _ & Hc2 & Hp & _).
  - lia.
  - constructor; [exact Hsend | constructor].
  - cbn. lia.
  - exists l1, l2, send. split; [exact Hi|]. split; [exact Ht|].
    split; [exact Hc|]. split; [exact Ha|]. split; [exact Hc2 | exact Hp].
Defined.


Lemma strip_zeros_hex ds :
  all_chars is_hex_digit ds = true -> all_chars is_hex_digit (strip_zeros ds) = true.
Proof.
  induction ds as [|c r IH]; [reflexivity|]. cbn [strip_zeros all_chars].
  intros [Hc Hr]%andb_true_iff. destruct (Ascii.eqb c "0"); [apply IH, Hr|].
  cbn [all_chars]. rewrite Hc, Hr. reflexivity.
Qed.

Lemma canonical_hex ds :
  all_chars is_hex_digit ds = true -> all_chars is_hex_digit (canonical ds) = true.
Proof.
  intros H. unfold canonical. pose proof (strip_zeros_hex ds H) as Hs.
  destruct (strip_zeros ds); [reflexivity|exact Hs].
Qed.

Lemma strip_zeros_fixed c r :
  c <> "0"%char -> strip_zeros (String c r) = String c r.
Proof.
  intros Hc. cbn [strip_zeros]. destruct (Ascii.eqb_spec c "0"); [contradiction|reflexivity].
Qed.

Lemma canonical_canonical ds : canonical (canonical ds) = canonical ds.
Proof.
  destruct (canonical_head ds) as [->|(c & r & -> & Hc)]; [reflexivity|].
  unfold canonical. rewrite strip_zeros_fixed by assumption. reflexivity.
Qed.

Lemma canonical_digits ds : canonical ds <> ""%string.
Proof. unfold canonical. destruct (strip_zeros ds); discriminate. Qed.

Lemma canonical_padEven ds : canonical (padEven ds) = canonical ds.
Proof.
  unfold canonical. destruct (padded_digits ds) as (-> & _). reflexivity.
Qed.

Lemma all_chars_In p s c :
  all_chars p s = true -> In c (list_ascii_of_string s) -> p c = true.
Proof.
  induction s as [|c' r IH]; [intros _ []|]. cbn [all_chars list_ascii_of_string].
  intros [Hc Hr]%andb_true_iff [<-|Hin]; [exact Hc|apply IH; assumption].
Qed.

(** A value is its unsigned part, with or without a minus sign before it. *)
Lemma unsigned_cases v :
  (v = unsigned v /\ head_is "-" v = false) \/ v = "-" +:+ unsigned v.
Proof.
  unfold unsigned. destruct v as [|c r]; [left; split; reflexivity|].
  cbn [head_is substring_from].
  destruct (Ascii.eqb_spec c "-") as [->|]; [right|left; split]; reflexivity.
Qed.

(** The numerals [BigNumber.from] takes for hexadecimal ones. *)
Lemma hex_numeral_cases v :
  is_hex_numeral v = true ->
  exists digits,
    digits <> ""%string /\ all_chars is_hex_digit digits = true /\
    (unsigned v = "0x" +:+ digits \/ unsigned v = "0X" +:+ digits).
Proof.
  unfold is_hex_numeral.
  destruct (unsigned v) as [|c0 [|c1 [|c2 r]]]; try discriminate.
  intros [[H0 H1]%andb_true_iff Hhex]%andb_true_iff.
  apply Ascii.eqb_eq in H0 as ->. exists (String c2 r).
  split; [discriminate|]. split; [exact Hhex|].
  apply orb_true_iff in H1 as [H1|H1]; apply Ascii.eqb_eq in H1; subst c1;
    [left|right]; reflexivity.
Qed.

(** A numeral spelt with the prefix "0X" gets through [BigNumber.from],
    and [isZero] throws on it. *)
Lemma formatValue_upper_prefix v digits :
  unsigned v = "0X" +:+ digits ->
  formatValue v = None.
Proof.
  intros Hu.
  assert (Hbad : forall t, all_chars is_hex_digit t = all_chars is_hex_digit ("0X" +:+ digits) ->
                           BN_hex t = None).
  { intros t Ht. unfold BN_hex. rewrite Ht. reflexivity. }
  assert (Hdigits : toHexDigits ("0X" +:+ digits) =
                    "0x" +:+ trim00 (padEven ("0X" +:+ digits)) /\
                    BN_hex (trim00 (padEven ("0X" +:+ digits))) = None).
  { destruct (toHexDigits_hex ("0X" +:+ digits) ltac:(discriminate)) as (He & Hh & _).
    split; [exact He|]. apply Hbad, Hh. }
  destruct Hdigits as [He Hnone].
  unfold formatValue, from, is_hex_numeral.
  destruct (unsigned_cases v) as [[Hv Hhead]| Hv]; rewrite Hu in Hv |- *; subst v.
  - change ("0X" +:+ digits) with (String "0" (String "X" digits)) at 1.
    destruct digits as [|c r].
    + reflexivity.
    + cbn [Ascii.eqb Bool.eqb andb orb].
      destruct (all_chars is_hex_digit (String c r)); [|reflexivity].
      unfold toHex. rewrite Hhead.
      change (digitsOf ("0X" +:+ String c r)) with ("0X" +:+ String c r).
      rewrite He. unfold isZero, toBN.
      change (head_is "-" ("0x" +:+ ?t)) with false.
      change (substring_from 2 ("0x" +:+ ?t)) with t.
      rewrite Hnone. reflexivity.
  - change ("0X" +:+ digits) with (String "0" (String "X" digits)) at 1.
    destruct digits as [|c r].
    + reflexivity.
    + cbn [Ascii.eqb Bool.eqb andb orb].
      destruct (all_chars is_hex_digit (String c r)); [|reflexivity].
      unfold toHex.
      change (head_is "-" ("-" +:+ ?t)) with true.
      change (substring_from 1 ("-" +:+ ?t)) with t.
      change (head_is "-" ("0X" +:+ ?t)) with false.
      change (digitsOf ("0X" +:+ String c r)) with ("0X" +:+ String c r).
      rewrite He.
      destruct (String.eqb_spec ("0x" +:+ trim00 (padEven ("0X" +:+ String c r))) "0x00")
        as [Heq|_].
      * exfalso. rewrite append_0x in Heq. injection Heq as Heq.
        rewrite Heq in Hnone. discriminate.
      * unfold isZero, toBN.
        change (head_is "-" ("-" +:+ ?t)) with true.
        change (substring_from 3 ("-" +:+ ("0x" +:+ ?t))) with t.
        rewrite Hnone. reflexivity.
Qed.

(** What formatValue returns. *)
Lemma formatValue_cases v r :
  formatValue v = Some r ->
  exists digits,
    digits <> ""%string /\ all_chars is_hex_digit digits = true /\
    (r = "0x" +:+ canonical digits \/
     (HexString.Raw.to_N digits 0 <> 0%N /\
      r = "-0x" +:+ padEven (canonical digits))).
Proof.
  intros H.
  assert (Hneg : forall d, all_chars is_hex_digit d = true ->
            (if N.eqb (HexString.Raw.to_N d 0) 0 then "0x0"%string
             else "-0x" +:+ padEven (canonical d)) = r ->
            r = "0x" +:+ canonical d \/
            (HexString.Raw.to_N d 0 <> 0%N /\ r = "-0x" +:+ padEven (canonical d))).
  { intros d Hhex <-. destruct (N.eqb_spec (HexString.Raw.to_N d 0) 0) as [Hz|Hnz].
    - left. apply (to_N_is_zero _ _ Hhex) in Hz as [_ Hz].
      unfold canonical. rewrite Hz. reflexivity.
    - right. split; [exact Hnz|reflexivity]. }
  destruct (is_hex_numeral v) eqn:Hhn.
  - destruct (hex_numeral_cases v Hhn) as (digits & Hne & Hhex & [Hu|Hu]);
      [|rewrite (formatValue_upper_prefix v digits Hu) in H; discriminate].
    exists digits. split; [exact Hne|]. split; [exact Hhex|].
    destruct (unsigned_cases v) as [[Hv _]|Hv]; rewrite Hu in Hv; subst v.
    + destruct digits as [|c d]; [contradiction|].
      rewrite formatValue_hex in H by assumption. left. congruence.
    + change ("-" +:+ ("0x" +:+ digits)) with ("-0x" +:+ digits) in H.
      rewrite formatValue_neg_hex in H by assumption.
      apply Hneg; [exact Hhex|congruence].
  - destruct (is_dec_numeral v) eqn:Hdn;
      [|unfold formatValue, from in H; rewrite Hhn, Hdn in H; discriminate].
    assert (Hdec : unsigned v <> ""%string /\ all_chars is_dec_digit (unsigned v) = true).
    { unfold is_dec_numeral in Hdn. destruct (unsigned v); [discriminate|].
      split; [discriminate|exact Hdn]. }
    destruct Hdec as [Hne Hdec].
    exists (BN_toString16 (Z.of_N (dec_value (unsigned v)))).
    split; [apply BN_toString16_digits|]. split; [apply BN_toString16_hex|].
    destruct (unsigned_cases v) as [[Hv _]|Hv]; rewrite Hv in H.
    + rewrite formatValue_decimal in H by assumption. left. congruence.
    + rewrite formatValue_neg_decimal in H by assumption.
      apply Hneg; [apply BN_toString16_hex|].
      rewrite BN_toString16_value. congruence.
Qed.

(** The characters of the strings [BigNumber.from] accepts. *)
Lemma from_chars v bn c :
  from v = Some bn ->
  In c (list_ascii_of_string v) ->
  is_hex_digit c = true \/ c = "x"%char \/ c = "X"%char \/ c = "-"%char.
Proof.
  intros Hfrom Hin.
  assert (Hu : In c (list_ascii_of_string (unsigned v)) \/ c = "-"%char).
  { destruct (unsigned_cases v) as [[Hv _]|Hv]; rewrite Hv in Hin; [left; exact Hin|].
    destruct Hin as [<-|Hin]; [right; reflexivity|left; exact Hin]. }
  destruct Hu as [Hu| ->]; [|auto].
  unfold from in Hfrom. destruct (is_hex_numeral v) eqn:Hhn.
  - destruct (hex_numeral_cases v Hhn) as (digits & _ & Hhex & [Hv|Hv]);
      rewrite Hv in Hu; destruct Hu as [<-|[<-|Hu]]; auto;
      left; apply (all_chars_In _ _ _ Hhex Hu).
  - destruct (is_dec_numeral v) eqn:Hdn; [|discriminate].
    unfold is_dec_numeral in Hdn. destruct (unsigned v) as [|c' r] eqn:Hv; [discriminate|].
    left. apply dec_digit_is_hex. apply (all_chars_In _ _ _ Hdn Hu).
Qed.

(** X16: formatValue is idempotent: a value it returns, for a numeral with
    or without a minus sign, is returned unchanged when it is formatted
    again. *)
Theorem X16_formatValue_idempotent :
  forall (value formatted : string),
    formatValue value = Some formatted ->
    formatValue formatted = Some formatted.
Proof.
  intros v r H.
  destruct (formatValue_cases v r H) as (digits & Hne & Hhex & [->|[Hnz ->]]).
  - pose proof (canonical_hex digits Hhex) as Hc.
    pose proof (canonical_digits digits) as Hd.
    destruct (canonical digits) as [|c d] eqn:Hcan; [contradiction|].
    rewrite formatValue_hex by assumption.
    rewrite <- Hcan, canonical_canonical. reflexivity.
  - destruct (padded_digits (canonical digits)) as (_ & Hn & Hh & _).
    rewrite formatValue_neg_hex.
    + rewrite Hn. pose proof (canonical_value digits) as Hv.
      change (HexString.to_N ("0x" +:+ canonical digits))
        with (HexString.Raw.to_N (canonical digits) 0) in Hv.
      rewrite Hv. destruct (N.eqb_spec (HexString.Raw.to_N digits 0) 0); [contradiction|].
      rewrite canonical_padEven, canonical_canonical. reflexivity.
    + rewrite Hh. apply canonical_hex, Hhex.
    + unfold padEven. destruct (Nat.odd (String.length (canonical digits)));
        [discriminate|apply canonical_digits].
Qed.

(** X17: what formatValue does not accept: the empty string, "0x"
    without a digit, and every string with a character that is neither a
    hexadecimal digit nor x, X or the minus sign. BigNumber.from throws on
    them, so formatValue does. *)
Theorem X17_formatValue_rejects :
  formatValue "" = None /\
  formatValue "0x" = None /\
  forall (value : string) (c : ascii),
    In c (list_ascii_of_string value) ->
    is_hex_digit c = false ->
    c <> "x"%char -> c <> "X"%char -> c <> "-"%char ->
    formatValue value = None.
Proof.
  split; [reflexivity|]. split; [reflexivity|].
  intros v c Hin Hc Hx HX Hm.
  unfold formatValue. destruct (from v) as [bn|] eqn:Hfrom; [|reflexivity].
  exfalso. destruct (from_chars v bn c Hfrom Hin) as [H|[H|[H|H]]]; congruence.
Qed.

Section Failure.
Variable TransactionInput : Type.
Variable input_id : TransactionInput -> string.
Variable encodeSingle : TransactionInput -> MetaTransaction.
Variable TransactionState : Type.
Variable input : TransactionState -> TransactionInput.
Variable reducer :
  list TransactionState -> Action TransactionInput -> list TransactionState.
Variable avatarAddress : string.

Let rerun := rerun TransactionInput encodeSingle TransactionState input avatarAddress.
Let waiting := waiting TransactionInput encodeSingle TransactionState input avatarAddress.
Let sends_of := sends_of TransactionInput encodeSingle TransactionState input avatarAddress.

Lemma answer_waiting_rejected fuel store n cs e remaining :
  reply (S fuel) n (Rejected e) (waiting store n cs remaining) =
  Some (failed_with e store cs).
Proof.
  unfold reply, waiting, Drawer.waiting.
  cbn [this promises blocked microtasks calls timers List.filter
       waits_on_call awaiting]. rewrite Nat.eqb_refl.
  cbn [negb app map cont own unwrap drain microtasks exec].
  unfold settle. cbn. destruct fuel; reflexivity.
Qed.

Lemma answer_in_order_app fuel (l : loop (list TransactionState) provider_call) :
  forall first second n,
  answer_in_order fuel n (first ++ second) l =
  match answer_in_order fuel n first l with
  | Some l' => answer_in_order fuel (n + length first) second l'
  | None => None
  end.
Proof.
  intros first. revert l. induction first as [|o first IH]; intros l second n.
  - cbn. rewrite Nat.add_0_r. reflexivity.
  - cbn [app answer_in_order length]. destruct (reply fuel n o l) as [l'|]; [|reflexivity].
    rewrite IH. rewrite Nat.add_succ_r. reflexivity.
Qed.

Lemma rerun_rejected fuel vs e :
  forall store n cs remaining sends,
  length cs = S n ->
  sends_of remaining sends ->
  (length vs <= length remaining)%nat ->
  answer_in_order (S fuel) n (map Resolved vs ++ [Rejected e])
    (waiting store n cs remaining) =
  Some (failed_with e store (cs ++ map Request (firstn (length vs) sends))).
Proof.
  intros store n cs remaining sends Hlen Hsends Hvs.
  rewrite answer_in_order_app.
  unfold waiting, sends_of in *.
  rewrite (rerun_in_order _ encodeSingle _ input avatarAddress fuel vs
             store n cs remaining sends Hlen Hsends) by lia.
  replace (Nat.eqb (length vs) (S (length remaining))) with false
    by (symmetry; apply Nat.eqb_neq; lia).
  rewrite length_map. cbn [answer_in_order].
  rewrite answer_waiting_rejected. reflexivity.
Qed.

Lemma rerun_bad_value fuel bad later :
  rerunRequest avatarAddress (encodeSingle (input bad)) = None ->
  forall earlier vs store n cs sends,
  length cs = S n ->
  sends_of earlier sends ->
  length vs = S (length earlier) ->
  answer_in_order (S fuel) n (map Resolved vs)
    (waiting store n cs (earlier ++ bad :: later)) =
  Some (failed_with (Error "invalid BigNumber string") store
          (cs ++ map Request sends)).
Proof.
  intros Hbad earlier.
  induction earlier as [|tx earlier IH]; intros vs store n cs sends Hlen Hsends Hvs.
  - destruct vs as [|v [|? ?]]; try discriminate.
    inversion Hsends. subst. cbn [map answer_in_order app].
    unfold waiting. rewrite answer_waiting by assumption. rewrite Hbad.
    rewrite app_nil_r. reflexivity.
  - destruct vs as [|v vs]; [discriminate|].
    inversion Hsends as [|? r ? sends' Hr Hrest]. subst.
    cbn [map answer_in_order app].
    unfold waiting. rewrite answer_waiting by assumption. rewrite Hr.
    fold waiting. rewrite (IH vs _ _ _ sends').
    + cbn [map]. rewrite <- app_assoc. reflexivity.
    + rewrite length_app. cbn. lia.
    + exact Hrest.
    + cbn in Hvs. lia.
Qed.

End Failure.

(** X18: the replay stops at the first call that is rejected. When
    refork() or one of the sends rejects with [e] after [answers] calls have
    resolved, reforkAndRerun fails with [e]; the sends issued are the first
    [length answers] ones (none when it is refork that failed), the
    transactions after the failed one are never sent, and the store keeps
    the state the REMOVE_TRANSACTION dispatch has left. *)
Theorem X18_replay_stops_at_rejection :
  forall (TransactionInput TransactionState : Type)
         (input_id : TransactionInput -> string)
         (encodeSingle : TransactionInput -> MetaTransaction)
         (input : TransactionState -> TransactionInput)
         (reducer : list TransactionState -> Action TransactionInput ->
                    list TransactionState)
         (avatarAddress : string)
         (first : TransactionState)
         (rest newTransactions store : list TransactionState)
         (sends : list JsonRpcRequest) (answers : list Js.value) (e : Js.value)
         (fuel : nat),
    (1 <= fuel)%nat ->
    sends_of TransactionInput encodeSingle TransactionState input avatarAddress
      newTransactions sends ->
    (length answers <= length newTransactions)%nat ->
    exists l1 l2,
      invoke fuel
        (reforkAndRerun TransactionInput input_id encodeSingle TransactionState
           input reducer (first :: rest) newTransactions true avatarAddress)
        (idle TransactionState store) = Some (0%nat, l1) /\
      answer_in_order fuel 0 (map Resolved answers ++ [Rejected e]) l1 = Some l2 /\
      promises l2 !! 0%nat = Some (Settled (Rejected e)) /\
      this l2 = reducer store (REMOVE_TRANSACTION (input_id (input first))) /\
      calls l2 = Refork :: map Request (firstn (length answers) sends) /\
      blocked l2 = [].
Proof.
  intros TI TS input_id encodeSingle input reducer avatar first rest new store
         sends answers e fuel Hfuel Hsends Hlen.
  destruct fuel as [|fuel]; [lia|].
  do 2 eexists. split; [apply reforkAndRerun_starts|].
  split; [apply rerun_rejected; [reflexivity|exact Hsends|exact Hlen]|].
  repeat split.
Qed.

(** X19: the replay stops at a transaction whose value formatValue does
    not accept: the transactions before it have been sent and answered,
    reforkAndRerun fails, nothing is sent for the bad transaction or for the
    ones after it, and the store keeps the state the REMOVE_TRANSACTION
    dispatch has left. *)
Theorem X19_replay_stops_at_bad_value :
  forall (TransactionInput TransactionState : Type)
         (input_id : TransactionInput -> string)
         (encodeSingle : TransactionInput -> MetaTransaction)
         (input : TransactionState -> TransactionInput)
         (reducer : list TransactionState -> Action TransactionInput ->
                    list TransactionState)
         (avatarAddress : string)
         (first bad : TransactionState)
         (rest earlier later store : list TransactionState)
         (sends : list JsonRpcRequest) (answers : list Js.value) (fuel : nat),
    (1 <= fuel)%nat ->
    sends_of TransactionInput encodeSingle TransactionState input avatarAddress
      earlier sends ->
    formatValue (value (encodeSingle (input bad))) = None ->
    length answers = S (length earlier) ->
    exists l1 l2 e,
      invoke fuel
        (reforkAndRerun TransactionInput input_id encodeSingle TransactionState
           input reducer (first :: rest) (earlier ++ bad :: later) true
           avatarAddress)
        (idle TransactionState store) = Some (0%nat, l1) /\
      answer_in_order fuel 0 (map Resolved answers) l1 = Some l2 /\
      promises l2 !! 0%nat = Some (Settled (Rejected e)) /\
      this l2 = reducer store (REMOVE_TRANSACTION (input_id (input first))) /\
      calls l2 = Refork :: map Request sends /\
      blocked l2 = [].
Proof.
  intros TI TS input_id encodeSingle input reducer avatar first bad rest earlier
         later store sends answers fuel Hfuel Hsends Hbad Hlen.
  destruct fuel as [|fuel]; [lia|].
  do 3 eexists. split; [apply reforkAndRerun_starts|].
  split.
  - apply rerun_bad_value; [|reflexivity|exact Hsends|exact Hlen].
    unfold rerunRequest. rewrite Hbad. reflexivity.
  - repeat split.
Qed.

(** X20: reforkAndRerun dispatches before it looks at its provider: when
    the provider is not a ForkProvider it fails with "This is only supported
    when using ForkProvider" without any call, and the REMOVE_TRANSACTION for
    the ledger's first entry has been dispatched already. With an empty
    ledger it fails on [allTransactions[0].input] before anything is
    dispatched or called. *)
Theorem X20_replay_needs_fork_provider :
  forall (TransactionInput TransactionState : Type)
         (input_id : TransactionInput -> string)
         (encodeSingle : TransactionInput -> MetaTransaction)
         (input : TransactionState -> TransactionInput)
         (reducer : list TransactionState -> Action TransactionInput ->
                    list TransactionState)
         (avatarAddress : string)
         (newTransactions store : list TransactionState) (fuel : nat),
    (forall first rest,
        invoke fuel
          (reforkAndRerun TransactionInput input_id encodeSingle TransactionState
             input reducer (first :: rest) newTransactions false avatarAddress)
          (idle TransactionState store) =
        Some (0%nat,
              failed_with (Error "This is only supported when using ForkProvider")
                (reducer store (REMOVE_TRANSACTION (input_id (input first))))
                [])) /\
    (forall providerIsForkProvider, exists e,
        invoke fuel
          (reforkAndRerun TransactionInput input_id encodeSingle TransactionState
             input reducer [] newTransactions providerIsForkProvider avatarAddress)
          (idle TransactionState store) =
        Some (0%nat, failed_with e store [])).
Proof.
  intros. split.
  - intros first rest. destruct fuel; reflexivity.
  - intros b. eexists. destruct fuel; reflexivity.
Qed.

(** X21: submitTransactions asks the wrapping provider once, for an
    eth_sendTransaction of the batch of the transactions, and dispatches
    nothing while the request is pending. When the request resolves with a
    hash, SUBMIT_TRANSACTIONS is dispatched with that hash and the hash is
    returned; when it is rejected nothing is dispatched, the store is as it
    was, and the error reaches the caller. *)
Theorem X21_submit_dispatches_after_success :
  forall (TransactionInput TransactionState : Type)
         (encodeSingle : TransactionInput -> MetaTransaction)
         (encodeMulti : list MetaTransaction -> string -> MetaTransaction)
         (input : TransactionState -> TransactionInput)
         (reducer : list TransactionState -> Action TransactionInput ->
                    list TransactionState)
         (transactions store : list TransactionState) (fuel : nat),
    (1 <= fuel)%nat ->
    let submit :=
      submitTransactions TransactionInput encodeSingle encodeMulti
        TransactionState input reducer transactions in
    let batch :=
      batchTransaction TransactionInput encodeSingle encodeMulti
        TransactionState input transactions in
    exists l1,
      invoke fuel submit
        {| this := store; promises := []; blocked := []; microtasks := [];
           calls := []; timers := [] |} = Some (0%nat, l1) /\
      this l1 = store /\
      calls l1 = [WrappingProviderRequest "eth_sendTransaction" [batch]] /\
      promises l1 !! 0%nat = Some Pending /\
      (forall batchTransactionHash, exists l2,
          reply fuel 0 (Resolved batchTransactionHash) l1 = Some l2 /\
          this l2 = reducer store (SUBMIT_TRANSACTIONS batchTransactionHash) /\
          promises l2 !! 0%nat = Some (Settled (Resolved batchTransactionHash)) /\
          calls l2 = calls l1) /\
      (forall e, exists l2,
          reply fuel 0 (Rejected e) l1 = Some l2 /\
          this l2 = store /\
          promises l2 !! 0%nat = Some (Settled (Rejected e)) /\
          calls l2 = calls l1).
Proof.
  intros TI TS encodeSingle encodeMulti input reducer transactions store fuel Hfuel
         submit batch.
  destruct fuel as [|fuel]; [lia|].
  eexists. split; [reflexivity|]. split; [reflexivity|]. split; [reflexivity|].
  split; [reflexivity|]. split.
  - intros h. eexists. split; [destruct fuel; reflexivity|]. repeat split.
  - intros e. eexists. split; [destruct fuel; reflexivity|]. repeat split.
Qed.

Lemma digits10_digits n : Tenderly.digits10 n <> ""%string.
Proof.
  unfold Tenderly.digits10.
  destruct n as [|p|p]; cbn [Z.to_int DecimalString.NilZero.string_of_int];
    [discriminate| |discriminate].
  destruct (Pos.to_uint p); cbn; discriminate.
Qed.

Lemma numberToString_digits x : Tenderly.numberToString x <> ""%string.
Proof.
  unfold Tenderly.numberToString.
  destruct (_ <=? 21)%nat; [apply digits10_digits|].
  destruct (Tenderly.strip_trailing_zeros _) as [|d [|d' more]]; discriminate.
Qed.

Lemma toString10_digits n : Tenderly.toString10 n <> ""%string.
Proof.
  destruct n as [|p|p]; cbn [Tenderly.toString10];
    [discriminate|apply numberToString_digits|discriminate].
Qed.

Lemma transactionOf_value txData :
  exists s, get (transactionOf txData) "value" = VStr s /\ s <> ""%string /\
            (forall v, get txData "value" = VStr v -> v <> ""%string -> s = v) /\
            (forall n, get txData "value" = VNum n -> n <> 0 ->
                       s = Tenderly.toString10 n) /\
            (truthy (get txData "value") = false -> s = "0"%string).
Proof.
  unfold transactionOf. cbn [get lookup_field String.eqb Ascii.eqb Bool.eqb].
  eexists. split; [reflexivity|]. unfold or_else.
  destruct (get txData "value") as [| |b|n|v|props] eqn:Hv; cbn [truthy].
  - split; [discriminate|]. split; [discriminate|]. split; [discriminate|reflexivity].
  - split; [discriminate|]. split; [discriminate|]. split; [discriminate|reflexivity].
  - destruct b; cbn [negb Tenderly.toStringJs]; split; try discriminate;
      split; try discriminate; split; try discriminate; reflexivity.
  - destruct (Z.eqb_spec n 0) as [->|Hn]; cbn [negb Tenderly.toStringJs].
    + split; [discriminate|]. split; [discriminate|].
      split; [intros n [= <-] H; contradiction|reflexivity].
    + split; [apply toString10_digits|]. split; [discriminate|].
      split; [intros n' [= <-] _; reflexivity|discriminate].
  - destruct (String.eqb_spec v "") as [->|Hne]; cbn [negb Tenderly.toStringJs].
    + split; [discriminate|]. split; [intros v [= <-] H; contradiction|].
      split; [discriminate|reflexivity].
    + split; [exact Hne|]. split; [intros v' [= <-] _; reflexivity|].
      split; discriminate.
  - split; [discriminate|]. split; [discriminate|]. split; discriminate.
Qed.

(** X25: onBeforeTransactionSend appends before it decodes. It asks
    decodeSingle once without a fetchAbi, for the transaction with the
    defaults filled in (the value always a non-empty string: a non-empty
    string as it is, a number other than 0 as Number's toString prints it,
    "0" for a falsy value), and dispatches
    nothing before the answer; with the answer it dispatches
    APPEND_RAW_TRANSACTION. Only then it looks at chainId: without one it
    fails with "chainId is undefined", the raw transaction staying in the
    store and no second decodeSingle being made; with one it asks
    decodeSingle again, for the same transaction and id, with a fetchAbi,
    and dispatches DECODE_TRANSACTION when that resolves, and nothing when
    it rejects. *)
Theorem X25_raw_transaction_appended_first :
  forall (TransactionState : Type)
         (reducer : list TransactionState -> Action Js.value ->
                    list TransactionState)
         (chainId txId txData inputRaw : Js.value)
         (store : list TransactionState) (fuel : nat),
    (1 <= fuel)%nat ->
    nullish txData = false ->
    let transaction := transactionOf txData in
    let appended := reducer store (APPEND_RAW_TRANSACTION inputRaw) in
    exists l1 l2,
      invoke fuel (onBeforeTransactionSend TransactionState reducer chainId txId txData)
        {| this := store; promises := []; blocked := []; microtasks := [];
           calls := []; timers := [] |} = Some (0%nat, l1) /\
      this l1 = store /\
      calls l1 = [DecodeSingle transaction false txId] /\
      (exists value,
          get transaction "value" = VStr value /\ value <> ""%string /\
          (forall v, get txData "value" = VStr v -> v <> ""%string -> value = v) /\
          (forall n, get txData "value" = VNum n -> n <> 0 ->
                     value = Tenderly.toString10 n) /\
          (truthy (get txData "value") = false -> value = "0"%string)) /\
      reply fuel 0 (Resolved inputRaw) l1 = Some l2 /\
      this l2 = appended /\
      (truthy chainId = false ->
         promises l2 !! 0%nat = Some (Settled (Rejected (Error "chainId is undefined"))) /\
         calls l2 = calls l1) /\
      (truthy chainId = true ->
         promises l2 !! 0%nat = Some Pending /\
         calls l2 = [DecodeSingle transaction false txId;
                     DecodeSingle transaction true txId] /\
         (forall input, exists l3,
             reply fuel 1 (Resolved input) l2 = Some l3 /\
             this l3 = reducer appended (DECODE_TRANSACTION input) /\
             promises l3 !! 0%nat = Some (Settled (Resolved VUndefined))) /\
         (forall e, exists l3,
             reply fuel 1 (Rejected e) l2 = Some l3 /\
             this l3 = appended /\
             promises l3 !! 0%nat = Some (Settled (Rejected e)))).
Proof.
  intros TS reducer chainId txId txData inputRaw store fuel Hfuel Hn transaction
         appended.
  destruct fuel as [|fuel]; [lia|].
  unfold onBeforeTransactionSend. rewrite Hn.
  destruct (truthy chainId) eqn:Hc.
  - do 2 eexists. split; [reflexivity|]. split; [reflexivity|].
    split; [reflexivity|].
    split; [apply transactionOf_value|].
    split; [destruct fuel; reflexivity|].
    split; [reflexivity|]. split; [discriminate|]. intros _.
    split; [reflexivity|]. split; [reflexivity|]. split.
    + intros input. eexists. split; [destruct fuel; reflexivity|]. split; reflexivity.
    + intros e. eexists. split; [destruct fuel; reflexivity|]. split; reflexivity.
  - do 2 eexists. split; [reflexivity|]. split; [reflexivity|].
    split; [reflexivity|].
    split; [apply transactionOf_value|].
    split; [destruct fuel; reflexivity|].
    split; [reflexivity|]. split; [|discriminate]. intros _.
    split; reflexivity.
Qed.

Lemma X16_witness :
  formatValue "0xA0b" = Some "0xA0b"%string /\
  formatValue "-0x01" = Some "-0x01"%string.
Proof.
  split.
  - exact (X16_formatValue_idempotent "0x000A0b" "0xA0b" eq_refl).
  - exact (X16_formatValue_idempotent "-1" "-0x01" eq_refl).
Defined.

Lemma X17_witness : formatValue "1.5" = None.
Proof.
  destruct X17_formatValue_rejects as (_ & _ & H).
  apply (H "1.5"%string "."%char); [right; left; reflexivity | reflexivity | | |];
    discriminate.
Defined.

(** Two new transactions; refork resolves and the first send is rejected. *)
Lemma X18_witness :
  let allTransactions := [Example.submitted; Example.recorded; Example.recorded] in
  let newTransactions := [Example.recorded; Example.recorded] in
  let e := Error "execution reverted" in
  exists l1 l2 send,
    invoke 1 (Example.reforkAndRerun allTransactions newTransactions)
      (idle Example.TransactionState allTransactions) = Some (0%nat, l1) /\
    answer_in_order 1 0 [Resolved VUndefined; Rejected e] l1 = Some l2 /\
    promises l2 !! 0%nat = Some (Settled (Rejected e)) /\
    this l2 = [] /\
    calls l2 = [Refork; Request send].
Proof.
  intros allTransactions newTransactions e.
  destruct (rerunRequest "0x00000000000000000000000000000000000000bb"
              (Example.encodeSingle (Example.input Example.recorded)))
    as [send|] eqn:Hsend; [|discriminate].
  destruct (X18_replay_stops_at_rejection string Example.TransactionState
              (fun i => i) Example.encodeSingle Example.input Example.reducer
              "0x00000000000000000000000000000000000000bb"
              Example.submitted [Example.recorded; Example.recorded]
              newTransactions allTransactions [send; send] [VUndefined] e 1%nat)
    as (l1 & l2 & Hi & Ha & Hp & Ht & Hc & _).
  - lia.
  - constructor; [exact Hsend|]. constructor; [exact Hsend|constructor].
  - cbn. lia.
  - exists l1, l2, send. split; [exact Hi|]. split; [exact Ha|]. split; [exact Hp|].
    split; [exact Ht|exact Hc].
Defined.

(** Three new transactions, the second with the value "1.5". *)
Lemma X19_witness :
  let replay :=
    reforkAndRerun string (fun i => i) encodeValue string (fun tx => tx)
      (fun _ _ => []) ["0x01"; "1.5"; "0x02"]%string ["0x01"; "1.5"; "0x02"]%string
      true "0x00000000000000000000000000000000000000bb" in
  exists l1 l2 e send,
    invoke 1 replay (idle string ["0x01"; "1.5"; "0x02"]%string) = Some (0%nat, l1) /\
    answer_in_order 1 0 [Resolved VUndefined; Resolved (VStr "0xhash")] l1 =
      Some l2 /\
    promises l2 !! 0%nat = Some (Settled (Rejected e)) /\
    calls l2 = [Refork; Request send].
Proof.
  intros replay.
  destruct (rerunRequest "0x00000000000000000000000000000000000000bb"
              (encodeValue "0x01")) as [send|] eqn:Hsend; [|discriminate].
  destruct (X19_replay_stops_at_bad_value string string (fun i => i) encodeValue
              (fun tx => tx) (fun _ _ => [])
              "0x00000000000000000000000000000000000000bb"
              "0x01"%string "1.5"%string ["1.5"; "0x02"]%string ["0x01"%string]
              ["0x02"%string] ["0x01"; "1.5"; "0x02"]%string [send]
              [VUndefined; VStr "0xhash"] 1%nat)
    as (l1 & l2 & e & Hi & Ha & Hp & _ & Hc & _).
  - lia.
  - constructor; [exact Hsend|constructor].
  - reflexivity.
  - reflexivity.
  - exists l1, l2, e, send. split; [exact Hi|]. split; [exact Ha|].
    split; [exact Hp|exact Hc].
Defined.

(** One recorded transaction; the wallet rejects the batch. *)
Lemma X21_witness :
  let submit :=
    submitTransactions string Example.encodeSingle Example.encodeMulti
      Example.TransactionState Example.input Example.reducer [Example.recorded] in
  let e := Error "User rejected the request" in
  exists l1 l2,
    invoke 1 submit
      {| this := [Example.recorded]; promises := []; blocked := [];
         microtasks := []; calls := []; timers := [] |} = Some (0%nat, l1) /\
    calls l1 =
      [WrappingProviderRequest "eth_sendTransaction" [Example.encodeSingle "0xb2"]] /\
    reply 1 0 (Rejected e) l1 = Some l2 /\
    this l2 = [Example.recorded] /\
    promises l2 !! 0%nat = Some (Settled (Rejected e)).
Proof.
  intros submit e.
  destruct (X21_submit_dispatches_after_success string Example.TransactionState
              Example.encodeSingle Example.encodeMulti Example.input
              Example.reducer [Example.recorded] [Example.recorded] 1%nat (le_n _))
    as (l1 & Hi & _ & Hc & _ & _ & Hrej).
  destruct (Hrej e) as (l2 & Hr & Ht & Hp & _).
  exists l1, l2. split; [exact Hi|]. split; [exact Hc|]. split; [exact Hr|].
  split; [exact Ht|exact Hp].
Defined.

(** A transaction without a value, sent while chainId is undefined. *)
Lemma X25_witness :
  let txData := VObj [("to", VStr "0xabc"); ("value", VNum (10 ^ 21))] in
  exists l1 l2,
    invoke 1 (onBeforeTransactionSend Js.value keepInputs VUndefined (VStr "id1")
                txData)
      {| this := []; promises := []; blocked := []; microtasks := [];
         calls := []; timers := [] |} = Some (0%nat, l1) /\
    calls l1 =
      [DecodeSingle (VObj [("to", VStr "0xabc"); ("value", VStr "1e+21");
                           ("data", VStr "")]) false (VStr "id1")] /\
    reply 1 0 (Resolved (VStr "raw")) l1 = Some l2 /\
    this l2 = [VStr "raw"] /\
    promises l2 !! 0%nat = Some (Settled (Rejected (Error "chainId is undefined"))) /\
    calls l2 = calls l1.
Proof.
  intros txData.
  destruct (X25_raw_transaction_appended_first Js.value keepInputs VUndefined
              (VStr "id1") txData (VStr "raw") [] 1%nat (le_n _) eq_refl)
    as (l1 & l2 & Hi & _ & Hc & _ & Hr & Ht & Hno & _).
  destruct (Hno eq_refl) as [Hp Hc2].
  exists l1, l2. split; [exact Hi|]. split; [exact Hc|]. split; [exact Hr|].
  split; [exact Ht|]. split; [exact Hp|exact Hc2].
Defined.

End DrawerFacts.

(** ** Connections *)
Module ConnectionsFacts.
Import Connections.

Lemma addModuleType_idempotent ROLES c :
  addModuleType ROLES (addModuleType ROLES c) = addModuleType ROLES c.
Proof.
  unfold addModuleType. cbn [id label chainId moduleAddress avatarAddress
    pilotAddress providerType moduleType roleId].
  destruct (truthy (moduleType c)) eqn:Ht.
  - rewrite Ht. reflexivity.
  - destruct (truthy ROLES); reflexivity.
Qed.

Lemma applyMigrations_map migrations connections :
  applyMigrations migrations connections =
  map (fun c => fold_left (fun c migration => migration c) migrations c) connections.
Proof.
  unfold applyMigrations. revert connections.
  induction migrations as [|m ms IH]; intros cs; cbn [fold_left].
  - symmetry. apply List.map_id.
  - rewrite IH, List.map_map. reflexivity.
Qed.

Lemma migrateConnections_map ROLES cs :
  migrateConnections ROLES cs = map (addModuleType ROLES) cs.
Proof.
  unfold migrateConnections, CONNECTION_STATE_MIGRATIONS.
  rewrite applyMigrations_map. reflexivity.
Qed.

(** C9: migrateConnections applies the registered migrations, in the order
    of their registration, to every stored connection, keeping the
    connections' number and order: the connection at each index of the
    result is addModuleType of the stored one at that index. Applied twice
    it gives what it gives applied once. A list of migrations is applied to
    every connection in the order of the list, which is the same as its
    parts one after the other. addModuleType is idempotent, returns a
    connection with a (truthy) moduleType as it is, and changes nothing but
    moduleType, which it fills with ROLES when it is missing. *)
Theorem C9_migrations_idempotent :
  forall (ROLES : value),
    (forall connections,
        migrateConnections ROLES connections =
        applyMigrations (CONNECTION_STATE_MIGRATIONS ROLES) connections /\
        migrateConnections ROLES connections =
        map (addModuleType ROLES) connections /\
        length (migrateConnections ROLES connections) = length connections /\
        (forall i c, connections !! i = Some c ->
           migrateConnections ROLES connections !! i =
           Some (addModuleType ROLES c))) /\
    (forall connections,
        migrateConnections ROLES (migrateConnections ROLES connections) =
        migrateConnections ROLES connections) /\
    (forall migrations connections,
        applyMigrations migrations connections =
        map (fun c => fold_left (fun c migration => migration c) migrations c)
            connections) /\
    (forall before after connections,
        applyMigrations (before ++ after) connections =
        applyMigrations after (applyMigrations before connections)) /\
    (forall c,
        addModuleType ROLES (addModuleType ROLES c) = addModuleType ROLES c) /\
    (forall c, truthy (moduleType c) = true -> addModuleType ROLES c = c) /\
    (forall c,
        let c' := addModuleType ROLES c in
        id c' = id c /\ label c' = label c /\ chainId c' = chainId c /\
        moduleAddress c' = moduleAddress c /\ avatarAddress c' = avatarAddress c /\
        pilotAddress c' = pilotAddress c /\ providerType c' = providerType c /\
        roleId c' = roleId c /\
        moduleType c' = if truthy (moduleType c) then moduleType c else ROLES).
Proof.
  intros ROLES. split; [|split; [|split; [|split; [|split; [|split]]]]].
  - intros cs. split; [reflexivity|]. split; [apply migrateConnections_map|].
    rewrite migrateConnections_map. split; [apply length_map|].
    intros i c Hi. change (map ?f ?l) with (f <$> l).
    rewrite list_lookup_fmap, Hi. reflexivity.
  - intros cs. rewrite !migrateConnections_map, List.map_map.
    apply List.map_ext. intros c. apply addModuleType_idempotent.
  - apply applyMigrations_map.
  - intros before after cs. unfold applyMigrations. apply fold_left_app.
  - apply addModuleType_idempotent.
  - intros c Ht. unfold addModuleType. rewrite Ht. destruct c; reflexivity.
  - intros c. cbn. repeat split; reflexivity.
Qed.

(** A connection stored before moduleType existed, followed by one that has
    a moduleType. *)
Lemma C9_witness :
  let legacy :=
    {| id := "c0"; label := "old"; chainId := 5;
       moduleAddress := "0x0a"; avatarAddress := "0x0b"; pilotAddress := "0x0c";
       providerType := WalletConnect; moduleType := VUndefined; roleId := "1" |} in
  let stored :=
    {| id := "c1"; label := "dao"; chainId := 1;
       moduleAddress := "0x01"; avatarAddress := "0x02"; pilotAddress := "0x03";
       providerType := MetaMask; moduleType := VStr "delay"; roleId := "" |} in
  migrateConnections (VStr "roles") [legacy; stored] =
    [ {| id := "c0"; label := "old"; chainId := 5;
         moduleAddress := "0x0a"; avatarAddress := "0x0b"; pilotAddress := "0x0c";
         providerType := WalletConnect; moduleType := VStr "roles"; roleId := "1" |};
      stored ] /\
  migrateConnections (VStr "roles") [legacy; stored] <> [legacy; stored] /\
  addModuleType (VStr "roles") stored = stored.
Proof.
  intros legacy stored.
  destruct (C9_migrations_idempotent (VStr "roles"))
    as (Hmigrate & _ & _ & _ & _ & Hkeep & _).
  destruct (Hmigrate [legacy; stored]) as (_ & Hmap & _).
  split; [exact Hmap|]. split; [rewrite Hmap; discriminate|].
  exact (Hkeep stored eq_refl).
Defined.


Lemma find_id_map (f : Connection -> Connection) i cs :
  (forall c, Connections.id (f c) = Connections.id c) ->
  List.find (fun c => String.eqb (Connections.id c) i) (map f cs) =
  option_map f (List.find (fun c => String.eqb (Connections.id c) i) cs).
Proof.
  intros Hid. induction cs as [|c cs IH]; [reflexivity|].
  cbn [map List.find]. rewrite Hid.
  destruct (String.eqb (Connections.id c) i); [reflexivity|exact IH].
Qed.

Lemma selectConnection_map (f : Connection -> Connection) cs sel i :
  (forall c, Connections.id (f c) = Connections.id c) ->
  selectConnection (map f cs) sel i = option_map f (selectConnection cs sel i).
Proof.
  intros Hid. unfold selectConnection.
  set (connectionId := match i with
                       | Some i0 => if String.eqb i0 "" then sel else i0
                       | None => sel
                       end).
  destruct (String.eqb connectionId "").
  - destruct cs; reflexivity.
  - rewrite find_id_map by assumption.
    destruct (List.find _ cs); [reflexivity|]. destruct cs; reflexivity.
Qed.


Lemma selectConnection_In cs sel i c :
  selectConnection cs sel i = Some c -> In c cs.
Proof.
  unfold selectConnection.
  destruct (if String.eqb _ "" then None else List.find _ cs) as [c0|] eqn:Hf.
  - intros [= <-]. destruct (String.eqb _ ""); [discriminate|].
    apply List.find_some in Hf as [Hin _]. exact Hin.
  - destruct cs; cbn; [discriminate|]. intros [= <-]. left. reflexivity.
Qed.

(** X22: which connection useConnection selects. There is none exactly
    when there are no connections at all, and then useConnection throws.
    Otherwise, with [wanted] the id asked for, or the selected id when none
    or an empty one is asked for: it is the first connection whose id is
    [wanted] when there is one, and the first connection of the list when
    [wanted] is empty or no connection has that id; an unknown id asked for
    does not fall back to the selected connection. *)
Theorem X22_connection_selected :
  forall (connections : list Connection) (selectedConnectionId : string)
         (id : option string),
    let wanted :=
      match id with
      | Some i => if String.eqb i "" then selectedConnectionId else i
      | None => selectedConnectionId
      end in
    (selectConnection connections selectedConnectionId id = None <->
     connections = []) /\
    (forall c, selectConnection connections selectedConnectionId id = Some c ->
       In c connections /\
       ((wanted <> ""%string /\ Connections.id c = wanted /\
         exists before after,
           connections = before ++ c :: after /\
           Forall (fun c' => Connections.id c' <> wanted) before) \/
        ((wanted = ""%string \/
          Forall (fun c' => Connections.id c' <> wanted) connections) /\
         head connections = Some c))).
Proof.
  intros cs sel i wanted. unfold selectConnection. fold wanted.
  destruct (String.eqb_spec wanted "") as [He|Hne].
  - split.
    + destruct cs; cbn; split; congruence.
    + intros c Hc. split; [destruct cs; cbn in Hc; [discriminate|]; left; congruence|].
      right. split; [left; exact He|exact Hc].
  - destruct (List.find _ cs) as [c0|] eqn:Hf.
    + split; [split; [discriminate|intros ->; discriminate]|].
      intros c [= <-]. pose proof Hf as Hf'. apply List.find_some in Hf' as [Hin Hid].
      apply String.eqb_eq in Hid. split; [exact Hin|]. left.
      split; [exact Hne|]. split; [exact Hid|].
      clear Hin. induction cs as [|c cs IH]; [discriminate|].
      cbn [List.find] in Hf. destruct (String.eqb_spec (Connections.id c) wanted) as [Hc|Hc].
      * injection Hf as <-. exists [], cs. split; [reflexivity|constructor].
      * destruct (IH Hf) as (before & after & -> & Hall).
        exists (c :: before), after. split; [reflexivity|]. constructor; assumption.
    + split; [destruct cs; cbn; split; congruence|].
      intros c Hc. split; [destruct cs; cbn in Hc; [discriminate|]; left; congruence|].
      right. split; [|exact Hc]. right. apply List.Forall_forall. intros c' Hin.
      pose proof (List.find_none _ _ Hf c' Hin) as Hn. apply String.eqb_neq, Hn.
Qed.

(** X23: selection and migration commute: selecting from the migrated
    connections gives the migrated form of what selecting from the stored
    ones gives. So with a truthy KnownContracts.ROLES the connection
    useConnection returns always has a moduleType, and it is the migrated
    form of one of the stored connections. *)
Theorem X23_selected_connection_is_migrated :
  forall (ROLES : value) (stored : list Connection)
         (selectedConnectionId : string) (id : option string)
         (metamask : MetaMaskHook) (useWalletConnect : string -> WalletConnectHook),
    selectConnection (migrateConnections ROLES stored) selectedConnectionId id =
    option_map (addModuleType ROLES)
      (selectConnection stored selectedConnectionId id) /\
    (truthy ROLES = true ->
     forall hook,
       useConnection (migrateConnections ROLES stored) selectedConnectionId id
         metamask useWalletConnect = Bridge.Return hook ->
       truthy (moduleType (connection hook)) = true /\
       exists c, In c stored /\ connection hook = addModuleType ROLES c).
Proof.
  intros ROLES stored sel i mm uwc.
  assert (Hsel : selectConnection (migrateConnections ROLES stored) sel i =
                 option_map (addModuleType ROLES) (selectConnection stored sel i)).
  { rewrite migrateConnections_map. apply selectConnection_map. reflexivity. }
  split; [exact Hsel|].
  intros Hroles hook. unfold useConnection. rewrite Hsel.
  destruct (selectConnection stored sel i) as [c|] eqn:Hc; [|discriminate].
  cbn [option_map]. intros [= <-]. cbn [connection]. split.
  - unfold addModuleType. cbn [moduleType].
    destruct (truthy (moduleType c)) eqn:Ht; [exact Ht|exact Hroles].
  - exists c. split; [|reflexivity].
    apply (selectConnection_In stored sel i c Hc).
Qed.

(** X24: Routes calls pushSettingsRoute exactly when it renders nothing;
    and it renders the browser only when no settings route matches, the
    connection has an avatar and a module address, and the connection is
    connected: for a MetaMask connection, MetaMask holds the pilot account
    and is on the connection's chain; for a WalletConnect connection, its
    session says so. *)
Theorem X24_browser_needs_connection :
  forall (connections : list Connection) (selectedConnectionId : string)
         (id : option string) (metamask : MetaMaskHook)
         (useWalletConnect : string -> WalletConnectHook)
         (settingsRouteMatch : option (string * string)) (hook : ConnectionHook),
    useConnection connections selectedConnectionId id metamask useWalletConnect =
      Bridge.Return hook ->
    let c := connection hook in
    (snd (Routes settingsRouteMatch hook) = true <->
     fst (Routes settingsRouteMatch hook) = RenderNothing) /\
    (fst (Routes settingsRouteMatch hook) = RenderBrowser ->
     settingsRouteMatch = None /\
     avatarAddress c <> ""%string /\
     moduleAddress c <> ""%string /\
     match providerType c with
     | MetaMask =>
         In (pilotAddress c) (accounts metamask) /\
         metamaskChainId metamask = VNum (chainId c) /\
         chainId c <> 0
     | WalletConnect =>
         walletConnectConnected (useWalletConnect (Connections.id c)) = true
     end).
Proof.
  intros cs sel i mm uwc route hook Hhook c. split.
  - unfold Routes. destruct route as [[url edit]|]; cbn [fst snd].
    + split; discriminate.
    + destruct (_ || _); cbn [fst snd]; split; congruence.
  - unfold Routes. destruct route as [[url edit]|]; cbn [fst]; [discriminate|].
    destruct (String.eqb_spec (avatarAddress (connection hook)) "") as [|Ha];
      cbn [orb fst]; [discriminate|].
    destruct (String.eqb_spec (moduleAddress (connection hook)) "") as [|Hm];
      cbn [orb fst]; [discriminate|].
    destruct (connected hook) eqn:Hconn; cbn [negb fst]; [|discriminate].
    intros _. split; [reflexivity|]. split; [exact Ha|]. split; [exact Hm|].
    unfold useConnection in Hhook.
    destruct (selectConnection cs sel i) as [c0|]; [|discriminate].
    injection Hhook as <-. cbn [connection connected] in *. subst c.
    cbn [connection]. destruct (providerType c0); cbn [isMetaMask] in Hconn.
    + exact Hconn.
    + apply andb_true_iff in Hconn as [[Hacc Ht]%andb_true_iff Heq].
      apply existsb_exists in Hacc as (a & Hin & Ha'). apply String.eqb_eq in Ha'.
      subst a. split; [exact Hin|].
      unfold strict_eq_num in Heq.
      destruct (metamaskChainId mm) as [| | |n| |]; try discriminate.
      apply Z.eqb_eq in Heq. subst n. split; [reflexivity|].
      cbn [truthy] in Ht. intros Hz. rewrite Hz in Ht. discriminate.
Qed.

(** "c2" is selected and the unknown id "c9" is asked for: the first
    connection it is. *)
Lemma X22_witness :
  selectConnection [storedConnection; otherConnection] "c2" (Some "c9"%string) =
    Some storedConnection /\
  head [storedConnection; otherConnection] = Some storedConnection.
Proof.
  split; [reflexivity|].
  destruct (X22_connection_selected [storedConnection; otherConnection] "c2"
              (Some "c9"%string)) as [_ H].
  destruct (H storedConnection eq_refl) as [_ [(_ & Hid & _)|[_ Hhead]]];
    [discriminate Hid | exact Hhead].
Defined.

(** The stored connection has no moduleType; the one useConnection returns
    has. *)
Lemma X23_witness :
  match useConnection (migrateConnections (VStr "roles") [storedConnection])
          "c1" None metamaskOnChain1 walletConnectOf with
  | Bridge.Return hook => truthy (moduleType (connection hook)) = true
  | Bridge.Throw _ => False
  end.
Proof.
  destruct (X23_selected_connection_is_migrated (VStr "roles") [storedConnection]
              "c1" None metamaskOnChain1 walletConnectOf) as [_ H].
  specialize (H eq_refl).
  destruct (useConnection _ _ _ _ _) as [hook|e] eqn:Hu.
  - destruct (H hook eq_refl) as [Ht _]. exact Ht.
  - discriminate Hu.
Defined.

(** The stored connection with MetaMask on its chain: the browser. *)
Lemma X24_witness :
  match useConnection [storedConnection] "c1" None metamaskOnChain1
          walletConnectOf with
  | Bridge.Return hook =>
      Routes None hook = (RenderBrowser, false) /\
      In (pilotAddress (connection hook)) (accounts metamaskOnChain1) /\
      metamaskChainId metamaskOnChain1 = VNum (chainId (connection hook))
  | Bridge.Throw _ => False
  end.
Proof.
  pose proof (X24_browser_needs_connection [storedConnection] "c1" None
                metamaskOnChain1 walletConnectOf None) as H.
  destruct (useConnection _ _ _ _ _) as [hook|e] eqn:Hu; [|discriminate Hu].
  destruct (H hook eq_refl) as [_ Hb].
  injection Hu as <-. split; [reflexivity|].
  destruct (Hb eq_refl) as (_ & _ & _ & Hin & Hc & _). split; [exact Hin|exact Hc].
Defined.

End ConnectionsFacts.
